(** * Milestar Cafe: the in-memory store and the order routes

    A shallow embedding of [server/storage.ts] (class [MemStorage]) and of
    the order handlers of [server/routes.ts], with the entity types of
    [shared/schema.ts].

    Conventions of the embedding.
    - A JavaScript [number] is the rational it denotes ([Qc], canonical
      fractions with Leibniz equality): every finite double is such a
      rational.  The counters, ids and quantities of the program are
      integers on which double arithmetic is exact (below 2^53), so [+] on
      them is the exact sum.  The server only copies monetary amounts;
      the client computes with them, and there [+] and [*] round to the
      nearest double ([js_add], [js_mul]).  [NaN], the infinities and the
      sign of zero are not represented.
    - A JavaScript string is the sequence of its code units; a [string]
      holds the code units below 256 (Latin-1), one per character.
      Strings with other code units are not represented.
    - A [Date] is its [getTime()] value, an integer number of milliseconds.
      [new Date()] reads the clock: the current time is an argument [now].
    - A JavaScript [Map] keeps its entries in insertion order, and
      [Array.from(m.values())] observes that order: a [Map] is an
      association list, [set] on a present key replaces the value in place
      and [set] on an absent key appends.
    - Every method of [MemStorage] is [async] but contains no [await]: its
      body runs to completion before any other code can observe the store.
      A method is therefore one function from store to store.
    - The [sessionStore] field belongs to the authentication layer and is
      left out; of that layer the routes only see [req.user]. *)

From Stdlib Require Import List String Ascii Bool ZArith QArith Qcanon Lia Lqa.
From Stdlib Require Import Qround Qabs.
From Stdlib Require Import Sorted Permutation DecimalString DecimalNat.
Import ListNotations.

Local Open Scope string_scope.
Local Open Scope list_scope.

(** ** Numbers *)

Definition number : Type := Qc.

Definition num (z : Z) : number := Q2Qc (inject_Z z).

Definition number_eq_dec : forall x y : number, {x = y} + {x <> y} := Qc_eq_dec.

(** [x === y] on numbers. *)
Definition number_eqb (x y : number) : bool :=
  if number_eq_dec x y then true else false.

(** [x <= y] on numbers. *)
Definition number_leb (x y : number) : bool := Qle_bool x y.

(** [Number.isInteger(n)] *)
Definition Number_isInteger (n : number) : bool := (Qden n =? 1)%positive.

(** [c++] leaves [c + 1] in the variable (and evaluates to the old [c]). *)
Definition incr (c : number) : number := (c + num 1)%Qc.

(** *** Arithmetic on doubles

    [x + y] and [x * y] are the exact result rounded to the nearest
    double, ties to the even significand.  A double is [m * 2^e] with
    [|m| < 2^53] and [e >= -1074]; results from [2^1024] on, which
    JavaScript turns into [Infinity], are out of reach of the amounts of
    a cart and are rounded like the others.  Where the program adds
    whole numbers below 2^53 (the counters, the quantities) the sum is
    exact and written [+]. *)

(** [floor(log2 q)] for [q > 0]. *)
Definition floor_log2 (q : Q) : Z :=
  let e := (Z.log2 (Qnum q) - Z.log2 (Zpos (Qden q)))%Z in
  if Qle_bool (2 ^ e) q then e else (e - 1)%Z.

(** The nearest integer, ties to even. *)
Definition round_half_even (q : Q) : Z :=
  let f := Qfloor q in
  match Qcompare (q - inject_Z f) (1 # 2) with
  | Lt => f
  | Gt => (f + 1)%Z
  | Eq => if Z.even f then f else (f + 1)%Z
  end.

Definition round_double (q : Q) : Q :=
  match Qcompare q 0 with
  | Eq => 0%Q
  | c =>
      let a := Qabs q in
      let e := Z.max (floor_log2 a - 52) (-1074) in
      let r := (inject_Z (round_half_even (a / 2 ^ e)) * 2 ^ e)%Q in
      match c with Lt => (- r)%Q | _ => r end
  end.

Definition fl (x : number) : number := Q2Qc (round_double x).

(** [x + y] on doubles. *)
Definition js_add (x y : number) : number := fl (x + y)%Qc.

(** [x * y] on doubles. *)
Definition js_mul (x y : number) : number := fl (x * y)%Qc.

(** ** JavaScript [Map] with number keys *)

Section JsMap.
Context {V : Type}.

Definition JsMap : Type := list (number * V).

(** [new Map()] *)
Definition Map_new : JsMap := [].

(** [m.get(k)]; [None] is [undefined]. *)
Fixpoint Map_get (k : number) (m : JsMap) : option V :=
  match m with
  | [] => None
  | (k', v) :: m' => if number_eq_dec k k' then Some v else Map_get k m'
  end.

(** [m.set(k, v)] *)
Fixpoint Map_set (k : number) (v : V) (m : JsMap) : JsMap :=
  match m with
  | [] => [(k, v)]
  | (k', v') :: m' =>
      if number_eq_dec k k' then (k, v) :: m' else (k', v') :: Map_set k v m'
  end.

(** [m.delete(k)]: the boolean tells whether an entry was removed. *)
Fixpoint Map_delete (k : number) (m : JsMap) : bool * JsMap :=
  match m with
  | [] => (false, [])
  | (k', v') :: m' =>
      if number_eq_dec k k' then (true, m')
      else let (b, r) := Map_delete k m' in (b, (k', v') :: r)
  end.

(** [Array.from(m.values())] *)
Definition Map_values (m : JsMap) : list V := map snd m.

Definition Map_keys (m : JsMap) : list number := map fst m.
End JsMap.

Arguments JsMap : clear implicits.

(** ** Entities of [shared/schema.ts] *)

(** A nullable, optional text column ([specialInstructions]): the key may be
    absent, [null], or a string. *)
Inductive opt_text : Type :=
| Absent
| Null
| Text (s : string).

Module InsertUser.
Record t : Type := mk
  { username : string; password : string; name : string;
    isAdmin : option bool }.
End InsertUser.

Module User.
Record t : Type := mk
  { id : number; username : string; password : string; name : string;
    isAdmin : option bool }.
End User.

Module InsertMenuItem.
Record t : Type := mk
  { name : string; description : string; price : number;
    imageUrl : string; category : string }.
End InsertMenuItem.

(** [Partial<InsertMenuItem>]: each key present or not. *)
Module PartialMenuItem.
Record t : Type := mk
  { name : option string; description : option string;
    price : option number; imageUrl : option string;
    category : option string }.
End PartialMenuItem.

Module MenuItem.
Record t : Type := mk
  { id : number; name : string; description : string; price : number;
    imageUrl : string; category : string }.
End MenuItem.

Module InsertOrder.
Record t : Type := mk
  { userId : number; customerName : string; customerPhone : string;
    orderType : string; specialInstructions : opt_text;
    subtotal : number; tax : number; total : number }.
End InsertOrder.

(** [insertOrderSchema] does not pick [status], and [createOrder] does not
    add it: a freshly created order has no [status] key ([None]). *)
Module Order.
Record t : Type := mk
  { id : number; userId : number; customerName : string;
    customerPhone : string; orderType : string;
    specialInstructions : opt_text; status : option string;
    subtotal : number; tax : number; total : number; createdAt : Z }.
End Order.

Module InsertOrderItem.
Record t : Type := mk
  { orderId : number; menuItemId : number; name : string;
    price : number; quantity : number }.
End InsertOrderItem.

Module OrderItem.
Record t : Type := mk
  { id : number; orderId : number; menuItemId : number; name : string;
    price : number; quantity : number }.
End OrderItem.

(** ** [class MemStorage] *)

Record MemStorage : Type := mkStore
  { users : JsMap User.t;
    menuItems : JsMap MenuItem.t;
    orders : JsMap Order.t;
    orderItems : JsMap OrderItem.t;
    userIdCounter : number;
    menuItemIdCounter : number;
    orderIdCounter : number;
    orderItemIdCounter : number }.

(** *** User methods *)

Definition getUser (s : MemStorage) (id : number) : option User.t :=
  Map_get id (users s).

(** [String.prototype.toLowerCase], code unit by code unit: the upper
    case letters below 256 are [A] to [Z] (65 to 90) and the accented
    capitals 192 to 222 without the multiplication sign 215; each has its
    lower case 32 places further.  Other code units are kept. *)
Definition lower_ascii (c : ascii) : ascii :=
  let n := nat_of_ascii c in
  if ((65 <=? n)%nat && (n <=? 90)%nat)
     || ((192 <=? n)%nat && (n <=? 222)%nat && negb (n =? 215)%nat)
  then ascii_of_nat (n + 32) else c.

Fixpoint toLowerCase (s : string) : string :=
  match s with
  | EmptyString => EmptyString
  | String c r => String (lower_ascii c) (toLowerCase r)
  end.

Definition getUserByUsername (s : MemStorage) (username : string)
  : option User.t :=
  find (fun user =>
          String.eqb (toLowerCase (User.username user)) (toLowerCase username))
       (Map_values (users s)).

Definition createUser (s : MemStorage) (insertUser : InsertUser.t)
  : User.t * MemStorage :=
  let id := userIdCounter s in
  let user :=
    User.mk id (InsertUser.username insertUser) (InsertUser.password insertUser)
      (InsertUser.name insertUser) (InsertUser.isAdmin insertUser) in
  (user,
   mkStore (Map_set id user (users s)) (menuItems s) (orders s) (orderItems s)
     (incr id) (menuItemIdCounter s) (orderIdCounter s)
     (orderItemIdCounter s)).

(** *** Menu item methods *)

Definition getAllMenuItems (s : MemStorage) : list MenuItem.t :=
  Map_values (menuItems s).

Definition getMenuItemsByCategory (s : MemStorage) (category : string)
  : list MenuItem.t :=
  if String.eqb category "all" then getAllMenuItems s
  else filter (fun item => String.eqb (MenuItem.category item) category)
         (Map_values (menuItems s)).

Definition getMenuItem (s : MemStorage) (id : number) : option MenuItem.t :=
  Map_get id (menuItems s).

Definition createMenuItem (s : MemStorage) (menuItem : InsertMenuItem.t)
  : MenuItem.t * MemStorage :=
  let id := menuItemIdCounter s in
  let newMenuItem :=
    MenuItem.mk id (InsertMenuItem.name menuItem)
      (InsertMenuItem.description menuItem) (InsertMenuItem.price menuItem)
      (InsertMenuItem.imageUrl menuItem) (InsertMenuItem.category menuItem) in
  (newMenuItem,
   mkStore (users s) (Map_set id newMenuItem (menuItems s)) (orders s)
     (orderItems s) (userIdCounter s) (incr id) (orderIdCounter s)
     (orderItemIdCounter s)).

(** [{ ...existingMenuItem, ...menuItem }] *)
Definition merge_menuItem (existing : MenuItem.t) (p : PartialMenuItem.t)
  : MenuItem.t :=
  let pick {A} (o : option A) (d : A) := match o with Some x => x | None => d end in
  MenuItem.mk (MenuItem.id existing)
    (pick (PartialMenuItem.name p) (MenuItem.name existing))
    (pick (PartialMenuItem.description p) (MenuItem.description existing))
    (pick (PartialMenuItem.price p) (MenuItem.price existing))
    (pick (PartialMenuItem.imageUrl p) (MenuItem.imageUrl existing))
    (pick (PartialMenuItem.category p) (MenuItem.category existing)).

Definition updateMenuItem (s : MemStorage) (id : number)
    (menuItem : PartialMenuItem.t) : option MenuItem.t * MemStorage :=
  match Map_get id (menuItems s) with
  | None => (None, s)
  | Some existingMenuItem =>
      let updatedMenuItem := merge_menuItem existingMenuItem menuItem in
      (Some updatedMenuItem,
       mkStore (users s) (Map_set id updatedMenuItem (menuItems s)) (orders s)
         (orderItems s) (userIdCounter s) (menuItemIdCounter s)
         (orderIdCounter s) (orderItemIdCounter s))
  end.

Definition deleteMenuItem (s : MemStorage) (id : number) : bool * MemStorage :=
  let (b, m) := Map_delete id (menuItems s) in
  (b,
   mkStore (users s) m (orders s) (orderItems s) (userIdCounter s)
     (menuItemIdCounter s) (orderIdCounter s) (orderItemIdCounter s)).

(** *** Order methods *)

(** The loop [for (const item of items)] of [createOrder]: each item takes
    the next order-item id and the id of its order, whatever [orderId] it
    came with. *)
Fixpoint add_order_items (id : number) (items : list InsertOrderItem.t)
    (counter : number) (m : JsMap OrderItem.t)
  : number * JsMap OrderItem.t :=
  match items with
  | [] => (counter, m)
  | item :: rest =>
      let orderItemId := counter in
      let orderItem :=
        OrderItem.mk orderItemId id (InsertOrderItem.menuItemId item)
          (InsertOrderItem.name item) (InsertOrderItem.price item)
          (InsertOrderItem.quantity item) in
      add_order_items id rest (incr counter) (Map_set orderItemId orderItem m)
  end.

Definition createOrder (s : MemStorage) (now : Z) (order : InsertOrder.t)
    (items : list InsertOrderItem.t) : Order.t * MemStorage :=
  let id := orderIdCounter s in
  let createdAt := now in
  let newOrder :=
    Order.mk id (InsertOrder.userId order) (InsertOrder.customerName order)
      (InsertOrder.customerPhone order) (InsertOrder.orderType order)
      (InsertOrder.specialInstructions order) None
      (InsertOrder.subtotal order) (InsertOrder.tax order)
      (InsertOrder.total order) createdAt in
  let orders' := Map_set id newOrder (orders s) in
  let (counter', orderItems') :=
    add_order_items id items (orderItemIdCounter s) (orderItems s) in
  (newOrder,
   mkStore (users s) (menuItems s) orders' orderItems' (userIdCounter s)
     (menuItemIdCounter s) (incr id) counter').

(** [Array.prototype.sort(compareFn)].  The sort is stable (ECMAScript
    2019) and [compareFn(a, b) <= 0] keeps [a] before [b]; for a consistent
    comparator the result is the stable sorted arrangement, computed here
    by insertion. *)
Section ArraySort.
Context {A : Type} (compareFn : A -> A -> Z).

Fixpoint sort_insert (a : A) (l : list A) : list A :=
  match l with
  | [] => [a]
  | b :: r => if (compareFn a b <=? 0)%Z then a :: b :: r
              else b :: sort_insert a r
  end.

Fixpoint Array_sort (l : list A) : list A :=
  match l with
  | [] => []
  | a :: r => sort_insert a (Array_sort r)
  end.
End ArraySort.

(** [(a, b) => b.createdAt.getTime() - a.createdAt.getTime()] *)
Definition newest_first (a b : Order.t) : Z :=
  (Order.createdAt b - Order.createdAt a)%Z.

Definition getOrdersByUserId (s : MemStorage) (userId : number)
  : list Order.t :=
  Array_sort newest_first
    (filter (fun order => number_eqb (Order.userId order) userId)
       (Map_values (orders s))).

Definition getAllOrders (s : MemStorage) : list Order.t :=
  Array_sort newest_first (Map_values (orders s)).

Definition getOrderWithItems (s : MemStorage) (orderId : number)
  : option (Order.t * list OrderItem.t) :=
  match Map_get orderId (orders s) with
  | None => None
  | Some order =>
      let items :=
        filter (fun item => number_eqb (OrderItem.orderId item) orderId)
          (Map_values (orderItems s)) in
      Some (order, items)
  end.

(** [{ ...order, status }] *)
Definition with_status (order : Order.t) (status : string) : Order.t :=
  Order.mk (Order.id order) (Order.userId order) (Order.customerName order)
    (Order.customerPhone order) (Order.orderType order)
    (Order.specialInstructions order) (Some status) (Order.subtotal order)
    (Order.tax order) (Order.total order) (Order.createdAt order).

Definition updateOrderStatus (s : MemStorage) (orderId : number)
    (status : string) : option Order.t * MemStorage :=
  match Map_get orderId (orders s) with
  | None => (None, s)
  | Some order =>
      let updatedOrder := with_status order status in
      (Some updatedOrder,
       mkStore (users s) (menuItems s) (Map_set orderId updatedOrder (orders s))
         (orderItems s) (userIdCounter s) (menuItemIdCounter s)
         (orderIdCounter s) (orderItemIdCounter s))
  end.

(** *** Constructor and seed data *)

Definition seed_items : list InsertMenuItem.t :=
  [ InsertMenuItem.mk "Classic Cheeseburger"
      "Juicy beef patty with melted cheese, fresh vegetables, and our special sauce."
      (num 399)
      "https://images.unsplash.com/photo-1568901346375-23c9450c58cd?ixlib=rb-4.0.3&auto=format&fit=crop&w=800&h=500"
      "food";
    InsertMenuItem.mk "Veggie Pasta Salad"
      "Fresh pasta with mixed vegetables, herbs, and light vinaigrette dressing."
      (num 349)
      "https://images.unsplash.com/photo-1473093295043-cdd812d0e601?ixlib=rb-4.0.3&auto=format&fit=crop&w=800&h=500"
      "food";
    InsertMenuItem.mk "Crispy Chicken Sandwich"
      "Crispy fried chicken breast with lettuce, tomato, and mayo on a toasted bun."
      (num 369)
      "https://images.unsplash.com/photo-1606755962773-d324e0a13086?ixlib=rb-4.0.3&auto=format&fit=crop&w=800&h=500"
      "food";
    InsertMenuItem.mk "Berry Smoothie"
      "Refreshing blend of mixed berries, yogurt, and honey."
      (num 249)
      "https://images.unsplash.com/photo-1505252585461-04db1eb84625?ixlib=rb-4.0.3&auto=format&fit=crop&w=800&h=500"
      "juice";
    InsertMenuItem.mk "Fresh Orange Juice"
      "Freshly squeezed orange juice, no added sugar or preservatives."
      (num 199)
      "https://images.unsplash.com/photo-1600271886742-f049cd451bba?ixlib=rb-4.0.3&auto=format&fit=crop&w=800&h=500"
      "juice";
    InsertMenuItem.mk "Cafe Latte"
      "Espresso with steamed milk and a light layer of foam."
      (num 179)
      "https://images.unsplash.com/photo-1541167760496-1628856ab772?ixlib=rb-4.0.3&auto=format&fit=crop&w=800&h=500"
      "beverage";
    InsertMenuItem.mk "Hot Chocolate"
      "Rich and creamy hot chocolate topped with whipped cream."
      (num 159)
      "https://images.unsplash.com/photo-1542990253-0d0f5be5f0ed?ixlib=rb-4.0.3&auto=format&fit=crop&w=800&h=500"
      "beverage" ].

(** [menuItems.forEach(item => this.createMenuItem(item))] *)
Definition seedMenuItems (s : MemStorage) : MemStorage :=
  fold_left (fun st item => snd (createMenuItem st item)) seed_items s.

Definition admin_user : InsertUser.t :=
  InsertUser.mk "admin@milestar.com" "admin123" "Admin" (Some true).

(** [new MemStorage()] *)
Definition new_MemStorage : MemStorage :=
  let s0 := mkStore Map_new Map_new Map_new Map_new
              (num 1) (num 1) (num 1) (num 1) in
  seedMenuItems (snd (createUser s0 admin_user)).

(** ** JavaScript values of a request and exceptions *)

(** What [express.json()] leaves in [req.body], and what reading a
    property of it gives. *)
#[warnings="-register-all"]
Inductive value : Type :=
| VUndefined
| VNull
| VBool (b : bool)
| VNum (n : number)
| VStr (s : string)
| VArr (l : list value)
| VObj (fields : list (string * value)).

Fixpoint obj_get (k : string) (fields : list (string * value)) : value :=
  match fields with
  | [] => VUndefined
  | (k', v) :: r => if String.eqb k k' then v else obj_get k r
  end.

(** Assignment to key [k]: in place when the key exists, appended
    otherwise. *)
Fixpoint obj_set (k : string) (v : value) (fields : list (string * value))
  : list (string * value) :=
  match fields with
  | [] => [(k, v)]
  | (k', v') :: r =>
      if String.eqb k k' then (k, v) :: r else (k', v') :: obj_set k v r
  end.

(** [v.k] for the keys the routes read ([orderDetails], [cartItems],
    [status], [id], [name], [price], [quantity]): none of them is an index,
    [length] or a prototype property, so only objects have them. *)
Definition get_prop (v : value) (k : string) : value :=
  match v with
  | VObj fields => obj_get k fields
  | _ => VUndefined
  end.

Inductive exn : Type :=
| ZodError (errors : list string)   (* the paths of the offending fields *)
| TypeError.

Inductive result (A : Type) : Type :=
| Ok (a : A)
| Throw (e : exn).
Arguments Ok {A} a.
Arguments Throw {A} e.

Definition bind {A B : Type} (r : result A) (k : A -> result B) : result B :=
  match r with
  | Ok a => k a
  | Throw e => Throw e
  end.

Notation "x <- r ;; k" := (bind r (fun x => k))
  (at level 61, r at next level, right associativity).

Fixpoint mapM {A B : Type} (f : A -> result B) (l : list A) : result (list B) :=
  match l with
  | [] => Ok []
  | a :: r => b <- f a ;; bs <- mapM f r ;; Ok (b :: bs)
  end.

(** Property access and destructuring throw a [TypeError] on [undefined]
    and [null]. *)
Definition member (v : value) (k : string) : result value :=
  match v with
  | VUndefined | VNull => Throw TypeError
  | _ => Ok (get_prop v k)
  end.

(** [!!v] *)
Definition truthy (v : value) : bool :=
  match v with
  | VUndefined | VNull => false
  | VBool b => b
  | VNum n => negb (number_eqb n (num 0))
  | VStr s => negb (String.eqb s "")
  | VArr _ | VObj _ => true
  end.

(** [Array.isArray(v)], with the elements when it holds. *)
Definition as_array (v : value) : option (list value) :=
  match v with VArr l => Some l | _ => None end.

(** [typeof v === 'string'], with the string when it holds. *)
Definition typeof_string (v : value) : option string :=
  match v with VStr s => Some s | _ => None end.

Definition index_key (i : nat) : string :=
  NilEmpty.string_of_uint (Nat.to_uint i).

Fixpoint index_fields (i : nat) (l : list value) : list (string * value) :=
  match l with
  | [] => []
  | v :: r => (index_key i, v) :: index_fields (S i) r
  end.

Fixpoint chars (s : string) : list value :=
  match s with
  | EmptyString => []
  | String c r => VStr (String c EmptyString) :: chars r
  end.

(** [{ ...v }]: the own enumerable properties of [v]. *)
Definition spread (v : value) : list (string * value) :=
  match v with
  | VObj fields => fields
  | VArr l => index_fields 0 l
  | VStr s => index_fields 0 (chars s)
  | _ => []
  end.

(** ** The insert schemas ([createInsertSchema(...).pick(...)])

    drizzle-zod (0.7) derives an object schema from the table.  A [text]
    column is [z.string()].  An [integer] column is
    [z.number().min(INT32_MIN).max(INT32_MAX).int()] and a
    [doublePrecision] column [z.number().min(INT48_MIN).max(INT48_MAX)].
    A nullable column may also be [null] or absent.  Keys outside the
    schema are stripped.  A field that fails raises one issue per failed
    check, the fields taken in the order of the schema; of an issue the
    model keeps the path. *)

Definition INT32_MIN : Z := -2147483648.
Definition INT32_MAX : Z := 2147483647.
Definition INT48_MIN : Z := -140737488355328.
Definition INT48_MAX : Z := 140737488355327.

Definition z_string (v : value) : option string :=
  match v with VStr s => Some s | _ => None end.

(** [z.number()] *)
Definition z_number (v : value) : option number :=
  match v with VNum n => Some n | _ => None end.

(** [z.number().min(lo).max(hi)], with [.int()] when [int]. *)
Definition z_number_min_max (lo hi : Z) (int : bool) (v : value)
  : option number :=
  match z_number v with
  | Some n =>
      if number_leb (num lo) n && number_leb n (num hi)
         && (negb int || Number_isInteger n)
      then Some n else None
  | None => None
  end.

(** The issues of that schema: the type, or else each failed check in the
    order [min], [max], [int]. *)
Definition number_issues (lo hi : Z) (int : bool) (path : string) (v : value)
  : list string :=
  match z_number v with
  | Some n =>
      (if number_leb (num lo) n then [] else [path])
      ++ (if number_leb n (num hi) then [] else [path])
      ++ (if int && negb (Number_isInteger n) then [path] else [])
  | None => [path]
  end.

(** An [integer] column. *)
Definition z_integer : value -> option number :=
  z_number_min_max INT32_MIN INT32_MAX true.

Definition integer_issues : string -> value -> list string :=
  number_issues INT32_MIN INT32_MAX true.

(** A [doublePrecision] column. *)
Definition z_double : value -> option number :=
  z_number_min_max INT48_MIN INT48_MAX false.

Definition double_issues : string -> value -> list string :=
  number_issues INT48_MIN INT48_MAX false.

Definition z_opt_text (v : value) : option opt_text :=
  match v with
  | VUndefined => Some Absent
  | VNull => Some Null
  | VStr s => Some (Text s)
  | _ => None
  end.

Definition failed {A : Type} (path : string) (o : option A) : list string :=
  match o with Some _ => [] | None => [path] end.

Definition insertOrderSchema_parse (v : value) : result InsertOrder.t :=
  match v with
  | VObj _ =>
      let userId := z_integer (get_prop v "userId") in
      let customerName := z_string (get_prop v "customerName") in
      let customerPhone := z_string (get_prop v "customerPhone") in
      let orderType := z_string (get_prop v "orderType") in
      let specialInstructions := z_opt_text (get_prop v "specialInstructions") in
      let subtotal := z_double (get_prop v "subtotal") in
      let tax := z_double (get_prop v "tax") in
      let total := z_double (get_prop v "total") in
      match userId, customerName, customerPhone, orderType,
            specialInstructions, subtotal, tax, total with
      | Some a, Some b, Some c, Some d, Some e, Some f, Some g, Some h =>
          Ok (InsertOrder.mk a b c d e f g h)
      | _, _, _, _, _, _, _, _ =>
          Throw (ZodError
                   (integer_issues "userId" (get_prop v "userId")
                    ++ failed "customerName" customerName
                    ++ failed "customerPhone" customerPhone
                    ++ failed "orderType" orderType
                    ++ failed "specialInstructions" specialInstructions
                    ++ double_issues "subtotal" (get_prop v "subtotal")
                    ++ double_issues "tax" (get_prop v "tax")
                    ++ double_issues "total" (get_prop v "total")))
      end
  | _ => Throw (ZodError [""])
  end.

Definition insertOrderItemSchema_parse (v : value)
  : result InsertOrderItem.t :=
  match v with
  | VObj _ =>
      let orderId := z_integer (get_prop v "orderId") in
      let menuItemId := z_integer (get_prop v "menuItemId") in
      let name := z_string (get_prop v "name") in
      let price := z_double (get_prop v "price") in
      let quantity := z_integer (get_prop v "quantity") in
      match orderId, menuItemId, name, price, quantity with
      | Some a, Some b, Some c, Some d, Some e =>
          Ok (InsertOrderItem.mk a b c d e)
      | _, _, _, _, _ =>
          Throw (ZodError
                   (integer_issues "orderId" (get_prop v "orderId")
                    ++ integer_issues "menuItemId" (get_prop v "menuItemId")
                    ++ failed "name" name
                    ++ double_issues "price" (get_prop v "price")
                    ++ integer_issues "quantity" (get_prop v "quantity")))
      end
  | _ => Throw (ZodError [""])
  end.

(** ** [parseInt(string)]

    Leading white space is skipped, then an optional sign, then [0x] or
    [0X] selects radix 16, then the longest run of digits is read; no digit
    gives [NaN], here [None].  The white space and line terminators below
    256 are the code units 9 to 13, the space 32 and the no-break space
    160.  The number is the integer the digits denote: up to 2^53 that is
    what [parseInt] returns, beyond it [parseInt] rounds to a double, and
    no id of the store gets there. *)

Definition is_space (c : ascii) : bool :=
  let n := nat_of_ascii c in
  ((9 <=? n)%nat && (n <=? 13)%nat) || (n =? 32)%nat || (n =? 160)%nat.

Fixpoint trim_start (s : string) : string :=
  match s with
  | String c r => if is_space c then trim_start r else s
  | EmptyString => s
  end.

Definition digit_of (radix : Z) (c : ascii) : option Z :=
  let n := Z.of_nat (nat_of_ascii c) in
  let d :=
    if (48 <=? n)%Z && (n <=? 57)%Z then Some (n - 48)%Z
    else if (97 <=? n)%Z && (n <=? 122)%Z then Some (n - 87)%Z
    else if (65 <=? n)%Z && (n <=? 90)%Z then Some (n - 55)%Z
    else None in
  match d with
  | Some d => if (d <? radix)%Z then Some d else None
  | None => None
  end.

Fixpoint digits (radix : Z) (s : string) (acc : option Z) : option Z :=
  match s with
  | EmptyString => acc
  | String c r =>
      match digit_of radix c with
      | Some d =>
          let m := match acc with Some m => m | None => 0%Z end in
          digits radix r (Some (radix * m + d)%Z)
      | None => acc
      end
  end.

Definition parseInt (s : string) : option number :=
  let s1 := trim_start s in
  let (sign, s2) :=
    match s1 with
    | String "-" r => ((-1)%Z, r)
    | String "+" r => (1%Z, r)
    | _ => (1%Z, s1)
    end in
  let (radix, s3) :=
    match s2 with
    | String "0" (String "x" r) => (16%Z, r)
    | String "0" (String "X" r) => (16%Z, r)
    | _ => (10%Z, s2)
    end in
  match digits radix s3 None with
  | Some m => Some (num (sign * m))
  | None => None
  end.

(** ** The order routes of [registerRoutes] *)

(** [req.user] is set by the authentication layer exactly when
    [req.isAuthenticated()] holds. *)
Record Request : Type := mkReq
  { req_user : option User.t;
    req_params_id : string;
    req_body : value }.

Inductive ResBody : Type :=
| Message (message : string)
| MessageErrors (message : string) (errors : list string)
| JsonOrder (order : Order.t)
| JsonOrders (orders : list Order.t)
| JsonOrderWithItems (order : Order.t) (items : list OrderItem.t).

Record Response : Type := mkRes { res_status : Z; res_body : ResBody }.

(** Auth middleware: [next] is the handler, run with [req.user]. *)
Definition isAuthenticated (req : Request) (s : MemStorage)
    (next : User.t -> Response * MemStorage) : Response * MemStorage :=
  match req_user req with
  | Some user => next user
  | None => (mkRes 401 (Message "Unauthorized"), s)
  end.

Definition isAdmin (req : Request) (s : MemStorage)
    (next : User.t -> Response * MemStorage) : Response * MemStorage :=
  match req_user req with
  | Some user =>
      match User.isAdmin user with
      | Some true => next user
      | _ => (mkRes 403 (Message "Forbidden - Admin access required"), s)
      end
  | None => (mkRes 403 (Message "Forbidden - Admin access required"), s)
  end.

(** The argument of [insertOrderItemSchema.parse] in [cartItems.map]. *)
Definition cart_item_object (item : value) : result value :=
  id <- member item "id" ;;
  name <- member item "name" ;;
  price <- member item "price" ;;
  quantity <- member item "quantity" ;;
  Ok (VObj [("menuItemId", id); ("name", name); ("price", price);
            ("quantity", quantity); ("orderId", VNum (num 0))]).

(** The [try] block of [POST /api/orders].  The guard
    [!cartItems || !Array.isArray(cartItems) || cartItems.length === 0]
    is read as: not (truthy and an array), or an array of length 0.
    Nothing before [createOrder]
    writes to the store and [createOrder] does not throw: an exception
    leaves the store as it was. *)
Definition post_orders_try (s : MemStorage) (now : Z) (user : User.t)
    (body : value) : result (Response * MemStorage) :=
  orderDetails <- member body "orderDetails" ;;
  cartItems <- member body "cartItems" ;;
  match (if truthy cartItems then as_array cartItems else None) with
  | None => Ok (mkRes 400 (Message "Cart cannot be empty"), s)
  | Some cart =>
      if (List.length cart =? 0)%nat then
        Ok (mkRes 400 (Message "Cart cannot be empty"), s)
      else
        validatedOrderDetails <-
          insertOrderSchema_parse
            (VObj (obj_set "userId" (VNum (User.id user))
                     (spread orderDetails))) ;;
        orderItems <-
          mapM (fun item => o <- cart_item_object item ;;
                            insertOrderItemSchema_parse o)
            cart ;;
        let (order, s') := createOrder s now validatedOrderDetails orderItems in
        Ok (mkRes 201 (JsonOrder order), s')
  end.

Definition post_orders (s : MemStorage) (now : Z) (req : Request)
  : Response * MemStorage :=
  isAuthenticated req s (fun user =>
    match post_orders_try s now user (req_body req) with
    | Ok r => r
    | Throw (ZodError errors) =>
        (mkRes 400 (MessageErrors "Invalid order data" errors), s)
    | Throw TypeError => (mkRes 500 (Message "Error creating order"), s)
    end).

Definition statuses : list string := ["new"; "preparing"; "ready"; "completed"].

Definition includes (l : list string) (x : string) : bool :=
  existsb (String.eqb x) l.

(** The [try] block of [PATCH /api/orders/:id/status].  The guard
    [!status || typeof status !== 'string'] is read as: not (truthy and a
    string). *)
Definition patch_order_status_try (s : MemStorage) (req : Request)
  : result (Response * MemStorage) :=
  let id := parseInt (req_params_id req) in
  status <- member (req_body req) "status" ;;
  match id with
  | None => Ok (mkRes 400 (Message "Invalid ID"), s)
  | Some id =>
      match (if truthy status then typeof_string status else None) with
      | None => Ok (mkRes 400 (Message "Status is required"), s)
      | Some status =>
          if negb (includes statuses status) then
            Ok (mkRes 400 (Message "Invalid status"), s)
          else
            match updateOrderStatus s id status with
            | (None, s') => Ok (mkRes 404 (Message "Order not found"), s')
            | (Some updatedOrder, s') =>
                Ok (mkRes 200 (JsonOrder updatedOrder), s')
            end
      end
  end.

Definition patch_order_status (s : MemStorage) (req : Request)
  : Response * MemStorage :=
  isAdmin req s (fun _ =>
    match patch_order_status_try s req with
    | Ok r => r
    | Throw _ => (mkRes 500 (Message "Error updating order status"), s)
    end).

(** * Vocabulary of the properties *)

(** ** Calls, runs and reachable stores *)

(** The methods of [IStorage] that write to the store, with their
    arguments; the clock read by [createOrder] is an argument too. *)
Inductive call : Type :=
| CreateUser (insertUser : InsertUser.t)
| CreateMenuItem (menuItem : InsertMenuItem.t)
| UpdateMenuItem (id : number) (menuItem : PartialMenuItem.t)
| DeleteMenuItem (id : number)
| CreateOrder (now : Z) (order : InsertOrder.t) (items : list InsertOrderItem.t)
| UpdateOrderStatus (orderId : number) (status : string).

(** The store after a call. *)
Definition exec (s : MemStorage) (c : call) : MemStorage :=
  match c with
  | CreateUser insertUser => snd (createUser s insertUser)
  | CreateMenuItem menuItem => snd (createMenuItem s menuItem)
  | UpdateMenuItem id menuItem => snd (updateMenuItem s id menuItem)
  | DeleteMenuItem id => snd (deleteMenuItem s id)
  | CreateOrder now order items => snd (createOrder s now order items)
  | UpdateOrderStatus orderId status => snd (updateOrderStatus s orderId status)
  end.

(** The stores a program can see: the one the constructor builds, and the
    ones calls lead to from there. *)
Inductive reachable : MemStorage -> Prop :=
| reach_new : reachable new_MemStorage
| reach_call s c : reachable s -> reachable (exec s c).

(** The store before the constructor body has run. *)
Definition empty_store : MemStorage :=
  mkStore Map_new Map_new Map_new Map_new (num 1) (num 1) (num 1) (num 1).

(** The constructor is itself a sequence of calls on the empty store. *)
Definition constructor_calls : list call :=
  CreateUser admin_user :: map CreateMenuItem seed_items.

Definition run (s : MemStorage) (cs : list call) : MemStorage :=
  fold_left exec cs s.

(** Every key of [m] is below the counter [c]. *)
Definition keys_below {V : Type} (c : number) (m : JsMap V) : Prop :=
  Forall (fun kv => (fst kv < c)%Qc) m.

(** Counters are ahead of every key, and every order item belongs to an
    order id that has been handed out. *)
Record store_inv (s : MemStorage) : Prop := mkInv
  { inv_users : keys_below (userIdCounter s) (users s);
    inv_menuItems : keys_below (menuItemIdCounter s) (menuItems s);
    inv_orders : keys_below (orderIdCounter s) (orders s);
    inv_orderItems : keys_below (orderItemIdCounter s) (orderItems s);
    inv_owner :
      Forall (fun kv => (OrderItem.orderId (snd kv) < orderIdCounter s)%Qc)
        (orderItems s) }.

(** The order items [createOrder] builds from [items], in order. *)
Fixpoint stamped (id : number) (items : list InsertOrderItem.t)
    (counter : number) : list OrderItem.t :=
  match items with
  | [] => []
  | item :: rest =>
      OrderItem.mk counter id (InsertOrderItem.menuItemId item)
        (InsertOrderItem.name item) (InsertOrderItem.price item)
        (InsertOrderItem.quantity item)
      :: stamped id rest (incr counter)
  end.

Definition entries (l : list OrderItem.t) : JsMap OrderItem.t :=
  map (fun it => (OrderItem.id it, it)) l.

(** ** Orders and their items *)

(** The order item [it] carries the data of the cart line [item]. *)
Definition carries (it : OrderItem.t) (item : InsertOrderItem.t) : Prop :=
  OrderItem.menuItemId it = InsertOrderItem.menuItemId item
  /\ OrderItem.name it = InsertOrderItem.name item
  /\ OrderItem.price it = InsertOrderItem.price item
  /\ OrderItem.quantity it = InsertOrderItem.quantity item.

Definition sample_order : InsertOrder.t :=
  InsertOrder.mk (num 1) "A" "1234567890" "pickup" Absent
    (num 3) (num 0) (num 3).

Definition sample_item : InsertOrderItem.t :=
  InsertOrderItem.mk (num 0) (num 1) "Tea" (num 1) (num 3).

(** ** Requests *)

(** The request is accepted: the answer is [201]. *)
Definition accepted (s : MemStorage) (now : Z) (req : Request) : Prop :=
  res_status (fst (post_orders s now req)) = 201%Z.

(** A request whose [orderDetails] names another owner and whose totals do
    not add up. *)
Definition forged_details : value :=
  VObj [("userId", VNum (num 77)); ("customerName", VStr "A");
        ("customerPhone", VStr "1234567890"); ("orderType", VStr "pickup");
        ("subtotal", VNum (num 3)); ("tax", VNum (num 0));
        ("total", VNum (num 100))].

Definition tea_cart : value :=
  VArr [VObj [("id", VNum (num 1)); ("name", VStr "Tea");
              ("price", VNum (num 1)); ("quantity", VNum (num 2))]].

Definition customer : User.t := User.mk (num 2) "bob@example.com" "x" "Bob" None.

Definition forged_request : Request :=
  mkReq (Some customer) ""
    (VObj [("orderDetails", forged_details); ("cartItems", tea_cart)]).

(** The [cartItems] the guard of [POST /api/orders] turns down. *)
Definition cart_rejected (cartItems : value) : Prop :=
  cartItems = VUndefined            (* missing *)
  \/ as_array cartItems = None      (* not an array *)
  \/ cartItems = VArr [].           (* empty *)

Definition empty_cart_request : Request :=
  mkReq (Some customer) ""
    (VObj [("orderDetails", forged_details); ("cartItems", VArr [])]).

(** The subtotal the client computes for a cart
    ([cartItems.reduce((sum, item) => sum + item.price * item.quantity, 0)]
    in [use-cart.tsx]), here over the lines as they are stored. *)
Definition cartSubtotal (items : list OrderItem.t) : number :=
  fold_left
    (fun sum item =>
       js_add sum (js_mul (OrderItem.price item) (OrderItem.quantity item)))
    items (num 0).

(** ** Identifiers *)

(** The ids handed out, per entity type, in the order they were handed
    out. *)
Record assigned : Type := mkIds
  { user_ids : list number;
    menuItem_ids : list number;
    order_ids : list number;
    orderItem_ids : list number }.

(** The ids one call hands out in store [s]: the id of the entity a create
    method returns and, for [createOrder], the ids of the items that
    [getOrderWithItems] then lists for the new order. *)
Definition ids_of_call (s : MemStorage) (c : call) : assigned :=
  match c with
  | CreateUser insertUser =>
      mkIds [User.id (fst (createUser s insertUser))] [] [] []
  | CreateMenuItem menuItem =>
      mkIds [] [MenuItem.id (fst (createMenuItem s menuItem))] [] []
  | CreateOrder now order items =>
      let r := createOrder s now order items in
      mkIds [] [] [Order.id (fst r)]
        match getOrderWithItems (snd r) (Order.id (fst r)) with
        | Some (_, its) => map OrderItem.id its
        | None => []
        end
  | UpdateMenuItem _ _ | DeleteMenuItem _ | UpdateOrderStatus _ _ =>
      mkIds [] [] [] []
  end.

(** The ids handed out along a sequence of calls started in [s]. *)
Fixpoint history (s : MemStorage) (cs : list call) : assigned :=
  match cs with
  | [] => mkIds [] [] [] []
  | c :: rest =>
      let now := ids_of_call s c in
      let later := history (exec s c) rest in
      mkIds (user_ids now ++ user_ids later)
        (menuItem_ids now ++ menuItem_ids later)
        (order_ids now ++ order_ids later)
        (orderItem_ids now ++ orderItem_ids later)
  end.

Definition increasing (l : list number) : Prop := StronglySorted Qclt l.

(** Ids from [lo] on. *)
Definition all_from (lo : number) (l : list number) : Prop :=
  Forall (fun x => (lo <= x)%Qc) l.

(** Ids between the counter before ([lo]) and after ([hi]) a call. *)
Definition between (lo hi : number) (l : list number) : Prop :=
  Forall (fun x => (lo <= x)%Qc /\ (x < hi)%Qc) l.

(** ** Order status *)


Definition admin : User.t :=
  User.mk (num 1) "admin@milestar.com" "admin123" "Admin" (Some true).

(** The store after the first order. *)
Definition one_order_store : MemStorage :=
  exec new_MemStorage (CreateOrder 1000 sample_order [sample_item]).

Definition first_order : Order.t :=
  Order.mk (num 1) (num 1) "A" "1234567890" "pickup" Absent None
    (num 3) (num 0) (num 3) 1000.


(** Two orders that differ at most in [status]. *)
Definition same_but_status (a b : Order.t) : Prop :=
  Order.id a = Order.id b
  /\ Order.userId a = Order.userId b
  /\ Order.customerName a = Order.customerName b
  /\ Order.customerPhone a = Order.customerPhone b
  /\ Order.orderType a = Order.orderType b
  /\ Order.specialInstructions a = Order.specialInstructions b
  /\ Order.subtotal a = Order.subtotal b
  /\ Order.tax a = Order.tax b
  /\ Order.total a = Order.total b
  /\ Order.createdAt a = Order.createdAt b.

(** ** Listings *)

(** Newest first: an order is at least as recent as every order listed
    after it. *)
Definition newest_first_sorted (l : list Order.t) : Prop :=
  StronglySorted (fun a b => (Order.createdAt a >= Order.createdAt b)%Z) l.

(** ** User names *)

(** No two stored users have user names that [getUserByUsername] would
    not tell apart. *)
Definition usernames_unique (s : MemStorage) : Prop :=
  forall u1 u2,
    In u1 (Map_values (users s)) -> In u2 (Map_values (users s)) ->
    toLowerCase (User.username u1) = toLowerCase (User.username u2) ->
    u1 = u2.

(** The stores reached when every [createUser] is called in a store in
    which [getUserByUsername] answers not-found for the new name: the
    lookup and the creation see the same users, no user is created in
    between. *)
Inductive registered : MemStorage -> Prop :=
| reg_new : registered new_MemStorage
| reg_user s insertUser :
    registered s ->
    getUserByUsername s (InsertUser.username insertUser) = None ->
    registered (snd (createUser s insertUser))
| reg_call s c :
    registered s ->
    (forall insertUser, c <> CreateUser insertUser) ->
    registered (exec s c).

Definition bob : InsertUser.t := InsertUser.mk "Bob@example.com" "x" "Bob" None.

Definition bob_again : InsertUser.t :=
  InsertUser.mk "bob@Example.com" "y" "Robert" None.

(** The store after [bob] has been created. *)
Definition bob_store : MemStorage := snd (createUser new_MemStorage bob).

Definition bob_user : User.t :=
  User.mk (num 2) "Bob@example.com" "x" "Bob" None.

(** Two calls of [createUser] after the constructor. *)
Definition two_bobs_store : MemStorage :=
  run new_MemStorage [CreateUser bob; CreateUser bob_again].

(** * The rest of the store and of the routes *)

(** ** Well-formed stores *)

(** A key names one entry, and the entry stored under a key carries that
    key as its [id]. *)
Definition keys_unique {V : Type} (m : JsMap V) : Prop := NoDup (Map_keys m).

Definition keyed_by_id {V : Type} (id : V -> number) (m : JsMap V) : Prop :=
  Forall (fun kv => id (snd kv) = fst kv) m.

Record store_wf (s : MemStorage) : Prop := mkWf
  { wf_users : keys_unique (users s) /\ keyed_by_id User.id (users s);
    wf_menuItems :
      keys_unique (menuItems s) /\ keyed_by_id MenuItem.id (menuItems s);
    wf_orders : keys_unique (orders s) /\ keyed_by_id Order.id (orders s);
    wf_orderItems :
      keys_unique (orderItems s) /\ keyed_by_id OrderItem.id (orderItems s);
    wf_owner :
      Forall (fun kv => Map_get (OrderItem.orderId (snd kv)) (orders s) <> None)
        (orderItems s) }.

(** ** The menu routes of [registerRoutes] *)

(** [req.query.category]: absent, a string, or (a repeated or bracketed
    parameter) an array or object. *)
Inductive query_value : Type :=
| QUndefined
| QString (s : string)
| QOther.

Inductive MenuBody : Type :=
| MenuMessage (message : string)
| MenuMessageErrors (message : string) (errors : list string)
| JsonMenuItem (item : MenuItem.t)
| JsonMenuItems (items : list MenuItem.t)
| NoContent.

Record MenuResponse : Type := mkMenuRes { menu_status : Z; menu_body : MenuBody }.

(** [GET /api/menu]: [req.query.category as string || 'all'].  The cast
    is erased at run time: an array or object is truthy, is passed on as
    it is, equals neither ['all'] nor the category of any item under
    [===], and so selects nothing.  No store method throws: the [catch]
    is never entered. *)
Definition get_menu (s : MemStorage) (category : query_value) : MenuResponse :=
  match category with
  | QUndefined => mkMenuRes 200 (JsonMenuItems (getMenuItemsByCategory s "all"))
  | QString c =>
      let category := if String.eqb c "" then "all" else c in
      mkMenuRes 200 (JsonMenuItems (getMenuItemsByCategory s category))
  | QOther => mkMenuRes 200 (JsonMenuItems [])
  end.

(** [GET /api/menu/:id] *)
Definition get_menu_item (s : MemStorage) (id_param : string) : MenuResponse :=
  match parseInt id_param with
  | None => mkMenuRes 400 (MenuMessage "Invalid ID")
  | Some id =>
      match getMenuItem s id with
      | None => mkMenuRes 404 (MenuMessage "Menu item not found")
      | Some menuItem => mkMenuRes 200 (JsonMenuItem menuItem)
      end
  end.

(** The middleware [isAdmin] in front of a menu route. *)
Definition isAdmin_menu (req : Request) (s : MemStorage)
    (next : User.t -> MenuResponse * MemStorage) : MenuResponse * MemStorage :=
  match req_user req with
  | Some user =>
      match User.isAdmin user with
      | Some true => next user
      | _ => (mkMenuRes 403 (MenuMessage "Forbidden - Admin access required"), s)
      end
  | None => (mkMenuRes 403 (MenuMessage "Forbidden - Admin access required"), s)
  end.

Definition insertMenuItemSchema_parse (v : value) : result InsertMenuItem.t :=
  match v with
  | VObj _ =>
      let name := z_string (get_prop v "name") in
      let description := z_string (get_prop v "description") in
      let price := z_double (get_prop v "price") in
      let imageUrl := z_string (get_prop v "imageUrl") in
      let category := z_string (get_prop v "category") in
      match name, description, price, imageUrl, category with
      | Some a, Some b, Some c, Some d, Some e =>
          Ok (InsertMenuItem.mk a b c d e)
      | _, _, _, _, _ =>
          Throw (ZodError
                   (failed "name" name ++ failed "description" description
                    ++ double_issues "price" (get_prop v "price")
                    ++ failed "imageUrl" imageUrl
                    ++ failed "category" category))
      end
  | _ => Throw (ZodError [""])
  end.

(** A field of a [.partial()] schema: absent, or of the field's type. *)
Definition z_optional {A : Type} (z : value -> option A) (v : value)
  : option (option A) :=
  match v with
  | VUndefined => Some None
  | _ => match z v with Some a => Some (Some a) | None => None end
  end.

(** The issues of such a field. *)
Definition optional_issues (issues : value -> list string) (v : value)
  : list string :=
  match v with VUndefined => [] | _ => issues v end.

(** [insertMenuItemSchema.partial().parse] *)
Definition insertMenuItemSchema_partial_parse (v : value)
  : result PartialMenuItem.t :=
  match v with
  | VObj _ =>
      let name := z_optional z_string (get_prop v "name") in
      let description := z_optional z_string (get_prop v "description") in
      let price := z_optional z_double (get_prop v "price") in
      let imageUrl := z_optional z_string (get_prop v "imageUrl") in
      let category := z_optional z_string (get_prop v "category") in
      match name, description, price, imageUrl, category with
      | Some a, Some b, Some c, Some d, Some e =>
          Ok (PartialMenuItem.mk a b c d e)
      | _, _, _, _, _ =>
          Throw (ZodError
                   (failed "name" name ++ failed "description" description
                    ++ optional_issues (double_issues "price")
                         (get_prop v "price")
                    ++ failed "imageUrl" imageUrl
                    ++ failed "category" category))
      end
  | _ => Throw (ZodError [""])
  end.

(** [POST /api/menu] *)
Definition post_menu (s : MemStorage) (req : Request)
  : MenuResponse * MemStorage :=
  isAdmin_menu req s (fun _ =>
    match insertMenuItemSchema_parse (req_body req) with
    | Ok validatedData =>
        let (menuItem, s') := createMenuItem s validatedData in
        (mkMenuRes 201 (JsonMenuItem menuItem), s')
    | Throw (ZodError errors) =>
        (mkMenuRes 400 (MenuMessageErrors "Invalid menu item data" errors), s)
    | Throw TypeError => (mkMenuRes 500 (MenuMessage "Error creating menu item"), s)
    end).

(** [PUT /api/menu/:id] *)
Definition put_menu (s : MemStorage) (req : Request)
  : MenuResponse * MemStorage :=
  isAdmin_menu req s (fun _ =>
    match parseInt (req_params_id req) with
    | None => (mkMenuRes 400 (MenuMessage "Invalid ID"), s)
    | Some id =>
        match insertMenuItemSchema_partial_parse (req_body req) with
        | Ok validatedData =>
            match updateMenuItem s id validatedData with
            | (None, s') =>
                (mkMenuRes 404 (MenuMessage "Menu item not found"), s')
            | (Some updatedItem, s') =>
                (mkMenuRes 200 (JsonMenuItem updatedItem), s')
            end
        | Throw (ZodError errors) =>
            (mkMenuRes 400 (MenuMessageErrors "Invalid menu item data" errors), s)
        | Throw TypeError =>
            (mkMenuRes 500 (MenuMessage "Error updating menu item"), s)
        end
    end).

(** [DELETE /api/menu/:id] *)
Definition delete_menu (s : MemStorage) (req : Request)
  : MenuResponse * MemStorage :=
  isAdmin_menu req s (fun _ =>
    match parseInt (req_params_id req) with
    | None => (mkMenuRes 400 (MenuMessage "Invalid ID"), s)
    | Some id =>
        match deleteMenuItem s id with
        | (false, s') => (mkMenuRes 404 (MenuMessage "Menu item not found"), s')
        | (true, s') => (mkMenuRes 204 NoContent, s')
        end
    end).

(** ** The order reading routes *)

(** [req.user.isAdmin] as a condition. *)
Definition is_admin (user : User.t) : bool :=
  match User.isAdmin user with Some true => true | _ => false end.

(** [GET /api/orders] *)
Definition get_orders (s : MemStorage) (req : Request) : Response * MemStorage :=
  isAuthenticated req s (fun user =>
    let orders :=
      if is_admin user then getAllOrders s
      else getOrdersByUserId s (User.id user) in
    (mkRes 200 (JsonOrders orders), s)).

(** [GET /api/orders/:id] *)
Definition get_order (s : MemStorage) (req : Request) : Response * MemStorage :=
  isAuthenticated req s (fun user =>
    match parseInt (req_params_id req) with
    | None => (mkRes 400 (Message "Invalid ID"), s)
    | Some id =>
        match getOrderWithItems s id with
        | None => (mkRes 404 (Message "Order not found"), s)
        | Some (order, items) =>
            if negb (is_admin user)
               && negb (number_eqb (Order.userId order) (User.id user))
            then (mkRes 403 (Message "Access denied"), s)
            else (mkRes 200 (JsonOrderWithItems order items), s)
        end
    end).

(** ** Sample inputs *)

Definition tea : InsertMenuItem.t :=
  InsertMenuItem.mk "Tea" "d" (Q2Qc (3 # 2)) "u" "beverage".

(** A price change only. *)
Definition cheaper : PartialMenuItem.t :=
  PartialMenuItem.mk None None (Some (num 99)) None None.

(** ** Ids in a path *)

(** The decimal digits of a natural number: what a template literal such
    as [`/api/orders/${id}`] writes for an id. *)
Definition decimal (n : nat) : string :=
  NilEmpty.string_of_uint (Nat.to_uint n).

(** [rest] does not go on with a decimal digit, nor with [x] or [X]. *)
Definition stops (rest : string) : Prop :=
  match rest with
  | EmptyString => True
  | String c _ => digit_of 10 c = None /\ c <> "x"%char /\ c <> "X"%char
  end.

(** The request [req] for the path parameter [id]. *)
Definition with_id (req : Request) (id : string) : Request :=
  mkReq (req_user req) id (req_body req).

(** The counters hold natural numbers. *)
Definition is_id (x : number) : Prop := exists n : nat, x = num (Z.of_nat n).

Definition counters_nat (s : MemStorage) : Prop :=
  is_id (userIdCounter s) /\ is_id (menuItemIdCounter s)
  /\ is_id (orderIdCounter s) /\ is_id (orderItemIdCounter s).

(** ** Sample requests *)

Definition other_customer : User.t :=
  User.mk (num 3) "eve@example.com" "x" "Eve" (Some false).

(** The store after [customer] has placed [forged_request]. *)
Definition placed_store : MemStorage :=
  snd (post_orders new_MemStorage 1000 forged_request).

Definition read_order (user : User.t) (id : string) : Request :=
  mkReq (Some user) id VUndefined.

(** A menu request by [user] for the item [id] with [body]. *)
Definition menu_request (user : option User.t) (id : string) (body : value)
  : Request :=
  mkReq user id body.

(** The body of a new item; the [id] key is not part of the schema. *)
Definition tea_body : value :=
  VObj [("id", VNum (num 999)); ("name", VStr "Tea"); ("description", VStr "d");
        ("price", VNum (Q2Qc (3 # 2))); ("imageUrl", VStr "u");
        ("category", VStr "beverage")].

(** The part of the store the menu routes do not write to. *)
Definition outside_menu (s : MemStorage)
  : JsMap User.t * JsMap Order.t * JsMap OrderItem.t * number * number * number :=
  (users s, orders s, orderItems s, userIdCounter s, orderIdCounter s,
   orderItemIdCounter s).

(** The keys of [insertMenuItemSchema]. *)
Definition menu_keys : list string :=
  ["name"; "description"; "price"; "imageUrl"; "category"].

(** The order [o], with [status] when it is the order [id]. *)
Definition restatus (id : number) (status : string) (o : Order.t) : Order.t :=
  if number_eqb (Order.id o) id then with_status o status else o.

(** Created one after the other, each at a later time than the one
    before. *)
Definition clock_advanced (l : list Order.t) : Prop :=
  StronglySorted (fun a b => (Order.createdAt a < Order.createdAt b)%Z) l.

(** ** The cart of the client ([use-cart.tsx]) *)

(** [type CartItem].  A line made by [addToCart] is a copy of a menu item
    with a [quantity]; of that copy the cart and the server read the
    properties declared here and no others. *)
Module CartItem.
Record t : Type := mk
  { id : number; name : string; price : number; quantity : number;
    imageUrl : option string }.
End CartItem.

(** [arr.findIndex(p)]; [None] is [-1]. *)
Fixpoint findIndex {A : Type} (p : A -> bool) (l : list A) : option nat :=
  match l with
  | [] => None
  | a :: r => if p a then Some 0%nat else option_map S (findIndex p r)
  end.

(** [arr[i] = x] on a copy of [arr], for an index inside the array (the
    cart only assigns at an index that [findIndex] returned). *)
Fixpoint set_index {A : Type} (i : nat) (x : A) (l : list A) : list A :=
  match l, i with
  | [], _ => []
  | _ :: r, O => x :: r
  | a :: r, S i' => a :: set_index i' x r
  end.

(** The quantities of a cart are made by [addToCart] and by the [+] and
    [-] buttons: whole numbers, whose sums are exact.  The prices are
    arbitrary doubles: the totals round. *)
Module Cart.

(** The literal [0.07]: the double nearest to 7/100. *)
Definition TAX_RATE : number := fl (Q2Qc (7 # 100)).

(** [{ ...item, quantity }] *)
Definition with_quantity (item : CartItem.t) (quantity : number) : CartItem.t :=
  CartItem.mk (CartItem.id item) (CartItem.name item) (CartItem.price item)
    quantity (CartItem.imageUrl item).

Definition cartSubtotal (cartItems : list CartItem.t) : number :=
  fold_left
    (fun sum item =>
       js_add sum (js_mul (CartItem.price item) (CartItem.quantity item)))
    cartItems (num 0).

Definition cartTax (cartItems : list CartItem.t) : number :=
  js_mul (cartSubtotal cartItems) TAX_RATE.

Definition cartTotal (cartItems : list CartItem.t) : number :=
  js_add (cartSubtotal cartItems) (cartTax cartItems).


(** The updater of [addToCart(item)], from the previous cart to the next. *)
Definition addToCart (item : MenuItem.t) (prevItems : list CartItem.t)
  : list CartItem.t :=
  match findIndex (fun cartItem =>
                     number_eqb (CartItem.id cartItem) (MenuItem.id item))
          prevItems with
  | Some existingItemIndex =>
      match nth_error prevItems existingItemIndex with
      | Some existing =>
          set_index existingItemIndex
            (with_quantity existing (CartItem.quantity existing + num 1)%Qc)
            prevItems
      | None => prevItems
      end
  | None =>
      prevItems
      ++ [CartItem.mk (MenuItem.id item) (MenuItem.name item)
            (MenuItem.price item) (num 1) (Some (MenuItem.imageUrl item))]
  end.

(** The updater of [removeFromCart(itemId)]. *)
Definition removeFromCart (itemId : number) (prevItems : list CartItem.t)
  : list CartItem.t :=
  match find (fun item => number_eqb (CartItem.id item) itemId) prevItems with
  | None => prevItems
  | Some _ =>
      filter (fun item => negb (number_eqb (CartItem.id item) itemId)) prevItems
  end.

(** [updateQuantity(itemId, quantity)] *)
Definition updateQuantity (itemId quantity : number)
    (prevItems : list CartItem.t) : list CartItem.t :=
  if number_leb quantity (num 0) then removeFromCart itemId prevItems
  else
    map (fun item =>
           if number_eqb (CartItem.id item) itemId
           then with_quantity item quantity else item)
      prevItems.

Definition clearCart (prevItems : list CartItem.t) : list CartItem.t := [].

End Cart.

(** ** Placing the order ([order-page.tsx]) *)

(** [OrderDetailsFormData], as the form hands it to [onSubmit]. *)
Record FormData : Type := mkForm
  { form_customerName : string;
    form_customerPhone : string;
    form_specialInstructions : option string;
    form_orderType : string }.

(** A key that [JSON.stringify] writes only when the value is defined. *)
Definition optional_key (k : string) (o : option string)
  : list (string * value) :=
  match o with Some s => [(k, VStr s)] | None => [] end.

(** A cart line as the server receives it. *)
Definition cart_item_json (item : CartItem.t) : value :=
  VObj ([("id", VNum (CartItem.id item)); ("name", VStr (CartItem.name item));
         ("price", VNum (CartItem.price item))]
        ++ optional_key "imageUrl" (CartItem.imageUrl item)
        ++ [("quantity", VNum (CartItem.quantity item))]).

(** [orderData] of the mutation, as the server receives it. *)
Definition orderData (data : FormData) (cartItems : list CartItem.t) : value :=
  VObj [("orderDetails",
         VObj ([("customerName", VStr (form_customerName data));
                ("customerPhone", VStr (form_customerPhone data))]
               ++ optional_key "specialInstructions"
                    (form_specialInstructions data)
               ++ [("orderType", VStr (form_orderType data));
                   ("subtotal", VNum (Cart.cartSubtotal cartItems));
                   ("tax", VNum (Cart.cartTax cartItems));
                   ("total", VNum (Cart.cartTotal cartItems))]));
        ("cartItems", VArr (map cart_item_json cartItems))].

(** The body the mutation sends; with an empty cart it throws
    [Your cart is empty] and sends nothing ([None]). *)
Definition place_order (data : FormData) (cartItems : list CartItem.t)
  : option value :=
  if (List.length cartItems =? 0)%nat then None
  else Some (orderData data cartItems).

(** The order line the server makes of a cart line. *)
Definition line_of (item : CartItem.t) : InsertOrderItem.t :=
  InsertOrderItem.mk (num 0) (CartItem.id item) (CartItem.name item)
    (CartItem.price item) (CartItem.quantity item).

(** Sample cart. *)
Definition tea_item : MenuItem.t :=
  MenuItem.mk (num 8) "Tea" "d" (Q2Qc (3 # 2)) "u" "beverage".

Definition tea_line : CartItem.t :=
  CartItem.mk (num 8) "Tea" (Q2Qc (3 # 2)) (num 2) (Some "u").

Definition latte_line : CartItem.t :=
  CartItem.mk (num 6) "Cafe Latte" (num 179) (num 1) None.

Definition sample_form : FormData :=
  mkForm "A" "1234567890" (Some "") "pickup".



(** Every cart line is for a different menu item. *)
Definition lines_distinct (cart : list CartItem.t) : Prop :=
  NoDup (map CartItem.id cart).

(** The line is for another menu item than [itemId]. *)
Definition other_line (itemId : number) (line : CartItem.t) : bool :=
  negb (number_eqb (CartItem.id line) itemId).

(** The stored order item [it] is the cart line [line]. *)
Definition is_line (it : OrderItem.t) (line : CartItem.t) : Prop :=
  OrderItem.menuItemId it = CartItem.id line
  /\ OrderItem.name it = CartItem.name line
  /\ OrderItem.price it = CartItem.price line
  /\ OrderItem.quantity it = CartItem.quantity line.

(** [specialInstructions] of the form as the order stores it. *)
Definition instructions (data : FormData) : opt_text :=
  match form_specialInstructions data with
  | Some text => Text text
  | None => Absent
  end.

(** ** What [POST /api/orders] accepts *)

(** A number an [integer] column takes. *)
Definition int32 (n : number) : Prop :=
  (num INT32_MIN <= n)%Qc /\ (n <= num INT32_MAX)%Qc
  /\ Number_isInteger n = true.

(** A number a [doublePrecision] column takes. *)
Definition double48 (n : number) : Prop :=
  (num INT48_MIN <= n)%Qc /\ (n <= num INT48_MAX)%Qc.





(** A line of the client's cart that the item schema accepts. *)
Definition line_ok (line : CartItem.t) : Prop :=
  int32 (CartItem.id line) /\ double48 (CartItem.price line)
  /\ int32 (CartItem.quantity line).

(** A cart whose lines and totals the schemas accept. *)
Definition cart_ok (cart : list CartItem.t) : Prop :=
  Forall line_ok cart
  /\ double48 (Cart.cartSubtotal cart) /\ double48 (Cart.cartTax cart)
  /\ double48 (Cart.cartTotal cart).




(** * Properties *)

(** ** Numbers *)

Lemma incr_lt (c : number) : (c < incr c)%Qc.
Proof.
  unfold incr, num, Qclt, Qcplus, Q2Qc; cbn [this].
  rewrite Qred_correct, Qred_correct.
  destruct c as [q Hq]; cbn [this]. unfold inject_Z. lra.
Qed.

Lemma lt_incr (x c : number) : (x < c)%Qc -> (x < incr c)%Qc.
Proof. intros H. exact (Qclt_trans _ _ _ H (incr_lt c)). Qed.

Lemma lt_irrefl (x : number) : ~ (x < x)%Qc.
Proof. intros H. exact (Qclt_not_eq _ _ H eq_refl). Qed.

Lemma number_eqb_eq (x y : number) : number_eqb x y = true <-> x = y.
Proof.
  unfold number_eqb. destruct (number_eq_dec x y); split; congruence.
Qed.

Lemma number_eqb_refl (x : number) : number_eqb x x = true.
Proof. now apply number_eqb_eq. Qed.

Lemma number_eqb_neq (x y : number) : x <> y -> number_eqb x y = false.
Proof.
  unfold number_eqb. destruct (number_eq_dec x y); congruence.
Qed.

(** ** JavaScript maps *)

Section JsMapFacts.
Context {V : Type}.
Implicit Types (m : JsMap V) (k : number) (v : V).

Lemma Map_get_set_same k v m : Map_get k (Map_set k v m) = Some v.
Proof.
  induction m as [|[k' v'] m IH]; simpl.
  - destruct (number_eq_dec k k); congruence.
  - destruct (number_eq_dec k k') as [->|Hne]; simpl.
    + destruct (number_eq_dec k' k'); congruence.
    + destruct (number_eq_dec k k'); congruence.
Qed.

Lemma Map_get_set_other k k' v m :
  k' <> k -> Map_get k' (Map_set k v m) = Map_get k' m.
Proof.
  intros Hne. induction m as [|[k0 v0] m IH]; simpl.
  - destruct (number_eq_dec k' k); congruence.
  - destruct (number_eq_dec k k0) as [->|Hk]; simpl.
    + destruct (number_eq_dec k' k0); congruence.
    + destruct (number_eq_dec k' k0); congruence.
Qed.

Lemma keys_below_get_None c m : keys_below c m -> Map_get c m = None.
Proof.
  induction 1 as [|[k v] m Hk _ IH]; simpl; [reflexivity|].
  destruct (number_eq_dec c k) as [->|_]; [|exact IH].
  exfalso. exact (lt_irrefl _ Hk).
Qed.

Lemma Map_set_absent k v m : Map_get k m = None -> Map_set k v m = m ++ [(k, v)].
Proof.
  induction m as [|[k' v'] m IH]; simpl; [reflexivity|].
  destruct (number_eq_dec k k'); [discriminate|].
  intros H. now rewrite IH.
Qed.

Lemma keys_below_incr c m : keys_below c m -> keys_below (incr c) m.
Proof.
  unfold keys_below. intros H. eapply Forall_impl; [|exact H].
  intros kv. apply lt_incr.
Qed.

Lemma keys_below_set c v m : keys_below c m -> keys_below (incr c) (Map_set c v m).
Proof.
  intros H. rewrite Map_set_absent by now apply keys_below_get_None.
  apply Forall_app. split; [now apply keys_below_incr|].
  constructor; [apply incr_lt|constructor].
Qed.

Lemma keys_below_update c k v m :
  keys_below c m -> Map_get k m <> None -> keys_below c (Map_set k v m).
Proof.
  induction 1 as [|[k' v'] m Hk Hm IH]; simpl; [congruence|].
  destruct (number_eq_dec k k') as [->|Hne]; intros Hget.
  - constructor; assumption.
  - constructor; [assumption|]. now apply IH.
Qed.

Lemma keys_below_delete c k m : keys_below c m -> keys_below c (snd (Map_delete k m)).
Proof.
  induction 1 as [|[k' v'] m Hk Hm IH]; simpl; [constructor|].
  destruct (number_eq_dec k k'); [exact Hm|].
  destruct (Map_delete k m) as [b r]. simpl in *. constructor; assumption.
Qed.
End JsMapFacts.

(** ** The calls that write to the store, and the states they reach *)

Lemma run_seed (l : list InsertMenuItem.t) : forall s,
  run s (map CreateMenuItem l)
  = fold_left (fun st item => snd (createMenuItem st item)) l s.
Proof. induction l as [|x l IH]; intros s; [reflexivity|apply IH]. Qed.

Lemma new_MemStorage_run : new_MemStorage = run empty_store constructor_calls.
Proof.
  unfold new_MemStorage, seedMenuItems, constructor_calls.
  change (run empty_store (CreateUser admin_user :: map CreateMenuItem seed_items))
    with (run (exec empty_store (CreateUser admin_user))
            (map CreateMenuItem seed_items)).
  now rewrite run_seed.
Qed.

Lemma add_order_items_snd id items :
  forall counter m,
    keys_below counter m ->
    snd (add_order_items id items counter m)
    = m ++ entries (stamped id items counter).
Proof.
  induction items as [|item rest IH]; intros counter m Hm; simpl.
  - now rewrite app_nil_r.
  - rewrite (Map_set_absent counter) by now apply keys_below_get_None.
    rewrite IH.
    + now rewrite <- app_assoc.
    + rewrite <- (Map_set_absent counter) by now apply keys_below_get_None.
      now apply keys_below_set.
Qed.

Lemma add_order_items_below id items :
  forall counter m,
    keys_below counter m ->
    keys_below (fst (add_order_items id items counter m))
      (snd (add_order_items id items counter m)).
Proof.
  induction items as [|item rest IH]; intros counter m Hm; simpl.
  - exact Hm.
  - apply IH. now apply keys_below_set.
Qed.

Lemma add_order_items_mono id items :
  forall counter m,
    (counter <= fst (add_order_items id items counter m))%Qc.
Proof.
  induction items as [|item rest IH]; intros counter m; simpl.
  - apply Qcle_refl.
  - eapply Qcle_trans; [apply Qclt_le_weak, incr_lt|apply IH].
Qed.

Lemma stamped_length id items : forall counter,
  List.length (stamped id items counter) = List.length items.
Proof. induction items; intros; simpl; congruence. Qed.

Lemma stamped_owner id items : forall counter,
  Forall (fun it => OrderItem.orderId it = id) (stamped id items counter).
Proof. induction items; intros; simpl; constructor; auto. Qed.

Lemma stamped_copy id items : forall counter,
  Forall2 (fun it item =>
             OrderItem.menuItemId it = InsertOrderItem.menuItemId item
             /\ OrderItem.name it = InsertOrderItem.name item
             /\ OrderItem.price it = InsertOrderItem.price item
             /\ OrderItem.quantity it = InsertOrderItem.quantity item)
    (stamped id items counter) items.
Proof. induction items; intros; simpl; constructor; auto. Qed.

(** The ids of the stamped items lie between the old and the new counter
    and increase strictly. *)
Lemma stamped_ids_range id items :
  forall counter m,
    Forall (fun it => (counter <= OrderItem.id it)%Qc
                      /\ (OrderItem.id it
                          < fst (add_order_items id items counter m))%Qc)
      (stamped id items counter).
Proof.
  induction items as [|item rest IH]; intros counter m; simpl; constructor.
  - cbn [OrderItem.id]. split; [apply Qcle_refl|].
    eapply Qclt_le_trans; [apply incr_lt|apply add_order_items_mono].
  - eapply Forall_impl; [|apply IH]. intros it [H1 H2]. split; [|exact H2].
    eapply Qcle_trans; [apply Qclt_le_weak, incr_lt|exact H1].
Qed.

Lemma stamped_ids_sorted id items :
  forall counter,
    StronglySorted Qclt (map OrderItem.id (stamped id items counter)).
Proof.
  induction items as [|item rest IH]; intros counter; simpl; constructor.
  - apply IH.
  - apply Forall_map.
    eapply Forall_impl;
      [|apply (stamped_ids_range id rest (incr counter) [])].
    intros it [H _]. cbn [OrderItem.id].
    eapply Qclt_le_trans; [apply incr_lt|exact H].
Qed.

(** [createOrder] with the pair of the loop named by its projections. *)
Lemma createOrder_eq s now order items :
  createOrder s now order items
  = let id := orderIdCounter s in
    let newOrder :=
      Order.mk id (InsertOrder.userId order) (InsertOrder.customerName order)
        (InsertOrder.customerPhone order) (InsertOrder.orderType order)
        (InsertOrder.specialInstructions order) None
        (InsertOrder.subtotal order) (InsertOrder.tax order)
        (InsertOrder.total order) now in
    let r := add_order_items id items (orderItemIdCounter s) (orderItems s) in
    (newOrder,
     mkStore (users s) (menuItems s) (Map_set id newOrder (orders s)) (snd r)
       (userIdCounter s) (menuItemIdCounter s) (incr id) (fst r)).
Proof.
  unfold createOrder.
  destruct (add_order_items (orderIdCounter s) items (orderItemIdCounter s)
              (orderItems s)); reflexivity.
Qed.

Lemma store_inv_empty : store_inv empty_store.
Proof. constructor; constructor. Qed.

Lemma exec_inv s c : store_inv s -> store_inv (exec s c).
Proof.
  intros [Hu Hm Ho Hi Hw]. destruct c as [u|mi|id p|id|now o items|id st]; simpl.
  - constructor; simpl; auto. now apply keys_below_set.
  - constructor; simpl; auto. now apply keys_below_set.
  - unfold updateMenuItem. destruct (Map_get id (menuItems s)) eqn:E; simpl.
    + constructor; simpl; auto. apply keys_below_update; congruence.
    + now constructor.
  - unfold deleteMenuItem.
    pose proof (keys_below_delete _ id _ Hm) as Hd.
    destruct (Map_delete id (menuItems s)) as [b r]. simpl in *.
    now constructor.
  - rewrite createOrder_eq. cbv zeta. constructor; cbn [snd users menuItems orders
      orderItems userIdCounter menuItemIdCounter orderIdCounter
      orderItemIdCounter]; auto.
    + now apply keys_below_set.
    + now apply add_order_items_below.
    + rewrite add_order_items_snd by assumption.
      apply Forall_app. split.
      * eapply Forall_impl; [|exact Hw]. intros kv. apply lt_incr.
      * unfold entries. apply Forall_map.
        eapply Forall_impl; [|apply stamped_owner].
        intros it Hit. cbn [snd]. rewrite Hit. apply incr_lt.
  - unfold updateOrderStatus. destruct (Map_get id (orders s)) eqn:E; simpl.
    + constructor; simpl; auto. apply keys_below_update; congruence.
    + now constructor.
Qed.

Lemma run_inv cs : forall s, store_inv s -> store_inv (run s cs).
Proof.
  induction cs as [|c cs IH]; intros s Hs; [exact Hs|].
  apply IH. now apply exec_inv.
Qed.

Lemma new_MemStorage_inv : store_inv new_MemStorage.
Proof. rewrite new_MemStorage_run. apply run_inv, store_inv_empty. Qed.

Lemma reachable_inv s : reachable s -> store_inv s.
Proof.
  induction 1 as [|s c _ IH]; [apply new_MemStorage_inv|now apply exec_inv].
Qed.

Lemma reachable_run cs : forall s, reachable s -> reachable (run s cs).
Proof.
  induction cs as [|c cs IH]; intros s Hs; [exact Hs|].
  apply IH. now constructor.
Qed.

(** What [getOrderWithItems] finds right after [createOrder]: the new order
    and the items built by the loop, nothing else. *)
Lemma getOrderWithItems_createOrder s now order items :
  store_inv s ->
  let r := createOrder s now order items in
  getOrderWithItems (snd r) (Order.id (fst r))
  = Some (fst r, stamped (orderIdCounter s) items (orderItemIdCounter s)).
Proof.
  intros [Hu Hm Ho Hi Hw]. rewrite createOrder_eq. cbv zeta.
  cbn [fst snd Order.id]. unfold getOrderWithItems.
  cbn [orders orderItems]. rewrite Map_get_set_same. f_equal. f_equal.
  rewrite add_order_items_snd by assumption.
  unfold Map_values. rewrite map_app, filter_app.
  assert (Hold : filter (fun item => number_eqb (OrderItem.orderId item)
                                      (orderIdCounter s))
                   (map snd (orderItems s)) = []).
  { clear Hi. induction Hw as [|kv m Hk _ IH]; simpl; [reflexivity|].
    rewrite number_eqb_neq by now apply Qclt_not_eq. exact IH. }
  rewrite Hold. simpl. unfold entries. rewrite map_map. simpl. rewrite map_id.
  generalize (orderItemIdCounter s).
  induction items as [|item rest IH]; intros c; simpl; [reflexivity|].
  rewrite number_eqb_refl. f_equal. apply IH.
Qed.

(** ** Creating an order *)

(** The effect of [createOrder] as [getOrderWithItems] shows it. *)
Lemma createOrder_then_get s now order items :
  store_inv s ->
  let r := createOrder s now order items in
  getOrderWithItems s (Order.id (fst r)) = None
  /\ exists its,
       getOrderWithItems (snd r) (Order.id (fst r)) = Some (fst r, its)
       /\ List.length its = List.length items
       /\ Forall (fun it => OrderItem.orderId it = Order.id (fst r)) its
       /\ Forall2 carries its items.
Proof.
  intros Hinv r. split.
  - subst r. rewrite createOrder_eq. cbv zeta. cbn [fst Order.id].
    unfold getOrderWithItems.
    now rewrite (keys_below_get_None _ _ (inv_orders s Hinv)).
  - exists (stamped (orderIdCounter s) items (orderItemIdCounter s)).
    split; [exact (getOrderWithItems_createOrder s now order items Hinv)|].
    split; [apply stamped_length|].
    split.
    + subst r. rewrite createOrder_eq. cbv zeta. cbn [fst Order.id].
      apply stamped_owner.
    + apply stamped_copy.
Qed.

(** C1.  In a reachable store, [createOrder(order, items)] with a non-empty
    [items] is one step from a store where the returned id names no order
    to a store where [getOrderWithItems] on that id returns the returned
    order with exactly [items.length] order items, in the order of [items],
    each carrying its cart line and each with [orderId] the returned id,
    whatever [orderId] the caller supplied.  The order is never present
    without its items: the method has no suspension point, so the store
    before and the store after are the only ones a caller can observe. *)
Theorem C1_createOrder_order_with_its_items s now order items :
  reachable s ->
  items <> [] ->
  let r := createOrder s now order items in
  getOrderWithItems s (Order.id (fst r)) = None
  /\ exists its,
       getOrderWithItems (snd r) (Order.id (fst r)) = Some (fst r, its)
       /\ List.length its = List.length items
       /\ its <> []
       /\ Forall (fun it => OrderItem.orderId it = Order.id (fst r)) its
       /\ Forall2 carries its items.
Proof.
  intros Hr Hne r.
  destruct (createOrder_then_get s now order items (reachable_inv s Hr))
    as (Hbefore & its & Hget & Hlen & Hown & Hcarry).
  split; [exact Hbefore|]. exists its.
  repeat (split; [assumption|]). split; [|split; assumption].
  intros ->. destruct items; [congruence|discriminate].
Qed.

Lemma C1_witness :
  reachable new_MemStorage
  /\ [sample_item] <> []
  /\ (let r := createOrder new_MemStorage 1000 sample_order [sample_item] in
      getOrderWithItems new_MemStorage (Order.id (fst r)) = None
      /\ exists its,
           getOrderWithItems (snd r) (Order.id (fst r)) = Some (fst r, its)
           /\ List.length its = List.length [sample_item]
           /\ its <> []
           /\ Forall (fun it => OrderItem.orderId it = Order.id (fst r)) its
           /\ Forall2 carries its [sample_item]).
Proof.
  split; [apply reach_new|]. split; [discriminate|].
  apply (C1_createOrder_order_with_its_items new_MemStorage 1000 sample_order
           [sample_item] reach_new).
  discriminate.
Defined.

(** ** [POST /api/orders] *)

Lemma obj_get_set_same k v fields : obj_get k (obj_set k v fields) = v.
Proof.
  induction fields as [|[k' v'] r IH]; simpl.
  - now rewrite String.eqb_refl.
  - destruct (String.eqb k k') eqn:E; simpl.
    + now rewrite String.eqb_refl.
    + now rewrite E.
Qed.

Lemma obj_get_set_other k k' v fields :
  String.eqb k' k = false -> obj_get k' (obj_set k v fields) = obj_get k' fields.
Proof.
  intros Hne. induction fields as [|[k0 v0] r IH]; simpl.
  - now rewrite Hne.
  - destruct (String.eqb k k0) eqn:E; simpl.
    + apply String.eqb_eq in E. subst k0. now rewrite Hne.
    + now rewrite IH.
Qed.

(** An index key is a run of decimal digits: no schema key is one. *)
Lemma obj_get_index_fields k l :
  (forall d, String.eqb k (NilEmpty.string_of_uint d) = false) ->
  forall i, obj_get k (index_fields i l) = VUndefined.
Proof.
  intros Hk. induction l as [|v r IH]; intros i; simpl; [reflexivity|].
  unfold index_key. now rewrite Hk.
Qed.

Ltac not_index := let d := fresh in intros d; destruct d; reflexivity.

(** Reading a schema key of [{ ...v, userId: u }] other than [userId] reads
    it from [v]. *)
Lemma get_prop_spread v u k :
  String.eqb k "userId" = false ->
  (forall d, String.eqb k (NilEmpty.string_of_uint d) = false) ->
  obj_get k (obj_set "userId" u (spread v)) = get_prop v k.
Proof.
  intros Hk Hd. rewrite obj_get_set_other by exact Hk.
  destruct v; simpl; try reflexivity; now apply obj_get_index_fields.
Qed.

Lemma z_number_Some v n : z_number v = Some n -> v = VNum n.
Proof. destruct v; simpl; congruence. Qed.

Lemma z_number_min_max_Some lo hi int v n :
  z_number_min_max lo hi int v = Some n -> v = VNum n.
Proof.
  unfold z_number_min_max. destruct (z_number v) as [m|] eqn:E; [|discriminate].
  destruct (_ && _); [|discriminate]. intros H. injection H as <-.
  now apply z_number_Some.
Qed.

(** A parsed order holds, field by field, what the object held. *)
Lemma insertOrderSchema_parse_Ok fields o :
  insertOrderSchema_parse (VObj fields) = Ok o ->
  obj_get "userId" fields = VNum (InsertOrder.userId o)
  /\ obj_get "subtotal" fields = VNum (InsertOrder.subtotal o)
  /\ obj_get "tax" fields = VNum (InsertOrder.tax o)
  /\ obj_get "total" fields = VNum (InsertOrder.total o).
Proof.
  unfold insertOrderSchema_parse, get_prop.
  destruct (z_integer (obj_get "userId" fields)) eqn:E1; [|discriminate].
  destruct (z_string (obj_get "customerName" fields)); [|discriminate].
  destruct (z_string (obj_get "customerPhone" fields)); [|discriminate].
  destruct (z_string (obj_get "orderType" fields)); [|discriminate].
  destruct (z_opt_text (obj_get "specialInstructions" fields)); [|discriminate].
  destruct (z_double (obj_get "subtotal" fields)) eqn:E2; [|discriminate].
  destruct (z_double (obj_get "tax" fields)) eqn:E3; [|discriminate].
  destruct (z_double (obj_get "total" fields)) eqn:E4; [|discriminate].
  intros H. injection H as <-. cbn.
  repeat split; eapply z_number_min_max_Some; eassumption.
Qed.

Lemma mapM_length {A B : Type} (f : A -> result B) l :
  forall l', mapM f l = Ok l' -> List.length l' = List.length l.
Proof.
  induction l as [|a r IH]; simpl; intros l' H.
  - injection H as <-. reflexivity.
  - destruct (f a); [|discriminate]. simpl in H.
    destruct (mapM f r); [|discriminate]. simpl in H.
    injection H as <-. simpl. f_equal. now apply IH.
Qed.

(** The only path to a [201]. *)
Lemma accepted_inv s now req :
  accepted s now req ->
  exists user orderDetails cart validated orderItems,
    req_user req = Some user
    /\ member (req_body req) "orderDetails" = Ok orderDetails
    /\ member (req_body req) "cartItems" = Ok (VArr cart)
    /\ cart <> []
    /\ insertOrderSchema_parse
         (VObj (obj_set "userId" (VNum (User.id user)) (spread orderDetails)))
       = Ok validated
    /\ List.length orderItems = List.length cart
    /\ post_orders s now req
       = (mkRes 201 (JsonOrder (fst (createOrder s now validated orderItems))),
          snd (createOrder s now validated orderItems)).
Proof.
  unfold accepted, post_orders, isAuthenticated.
  destruct (req_user req) as [user|]; [|discriminate].
  unfold post_orders_try.
  destruct (member (req_body req) "orderDetails") as [orderDetails|e] eqn:Ed;
    cbn [bind]; [|destruct e; discriminate].
  destruct (member (req_body req) "cartItems") as [cartItems|e] eqn:Ec;
    cbn [bind]; [|destruct e; discriminate].
  destruct (truthy cartItems); [|discriminate].
  destruct cartItems as [| |b|n|str|cart|fields]; cbn [as_array];
    try discriminate.
  destruct cart as [|item items]; [discriminate|].
  cbn [List.length Nat.eqb].
  destruct (insertOrderSchema_parse _) as [validated|e] eqn:Ep;
    cbn [bind]; [|destruct e; discriminate].
  destruct (mapM _ (item :: items)) as [orderItems|e] eqn:Em;
    cbn [bind]; [|destruct e; discriminate].
  intros _. exists user, orderDetails, (item :: items), validated, orderItems.
  split; [reflexivity|]. split; [reflexivity|]. split; [reflexivity|].
  split; [discriminate|]. split; [exact Ep|].
  split; [exact (mapM_length _ _ _ Em)|].
  destruct (createOrder s now validated orderItems); reflexivity.
Qed.

(** What an accepted request leaves behind: the order of the response is
    stored under its id, with the items of the cart. *)
Lemma accepted_created s now req :
  accepted s now req ->
  exists user validated orderItems,
    req_user req = Some user
    /\ orderItems <> []
    /\ insertOrderSchema_parse
         (VObj (obj_set "userId" (VNum (User.id user))
                  (spread (get_prop (req_body req) "orderDetails"))))
       = Ok validated
    /\ post_orders s now req
       = (mkRes 201 (JsonOrder (fst (createOrder s now validated orderItems))),
          snd (createOrder s now validated orderItems)).
Proof.
  intros Ha.
  destruct (accepted_inv s now req Ha)
    as (user & od & cart & validated & orderItems
        & Hu & Hd & Hc & Hne & Hp & Hlen & Hpost).
  exists user, validated, orderItems. split; [exact Hu|]. split.
  - destruct orderItems; [|discriminate]. destruct cart; [congruence|discriminate].
  - split; [|exact Hpost].
    assert (od = get_prop (req_body req) "orderDetails") as <-; [|exact Hp].
    unfold member in Hd. destruct (req_body req); congruence.
Qed.

Lemma createOrder_stored s now order items :
  let r := createOrder s now order items in
  Map_get (Order.id (fst r)) (orders (snd r)) = Some (fst r).
Proof.
  rewrite createOrder_eq. cbv zeta. cbn [fst snd Order.id orders].
  apply Map_get_set_same.
Qed.

(** C2.  When [POST /api/orders] from an authenticated user is accepted,
    the order of the response is the order stored under its id, and its
    [userId] is the caller's id: a [userId] inside [orderDetails] is
    overwritten before validation. *)
Theorem C2_order_owner_is_caller s now req user :
  req_user req = Some user ->
  accepted s now req ->
  exists order,
    fst (post_orders s now req) = mkRes 201 (JsonOrder order)
    /\ Map_get (Order.id order) (orders (snd (post_orders s now req)))
       = Some order
    /\ Order.userId order = User.id user.
Proof.
  intros Hu Ha.
  destruct (accepted_created s now req Ha)
    as (user' & validated & orderItems & Hu' & _ & Hp & Hpost).
  assert (user' = user) as -> by congruence.
  exists (fst (createOrder s now validated orderItems)).
  rewrite Hpost. cbn [fst snd].
  split; [reflexivity|]. split; [apply createOrder_stored|].
  apply insertOrderSchema_parse_Ok in Hp. destruct Hp as (Hid & _).
  rewrite obj_get_set_same in Hid.
  rewrite createOrder_eq. cbv zeta. cbn [fst Order.userId]. congruence.
Qed.

Lemma forged_request_accepted : accepted new_MemStorage 1000 forged_request.
Proof. vm_compute. reflexivity. Qed.

Lemma C2_witness :
  req_user forged_request = Some customer
  /\ accepted new_MemStorage 1000 forged_request
  /\ exists order,
       fst (post_orders new_MemStorage 1000 forged_request)
       = mkRes 201 (JsonOrder order)
       /\ Map_get (Order.id order)
            (orders (snd (post_orders new_MemStorage 1000 forged_request)))
          = Some order
       /\ Order.userId order = User.id customer.
Proof.
  split; [reflexivity|]. split; [exact forged_request_accepted|].
  apply (C2_order_owner_is_caller new_MemStorage 1000 forged_request customer).
  - reflexivity.
  - exact forged_request_accepted.
Defined.

(** C3.  (1) When the handler reads from the body a [cartItems] that is
    missing, not an array or empty, the answer is [400] with message
    [Cart cannot be empty] and the store is unchanged.  (2) In a reachable
    store, the order of an accepted request is stored with at least one
    order item. *)
Theorem C3_empty_cart_rejected s now req :
  (forall user cartItems,
      req_user req = Some user ->
      member (req_body req) "cartItems" = Ok cartItems ->
      cart_rejected cartItems ->
      post_orders s now req = (mkRes 400 (Message "Cart cannot be empty"), s))
  /\ (reachable s ->
      accepted s now req ->
      exists order its,
        fst (post_orders s now req) = mkRes 201 (JsonOrder order)
        /\ getOrderWithItems (snd (post_orders s now req)) (Order.id order)
           = Some (order, its)
        /\ its <> []).
Proof.
  split.
  - intros user cartItems Hu Hc Hrej.
    unfold post_orders, isAuthenticated. rewrite Hu. unfold post_orders_try.
    assert (Hd : exists od, member (req_body req) "orderDetails" = Ok od).
    { unfold member in *. destruct (req_body req); try discriminate; eauto. }
    destruct Hd as [od ->]. rewrite Hc. cbn [bind].
    destruct Hrej as [-> | [Hna | ->]]; [reflexivity| |reflexivity].
    rewrite Hna. now destruct (truthy cartItems).
  - intros Hr Ha.
    destruct (accepted_created s now req Ha)
      as (user & validated & orderItems & _ & Hne & _ & Hpost).
    destruct (createOrder_then_get s now validated orderItems
                (reachable_inv s Hr)) as (_ & its & Hget & Hlen & _).
    exists (fst (createOrder s now validated orderItems)), its.
    rewrite Hpost. cbn [fst snd]. split; [reflexivity|]. split; [exact Hget|].
    intros ->. destruct orderItems; [congruence|discriminate].
Qed.

Lemma C3_witness :
  post_orders new_MemStorage 1000 empty_cart_request
  = (mkRes 400 (Message "Cart cannot be empty"), new_MemStorage)
  /\ exists order its,
       fst (post_orders new_MemStorage 1000 forged_request)
       = mkRes 201 (JsonOrder order)
       /\ getOrderWithItems (snd (post_orders new_MemStorage 1000 forged_request))
            (Order.id order) = Some (order, its)
       /\ its <> [].
Proof.
  split.
  - apply (proj1 (C3_empty_cart_rejected new_MemStorage 1000 empty_cart_request)
             customer (VArr [])).
    + reflexivity.
    + reflexivity.
    + right. right. reflexivity.
  - apply (proj2 (C3_empty_cart_rejected new_MemStorage 1000 forged_request)).
    + apply reach_new.
    + exact forged_request_accepted.
Defined.

(** C4.  (1) When [POST /api/orders] is accepted, the [subtotal], [tax] and
    [total] of the stored order are the numbers found under these keys in
    [orderDetails]: the server copies them.  (2) Nothing checks them: there
    is an accepted request, on the store the constructor builds, whose
    stored [total] differs from [subtotal + tax] and whose stored
    [subtotal] differs from the sum of [price * quantity] over its stored
    items. *)
Theorem C4_totals_stored_as_supplied :
  (forall s now req,
      accepted s now req ->
      let orderDetails := get_prop (req_body req) "orderDetails" in
      exists order,
        fst (post_orders s now req) = mkRes 201 (JsonOrder order)
        /\ Map_get (Order.id order) (orders (snd (post_orders s now req)))
           = Some order
        /\ get_prop orderDetails "subtotal" = VNum (Order.subtotal order)
        /\ get_prop orderDetails "tax" = VNum (Order.tax order)
        /\ get_prop orderDetails "total" = VNum (Order.total order))
  /\ (exists s now req order its,
        reachable s
        /\ fst (post_orders s now req) = mkRes 201 (JsonOrder order)
        /\ getOrderWithItems (snd (post_orders s now req)) (Order.id order)
           = Some (order, its)
        /\ Order.total order <> (Order.subtotal order + Order.tax order)%Qc
        /\ Order.subtotal order <> cartSubtotal its).
Proof.
  split.
  - intros s now req Ha od.
    destruct (accepted_created s now req Ha)
      as (user & validated & orderItems & _ & _ & Hp & Hpost).
    exists (fst (createOrder s now validated orderItems)).
    rewrite Hpost. cbn [fst snd].
    split; [reflexivity|]. split; [apply createOrder_stored|].
    apply insertOrderSchema_parse_Ok in Hp.
    destruct Hp as (_ & Hsub & Htax & Htot).
    rewrite get_prop_spread in Hsub, Htax, Htot
      by (reflexivity || not_index).
    rewrite createOrder_eq. cbv zeta.
    cbn [fst Order.subtotal Order.tax Order.total]. auto.
  - exists new_MemStorage, 1000%Z, forged_request.
    eexists. eexists.
    split; [apply reach_new|].
    split; [vm_compute; reflexivity|].
    split; [vm_compute; reflexivity|].
    split; intros H; apply (f_equal this) in H; vm_compute in H; discriminate.
Qed.

(** ** Identifiers *)

Lemma increasing_app lo hi l later :
  increasing l -> between lo hi l -> (lo <= hi)%Qc ->
  increasing later -> all_from hi later ->
  increasing (l ++ later) /\ all_from lo (l ++ later).
Proof.
  unfold increasing, between, all_from. intros Hl Hb Hle Hlater Hfrom. split.
  - induction Hl as [|x l Hl IH Hx]; simpl; [exact Hlater|].
    inversion Hb as [|? ? [_ Hxhi] Hb']; subst.
    constructor; [now apply IH|].
    apply Forall_app. split; [exact Hx|].
    eapply Forall_impl; [|exact Hfrom].
    intros y Hy. eapply Qclt_le_trans; eassumption.
  - apply Forall_app. split.
    + eapply Forall_impl; [|exact Hb]. now intros x [H _].
    + eapply Forall_impl; [|exact Hfrom].
      intros y Hy. eapply Qcle_trans; eassumption.
Qed.

Lemma between_nil lo hi : between lo hi [].
Proof. constructor. Qed.

Lemma between_one c : between c (incr c) [c].
Proof.
  constructor; [|constructor]. split; [apply Qcle_refl|apply incr_lt].
Qed.

Lemma increasing_nil : increasing [].
Proof. constructor. Qed.

Lemma increasing_one c : increasing [c].
Proof. constructor; constructor. Qed.

Lemma le_incr c : (c <= incr c)%Qc.
Proof. apply Qclt_le_weak, incr_lt. Qed.

Create HintDb ids.

#[local] Hint Resolve between_nil between_one increasing_nil increasing_one
  le_incr Qcle_refl : ids.

(** The counters after a call. *)
Lemma exec_counters s c :
  userIdCounter (exec s c)
  = match c with CreateUser _ => incr (userIdCounter s) | _ => userIdCounter s end
  /\ menuItemIdCounter (exec s c)
     = match c with
       | CreateMenuItem _ => incr (menuItemIdCounter s)
       | _ => menuItemIdCounter s
       end
  /\ orderIdCounter (exec s c)
     = match c with
       | CreateOrder _ _ _ => incr (orderIdCounter s)
       | _ => orderIdCounter s
       end
  /\ orderItemIdCounter (exec s c)
     = match c with
       | CreateOrder _ _ items =>
           fst (add_order_items (orderIdCounter s) items (orderItemIdCounter s)
                  (orderItems s))
       | _ => orderItemIdCounter s
       end.
Proof.
  destruct c as [u|mi|id p|id|now o items|id st]; cbn [exec].
  - repeat split.
  - repeat split.
  - unfold updateMenuItem. destruct (Map_get id (menuItems s)); repeat split.
  - unfold deleteMenuItem. destruct (Map_delete id (menuItems s)); repeat split.
  - rewrite createOrder_eq. repeat split.
  - unfold updateOrderStatus. destruct (Map_get id (orders s)); repeat split.
Qed.

(** One call: the ids it hands out lie between the counter before and the
    counter after, and increase. *)
Lemma ids_of_call_between s c :
  store_inv s ->
  let now := ids_of_call s c in
  (increasing (user_ids now)
   /\ between (userIdCounter s) (userIdCounter (exec s c)) (user_ids now)
   /\ (userIdCounter s <= userIdCounter (exec s c))%Qc)
  /\ (increasing (menuItem_ids now)
      /\ between (menuItemIdCounter s) (menuItemIdCounter (exec s c))
           (menuItem_ids now)
      /\ (menuItemIdCounter s <= menuItemIdCounter (exec s c))%Qc)
  /\ (increasing (order_ids now)
      /\ between (orderIdCounter s) (orderIdCounter (exec s c)) (order_ids now)
      /\ (orderIdCounter s <= orderIdCounter (exec s c))%Qc)
  /\ (increasing (orderItem_ids now)
      /\ between (orderItemIdCounter s) (orderItemIdCounter (exec s c))
           (orderItem_ids now)
      /\ (orderItemIdCounter s <= orderItemIdCounter (exec s c))%Qc).
Proof.
  intros Hinv now.
  destruct (exec_counters s c) as (-> & -> & -> & ->). subst now.
  destruct c as [u|mi|id p|id|t o items|id st];
    cbn [ids_of_call user_ids menuItem_ids order_ids orderItem_ids];
    try (repeat split; auto with ids; fail).
  rewrite (getOrderWithItems_createOrder s t o items Hinv).
  rewrite createOrder_eq. cbv zeta. cbn [fst Order.id].
  repeat split; auto with ids.
  - apply stamped_ids_sorted.
  - unfold between. apply Forall_map. apply stamped_ids_range.
  - apply add_order_items_mono.
Qed.

Lemma history_increasing cs :
  forall s,
    store_inv s ->
    let h := history s cs in
    (increasing (user_ids h) /\ all_from (userIdCounter s) (user_ids h))
    /\ (increasing (menuItem_ids h) /\ all_from (menuItemIdCounter s) (menuItem_ids h))
    /\ (increasing (order_ids h) /\ all_from (orderIdCounter s) (order_ids h))
    /\ (increasing (orderItem_ids h)
        /\ all_from (orderItemIdCounter s) (orderItem_ids h)).
Proof.
  induction cs as [|c cs IH]; intros s Hinv.
  - cbn. repeat split; constructor.
  - cbn [history]. cbv zeta.
    cbn [user_ids menuItem_ids order_ids orderItem_ids].
    destruct (IH (exec s c) (exec_inv s c Hinv))
      as ((Iu & Fu) & (Im & Fm) & (Io & Fo) & (Ii & Fi)).
    destruct (ids_of_call_between s c Hinv)
      as ((Su & Bu & Lu) & (Sm & Bm & Lm) & (So & Bo & Lo) & (Si & Bi & Li)).
    repeat split; eapply increasing_app; eassumption.
Qed.

Lemma increasing_NoDup l : increasing l -> NoDup l.
Proof.
  induction 1 as [|x l _ IH Hx]; constructor; [|exact IH].
  intros Hin. rewrite Forall_forall in Hx. exact (lt_irrefl x (Hx x Hin)).
Qed.

Lemma Map_get_below {V : Type} c k (m : JsMap V) :
  keys_below c m -> Map_get k m <> None -> (k < c)%Qc.
Proof.
  induction 1 as [|[k' v'] m Hk _ IH]; simpl; [congruence|].
  destruct (number_eq_dec k k') as [->|_]; [intros _; exact Hk|exact IH].
Qed.

(** C5.  Start from the empty store, let the constructor run, then any
    sequence of store calls (creations, updates, deletions).  For each of
    the four entity types the ids handed out, listed in creation order,
    increase strictly: every id is larger than all ids handed out before
    it, so no id is handed out twice.  Deleting a menu item does not move
    the counter, and the next menu item gets an id larger than the deleted
    one. *)
Theorem C5_ids_strictly_increasing (cs : list call) :
  let h := history empty_store (constructor_calls ++ cs) in
  (increasing (user_ids h) /\ NoDup (user_ids h))
  /\ (increasing (menuItem_ids h) /\ NoDup (menuItem_ids h))
  /\ (increasing (order_ids h) /\ NoDup (order_ids h))
  /\ (increasing (orderItem_ids h) /\ NoDup (orderItem_ids h))
  /\ (forall s id menuItem,
         reachable s ->
         Map_get id (menuItems s) <> None ->
         let s' := snd (deleteMenuItem s id) in
         menuItemIdCounter s' = menuItemIdCounter s
         /\ (id < MenuItem.id (fst (createMenuItem s' menuItem)))%Qc).
Proof.
  intros h.
  destruct (history_increasing (constructor_calls ++ cs) empty_store
              store_inv_empty)
    as ((Iu & _) & (Im & _) & (Io & _) & (Ii & _)).
  fold h in Iu, Im, Io, Ii.
  repeat (split; [split; [assumption|now apply increasing_NoDup]|]).
  intros s id menuItem Hr Hget s'.
  assert (Hc : menuItemIdCounter s' = menuItemIdCounter s).
  { subst s'. unfold deleteMenuItem.
    destruct (Map_delete id (menuItems s)); reflexivity. }
  split; [exact Hc|].
  cbn [createMenuItem fst MenuItem.id]. rewrite Hc.
  exact (Map_get_below _ _ _ (inv_menuItems s (reachable_inv s Hr)) Hget).
Qed.

(** ** [PATCH /api/orders/:id/status] *)

Lemma includes_In l x : includes l x = true <-> In x l.
Proof.
  unfold includes. rewrite existsb_exists. split.
  - intros (y & Hin & Heq). apply String.eqb_eq in Heq. now subst.
  - intros Hin. exists x. split; [exact Hin|apply String.eqb_refl].
Qed.

Lemma updateOrderStatus_found s orderId status order :
  Map_get orderId (orders s) = Some order ->
  updateOrderStatus s orderId status
  = (Some (with_status order status),
     mkStore (users s) (menuItems s)
       (Map_set orderId (with_status order status) (orders s))
       (orderItems s) (userIdCounter s) (menuItemIdCounter s)
       (orderIdCounter s) (orderItemIdCounter s)).
Proof. unfold updateOrderStatus. now intros ->. Qed.




(** ** Frame properties of the store *)

Lemma Map_keys_set_present {V : Type} k (v : V) (m : JsMap V) :
  Map_get k m <> None -> Map_keys (Map_set k v m) = Map_keys m.
Proof.
  induction m as [|[k' v'] m IH]; simpl; [congruence|].
  destruct (number_eq_dec k k') as [->|Hne]; simpl; [reflexivity|].
  intros H. now rewrite IH.
Qed.

(** C7.  [updateOrderStatus(orderId, status)], for any string [status]:
    (1) when [orderId] names a stored order, the call returns that order
    with [status] replaced and every other field as it was, stores it
    under [orderId], and leaves alone every other order, the listing order
    of the orders, all order items, users, menu items and counters;
    (2) when [orderId] names no order, the call returns the not-found
    sentinel and the store is the same. *)
Theorem C7_updateOrderStatus_frame s orderId status :
  (forall order,
      Map_get orderId (orders s) = Some order ->
      exists updated,
        let r := updateOrderStatus s orderId status in
        fst r = Some updated
        /\ Order.status updated = Some status
        /\ same_but_status updated order
        /\ Map_get orderId (orders (snd r)) = Some updated
        /\ (forall k, k <> orderId ->
                      Map_get k (orders (snd r)) = Map_get k (orders s))
        /\ Map_keys (orders (snd r)) = Map_keys (orders s)
        /\ orderItems (snd r) = orderItems s
        /\ users (snd r) = users s
        /\ menuItems (snd r) = menuItems s
        /\ userIdCounter (snd r) = userIdCounter s
        /\ menuItemIdCounter (snd r) = menuItemIdCounter s
        /\ orderIdCounter (snd r) = orderIdCounter s
        /\ orderItemIdCounter (snd r) = orderItemIdCounter s)
  /\ (Map_get orderId (orders s) = None ->
      updateOrderStatus s orderId status = (None, s)).
Proof.
  split.
  - intros order Hget. exists (with_status order status).
    rewrite (updateOrderStatus_found s orderId status order Hget).
    cbn [fst snd orders orderItems users menuItems userIdCounter
           menuItemIdCounter orderIdCounter orderItemIdCounter].
    split; [reflexivity|]. split; [reflexivity|].
    split; [repeat split|].
    split; [apply Map_get_set_same|].
    split; [intros k Hk; now apply Map_get_set_other|].
    split; [apply Map_keys_set_present; congruence|].
    repeat split.
  - intros Hget. unfold updateOrderStatus. now rewrite Hget.
Qed.

Lemma C7_witness :
  (exists updated,
      let r := updateOrderStatus one_order_store (num 1) "anything at all" in
      fst r = Some updated
      /\ Order.status updated = Some "anything at all"
      /\ same_but_status updated first_order
      /\ orderItems (snd r) = orderItems one_order_store)
  /\ updateOrderStatus one_order_store (num 5) "ready" = (None, one_order_store).
Proof.
  split.
  - destruct (proj1 (C7_updateOrderStatus_frame one_order_store (num 1)
                       "anything at all") first_order)
      as (updated & H1 & H2 & H3 & _ & _ & _ & H4 & _).
    + vm_compute. reflexivity.
    + exists updated. cbv zeta. auto.
  - apply (proj2 (C7_updateOrderStatus_frame one_order_store (num 5) "ready")).
    vm_compute. reflexivity.
Defined.

(** C8.  [updateMenuItem] and [deleteMenuItem] write to the menu only: the
    orders and the order items of the store, entry by entry and field by
    field, are the same after the call as before, so [getOrderWithItems]
    answers every id as it did before; the same holds after any sequence
    of such calls. *)
Theorem C8_menu_changes_keep_orders s :
  (forall id menuItem,
      let s' := snd (updateMenuItem s id menuItem) in
      orders s' = orders s /\ orderItems s' = orderItems s
      /\ forall orderId, getOrderWithItems s' orderId = getOrderWithItems s orderId)
  /\ (forall id,
         let s' := snd (deleteMenuItem s id) in
         orders s' = orders s /\ orderItems s' = orderItems s
         /\ forall orderId,
              getOrderWithItems s' orderId = getOrderWithItems s orderId)
  /\ (forall cs,
         Forall (fun c => match c with
                          | UpdateMenuItem _ _ | DeleteMenuItem _ => True
                          | _ => False
                          end) cs ->
         orders (run s cs) = orders s /\ orderItems (run s cs) = orderItems s
         /\ forall orderId,
              getOrderWithItems (run s cs) orderId = getOrderWithItems s orderId).
Proof.
  assert (Hu : forall st id menuItem,
             orders (snd (updateMenuItem st id menuItem)) = orders st
             /\ orderItems (snd (updateMenuItem st id menuItem)) = orderItems st).
  { intros st id p. unfold updateMenuItem.
    destruct (Map_get id (menuItems st)); split; reflexivity. }
  assert (Hd : forall st id,
             orders (snd (deleteMenuItem st id)) = orders st
             /\ orderItems (snd (deleteMenuItem st id)) = orderItems st).
  { intros st id. unfold deleteMenuItem.
    destruct (Map_delete id (menuItems st)); split; reflexivity. }
  assert (Hg : forall st st',
             orders st' = orders st -> orderItems st' = orderItems st ->
             forall orderId,
               getOrderWithItems st' orderId = getOrderWithItems st orderId).
  { intros st st' Ho Hi orderId. unfold getOrderWithItems. now rewrite Ho, Hi. }
  split; [|split].
  - intros id p s'. destruct (Hu s id p) as [Ho Hi]. auto.
  - intros id s'. destruct (Hd s id) as [Ho Hi]. auto.
  - intros cs Hcs.
    assert (H : orders (run s cs) = orders s
                /\ orderItems (run s cs) = orderItems s).
    { revert s. induction Hcs as [|c cs Hc _ IH]; intros s; [split; reflexivity|].
      cbn [run fold_left]. fold (run (exec s c) cs).
      destruct (IH (exec s c)) as [Ho Hi]. rewrite Ho, Hi.
      destruct c; try contradiction; cbn [exec]; [apply Hu|apply Hd]. }
    destruct H as [Ho Hi]. auto.
Qed.

(** ** Listing orders *)

Section ArraySortFacts.
Context {A : Type} (compareFn : A -> A -> Z).

Lemma sort_insert_perm a l : Permutation (sort_insert compareFn a l) (a :: l).
Proof.
  induction l as [|b r IH]; simpl; [reflexivity|].
  destruct (compareFn a b <=? 0)%Z; [reflexivity|].
  rewrite IH. apply perm_swap.
Qed.

Lemma Array_sort_perm l : Permutation (Array_sort compareFn l) l.
Proof.
  induction l as [|a r IH]; simpl; [reflexivity|].
  rewrite sort_insert_perm. now constructor.
Qed.
End ArraySortFacts.

Lemma sort_insert_newest_first a l :
  newest_first_sorted l -> newest_first_sorted (sort_insert newest_first a l).
Proof.
  unfold newest_first_sorted.
  induction 1 as [|b r Hr IH Hb]; simpl.
  - constructor; constructor.
  - unfold newest_first at 1.
    destruct (Order.createdAt b - Order.createdAt a <=? 0)%Z eqn:E.
    + apply Z.leb_le in E. constructor; [now constructor|].
      constructor; [lia|].
      eapply Forall_impl; [|exact Hb]. cbn. intros c Hc. lia.
    + apply Z.leb_gt in E. constructor; [exact IH|].
      eapply Permutation_Forall;
        [symmetry; apply sort_insert_perm|].
      constructor; [lia|exact Hb].
Qed.

Lemma Array_sort_newest_first l : newest_first_sorted (Array_sort newest_first l).
Proof.
  induction l as [|a r IH]; simpl; [constructor|].
  now apply sort_insert_newest_first.
Qed.

(** C9.  For every [userId], every order that [getOrdersByUserId] returns
    is a stored order with that [userId] (and every such order is
    returned), and both [getOrdersByUserId] and [getAllOrders] list their
    orders newest first: each order was created no earlier than any order
    listed after it.  [getAllOrders] lists exactly the stored orders. *)
Theorem C9_orders_listed_newest_first s :
  (forall userId,
      Forall (fun order => Order.userId order = userId)
        (getOrdersByUserId s userId)
      /\ newest_first_sorted (getOrdersByUserId s userId)
      /\ (forall order,
             In order (getOrdersByUserId s userId)
             <-> In order (Map_values (orders s))
                 /\ Order.userId order = userId))
  /\ newest_first_sorted (getAllOrders s)
  /\ Permutation (getAllOrders s) (Map_values (orders s)).
Proof.
  split; [|split].
  - intros userId.
    assert (Hin : forall order,
               In order (getOrdersByUserId s userId)
               <-> In order (Map_values (orders s))
                   /\ Order.userId order = userId).
    { intros order. unfold getOrdersByUserId. split.
      - intros H.
        apply (Permutation_in _ (Array_sort_perm newest_first _)) in H.
        apply filter_In in H. now rewrite number_eqb_eq in H.
      - intros H.
        apply (Permutation_in _ (Permutation_sym (Array_sort_perm newest_first _))).
        apply filter_In. now rewrite number_eqb_eq. }
    split; [|split; [apply Array_sort_newest_first|exact Hin]].
    apply Forall_forall. intros order Ho. now apply Hin in Ho.
  - apply Array_sort_newest_first.
  - apply Array_sort_perm.
Qed.

(** ** User names *)

Lemma registered_reachable s : registered s -> reachable s.
Proof.
  induction 1 as [|s u _ IH _|s c _ IH _].
  - constructor.
  - exact (reach_call s (CreateUser u) IH).
  - now constructor.
Qed.

Lemma exec_users s c :
  (forall insertUser, c <> CreateUser insertUser) -> users (exec s c) = users s.
Proof.
  intros Hc. destruct c as [u|mi|id p|id|now o items|id st]; cbn [exec].
  - now elim (Hc u).
  - reflexivity.
  - unfold updateMenuItem. now destruct (Map_get id (menuItems s)).
  - unfold deleteMenuItem. now destruct (Map_delete id (menuItems s)).
  - now rewrite createOrder_eq.
  - unfold updateOrderStatus. now destruct (Map_get id (orders s)).
Qed.

Lemma getUserByUsername_None s name :
  getUserByUsername s name = None ->
  forall u, In u (Map_values (users s)) ->
            toLowerCase (User.username u) <> toLowerCase name.
Proof.
  unfold getUserByUsername. intros Hnone u Hin Heq.
  pose proof (find_none _ _ Hnone u Hin) as H. cbn in H.
  rewrite Heq, String.eqb_refl in H. discriminate.
Qed.

Lemma getUserByUsername_Some s name u :
  getUserByUsername s name = Some u ->
  In u (Map_values (users s))
  /\ toLowerCase (User.username u) = toLowerCase name.
Proof.
  unfold getUserByUsername. intros H. apply find_some in H.
  destruct H as [Hin Heq]. now apply String.eqb_eq in Heq.
Qed.

Lemma registered_unique s : registered s -> usernames_unique s.
Proof.
  induction 1 as [|s u Hreg IH Hfree|s c Hreg IH Hc].
  - intros u1 u2 H1 H2 _.
    rewrite new_MemStorage_run in H1, H2.
    assert (Hu : forall cs st,
               users (run st (map CreateMenuItem cs)) = users st).
    { induction cs as [|x cs IHcs]; intros st; [reflexivity|].
      cbn [map run fold_left]. fold (run (exec st (CreateMenuItem x))
                                       (map CreateMenuItem cs)).
      now rewrite IHcs. }
    unfold constructor_calls in H1, H2.
    change (run empty_store (CreateUser admin_user :: map CreateMenuItem seed_items))
      with (run (exec empty_store (CreateUser admin_user))
              (map CreateMenuItem seed_items)) in H1, H2.
    rewrite Hu in H1, H2. cbn in H1, H2.
    destruct H1 as [<-|[]]. destruct H2 as [<-|[]]. reflexivity.
  - pose proof (inv_users s (reachable_inv s (registered_reachable s Hreg)))
      as Hbelow.
    pose proof (getUserByUsername_None s _ Hfree) as Hnew.
    intros u1 u2. cbn [createUser snd users].
    rewrite Map_set_absent by now apply keys_below_get_None.
    unfold Map_values. rewrite map_app. cbn [map snd].
    intros H1 H2 Heq.
    apply in_app_or in H1. apply in_app_or in H2.
    destruct H1 as [H1|[<-|[]]]; destruct H2 as [H2|[<-|[]]].
    + now apply IH.
    + cbn [User.username] in Heq. now elim (Hnew u1 H1).
    + cbn [User.username] in Heq. symmetry in Heq. now elim (Hnew u2 H2).
    + reflexivity.
  - unfold usernames_unique. now rewrite (exec_users s c Hc).
Qed.

(** C10 (amended).  [getUserByUsername] compares case-insensitively: its
    answer is a stored user whose lower-cased name is the lower-cased
    query, and not-found means that no stored user has such a name.  The
    store does not refuse a taken name; but in every store reached when
    each [createUser] is called in a store in which [getUserByUsername]
    answers not-found for the new name (the lookup and the creation see
    the same users), no two users have names equal case-insensitively, and
    the user [getUserByUsername] finds is the only one with that name.  A
    not-found answer given before another user was created is not
    enough. *)
Theorem C10_usernames_unique_when_guarded s :
  registered s ->
  usernames_unique s
  /\ (forall name u,
         getUserByUsername s name = Some u ->
         In u (Map_values (users s))
         /\ toLowerCase (User.username u) = toLowerCase name
         /\ forall u', In u' (Map_values (users s)) ->
                       toLowerCase (User.username u') = toLowerCase name ->
                       u' = u)
  /\ (forall name,
         getUserByUsername s name = None ->
         forall u, In u (Map_values (users s)) ->
                   toLowerCase (User.username u) <> toLowerCase name).
Proof.
  intros Hreg. pose proof (registered_unique s Hreg) as Huniq.
  split; [exact Huniq|]. split.
  - intros name u Hget. destruct (getUserByUsername_Some s name u Hget) as [Hin Heq].
    split; [exact Hin|]. split; [exact Heq|].
    intros u' Hin' Heq'. apply Huniq; congruence.
  - apply getUserByUsername_None.
Qed.

Lemma C10_witness :
  getUserByUsername new_MemStorage (InsertUser.username bob) = None
  /\ registered bob_store
  /\ usernames_unique bob_store
  /\ getUserByUsername bob_store (InsertUser.username bob_again)
     = Some bob_user
  /\ (forall u, In u (Map_values (users bob_store)) ->
                toLowerCase (User.username u) = "bob@example.com" ->
                u = bob_user).
Proof.
  assert (Hfree : getUserByUsername new_MemStorage (InsertUser.username bob)
                  = None) by (vm_compute; reflexivity).
  assert (Hreg : registered bob_store)
    by exact (reg_user new_MemStorage bob reg_new Hfree).
  assert (Hget : getUserByUsername bob_store (InsertUser.username bob_again)
                 = Some bob_user) by (vm_compute; reflexivity).
  split; [exact Hfree|]. split; [exact Hreg|].
  destruct (C10_usernames_unique_when_guarded bob_store Hreg)
    as (Huniq & Hsome & _).
  split; [exact Huniq|]. split; [exact Hget|].
  intros u Hin Heq.
  exact (proj2 (proj2 (Hsome _ _ Hget)) u Hin Heq).
Defined.

(** C10 as stated fails: the store accepts a second user whose name
    differs from a stored one only in case, also when the name of each
    was looked up and not found before either was created. *)
Lemma C10_counterexample :
  reachable two_bobs_store
  /\ getUserByUsername new_MemStorage (InsertUser.username bob) = None
  /\ getUserByUsername new_MemStorage (InsertUser.username bob_again) = None
  /\ ~ usernames_unique two_bobs_store
  /\ exists u1 u2,
       In u1 (Map_values (users two_bobs_store))
       /\ In u2 (Map_values (users two_bobs_store))
       /\ toLowerCase (User.username u1) = toLowerCase (User.username u2)
       /\ User.id u1 <> User.id u2
       /\ getUserByUsername two_bobs_store (User.username u2) = Some u1.
Proof.
  split; [apply reachable_run, reach_new|].
  split; [vm_compute; reflexivity|]. split; [vm_compute; reflexivity|].
  split.
  { intros H.
    specialize (H (User.mk (num 2) "Bob@example.com" "x" "Bob" None)
                  (User.mk (num 3) "bob@Example.com" "y" "Robert" None)).
    assert (E : "Bob@example.com" = "bob@Example.com"); [|discriminate E].
    apply (f_equal User.username) in H; [exact H| | |reflexivity];
      vm_compute; auto. }
  exists (User.mk (num 2) "Bob@example.com" "x" "Bob" None),
         (User.mk (num 3) "bob@Example.com" "y" "Robert" None).
  split; [vm_compute; auto|]. split; [vm_compute; auto|].
  split; [reflexivity|]. split; [|vm_compute; reflexivity].
  cbn [User.id]. intros H. apply (f_equal this) in H. vm_compute in H.
  discriminate.
Qed.

(** ** The model on concrete inputs *)

Example parseInt_examples :
  parseInt "42" = Some (num 42)
  /\ parseInt "  -0x1f" = Some (num (-31))
  /\ parseInt "12abc" = Some (num 12)
  /\ parseInt "abc" = None
  /\ parseInt "" = None
  /\ parseInt (String (ascii_of_nat 160) "7") = Some (num 7).
Proof. vm_compute. repeat split. Qed.

(** [0.1 + 0.2] is [0.30000000000000004], [399 * 0.07] is
    [27.930000000000003], and 2^53 + 1 is no double. *)
Example double_examples :
  js_add (fl (Q2Qc (1 # 10))) (fl (Q2Qc (2 # 10)))
  = Q2Qc (1351079888211149 # 4503599627370496)
  /\ js_mul (num 399) Cart.TAX_RATE
     = Q2Qc (7861596099528623 # 281474976710656)
  /\ fl (num 9007199254740993) = num 9007199254740992.
Proof. repeat split; apply Qc_is_canon; vm_compute; reflexivity. Qed.

(** The constructor hands out user id 1 and menu item ids 1 to 7; a menu
    item created after item 7 was deleted is item 8. *)
Example history_example :
  let h := history empty_store
             (constructor_calls
              ++ [CreateOrder 1000 sample_order [sample_item; sample_item];
                  DeleteMenuItem (num 7);
                  CreateMenuItem (InsertMenuItem.mk "Tea" "d" (num 2) "u" "beverage")])
  in
  user_ids h = [num 1]
  /\ menuItem_ids h = map num [1; 2; 3; 4; 5; 6; 7; 8]%Z
  /\ order_ids h = [num 1]
  /\ orderItem_ids h = [num 1; num 2].
Proof. vm_compute. repeat split. Qed.

Example getAllOrders_example :
  let s := run new_MemStorage
             [CreateOrder 1000 sample_order [sample_item];
              CreateOrder 3000 sample_order [sample_item];
              CreateOrder 2000 sample_order [sample_item]] in
  map Order.createdAt (getAllOrders s) = [3000; 2000; 1000]%Z
  /\ map Order.id (getAllOrders s) = [num 2; num 3; num 1].
Proof. vm_compute. repeat split. Qed.

Example empty_cart_example :
  post_orders new_MemStorage 1000 empty_cart_request
  = (mkRes 400 (Message "Cart cannot be empty"), new_MemStorage).
Proof. reflexivity. Qed.

(** Destructuring a [null] body throws before [cartItems] is read: the
    handler answers [500] (with its default strict setting,
    [express.json()] only delivers objects and arrays). *)
Example null_body_example :
  post_orders new_MemStorage 1000 (mkReq (Some customer) "" VNull)
  = (mkRes 500 (Message "Error creating order"), new_MemStorage).
Proof. reflexivity. Qed.

(** * Properties of the rest of the store and of the routes *)

(** ** Well-formed stores *)

Section WellFormedMaps.
Context {V : Type}.
Implicit Types (m : JsMap V) (k : number) (v : V).

Lemma keys_below_not_In c m : keys_below c m -> ~ In c (Map_keys m).
Proof.
  induction 1 as [|[k v] m Hk _ IH]; simpl; [tauto|].
  intros [->|Hin]; [exact (lt_irrefl _ Hk)|now apply IH].
Qed.

Lemma Map_get_In_keys k m : Map_get k m <> None <-> In k (Map_keys m).
Proof.
  induction m as [|[k' v'] m IH]; simpl; [split; [congruence|tauto]|].
  destruct (number_eq_dec k k') as [->|Hne].
  - split; [now left|congruence].
  - rewrite IH. split; [now right|]. intros [H|H]; [congruence|exact H].
Qed.

Lemma Map_get_In k v m : Map_get k m = Some v -> In (k, v) m.
Proof.
  induction m as [|[k' v'] m IH]; simpl; [discriminate|].
  destruct (number_eq_dec k k') as [->|Hne].
  - intros H. injection H as ->. now left.
  - intros H. right. now apply IH.
Qed.

Lemma In_Map_get k v m : keys_unique m -> In (k, v) m -> Map_get k m = Some v.
Proof.
  unfold keys_unique.
  induction m as [|[k' v'] m IH]; simpl; [tauto|].
  intros Hnd. inversion Hnd as [|? ? Hnotin Hnd']; subst.
  intros [H|H].
  - injection H as -> ->. destruct (number_eq_dec k k); congruence.
  - destruct (number_eq_dec k k') as [->|Hne]; [|now apply IH].
    exfalso. apply Hnotin. change k' with (fst (k', v)). now apply in_map.
Qed.

Lemma keyed_by_id_get (id : V -> number) k v m :
  keyed_by_id id m -> Map_get k m = Some v -> id v = k.
Proof.
  intros Hk Hget. apply Map_get_In in Hget.
  unfold keyed_by_id in Hk. rewrite Forall_forall in Hk.
  exact (Hk (k, v) Hget).
Qed.

Lemma keyed_by_id_values (id : V -> number) m :
  keyed_by_id id m -> map id (Map_values m) = Map_keys m.
Proof.
  unfold Map_values, Map_keys. induction 1 as [|[k v] m Hk _ IH]; simpl;
    [reflexivity|]. simpl in Hk. now rewrite Hk, IH.
Qed.

Lemma keys_unique_set_fresh c v m :
  keys_below c m -> keys_unique m -> keys_unique (Map_set c v m).
Proof.
  intros Hb Hu. rewrite Map_set_absent by now apply keys_below_get_None.
  unfold keys_unique, Map_keys in *. rewrite map_app. simpl.
  apply NoDup_app; [exact Hu|constructor; [tauto|constructor]|].
  intros x Hx [<-|[]]. exact (keys_below_not_In c m Hb Hx).
Qed.

Lemma keyed_by_id_set (id : V -> number) k v m :
  id v = k -> keyed_by_id id m -> keyed_by_id id (Map_set k v m).
Proof.
  intros Hid. unfold keyed_by_id.
  induction 1 as [|[k' v'] m Hk Hm IH]; simpl.
  - constructor; [exact Hid|constructor].
  - destruct (number_eq_dec k k'); constructor; auto.
Qed.

Lemma keys_unique_update k v m :
  keys_unique m -> Map_get k m <> None -> keys_unique (Map_set k v m).
Proof.
  intros Hu Hget. unfold keys_unique.
  now rewrite Map_keys_set_present.
Qed.

Lemma Map_delete_sub k m x : In x (snd (Map_delete k m)) -> In x m.
Proof.
  induction m as [|[k' v'] m IH]; simpl; [tauto|].
  destruct (number_eq_dec k k'); simpl; [now right|].
  destruct (Map_delete k m) as [b r]. simpl in *.
  intros [H|H]; [now left|right; now apply IH].
Qed.

Lemma keys_unique_delete k m :
  keys_unique m -> keys_unique (snd (Map_delete k m)).
Proof.
  unfold keys_unique. induction m as [|[k' v'] m IH]; simpl; [auto|].
  intros Hu. inversion Hu as [|? ? Hnotin Hu']; subst.
  destruct (number_eq_dec k k'); simpl; [exact Hu'|].
  pose proof (Map_delete_sub k m) as Hsub.
  destruct (Map_delete k m) as [b r]. simpl in *.
  constructor; [|now apply IH].
  intros Hin. apply Hnotin. apply in_map_iff in Hin.
  destruct Hin as ([k0 v0] & Hk0 & Hin0). simpl in Hk0. subst k0.
  change k' with (fst (k', v0)). apply in_map. now apply Hsub.
Qed.

Lemma keyed_by_id_delete (id : V -> number) k m :
  keyed_by_id id m -> keyed_by_id id (snd (Map_delete k m)).
Proof.
  unfold keyed_by_id. rewrite !Forall_forall. intros H x Hx.
  apply H. now apply (Map_delete_sub k).
Qed.

(** After [delete], the key is gone and every other key reads as before. *)
Lemma Map_get_delete_same k m :
  keys_unique m -> Map_get k (snd (Map_delete k m)) = None.
Proof.
  unfold keys_unique. induction m as [|[k' v'] m IH]; simpl; [reflexivity|].
  intros Hu. inversion Hu as [|? ? Hnotin Hu']; subst.
  destruct (number_eq_dec k k') as [->|Hne]; simpl.
  - destruct (Map_get k' m) eqn:E; [|reflexivity].
    exfalso. apply Hnotin. apply Map_get_In_keys. congruence.
  - specialize (IH Hu'). destruct (Map_delete k m) as [b r]. simpl in *.
    destruct (number_eq_dec k k'); [congruence|exact IH].
Qed.

Lemma Map_get_delete_other k k' m :
  k' <> k -> Map_get k' (snd (Map_delete k m)) = Map_get k' m.
Proof.
  intros Hne. induction m as [|[k0 v0] m IH]; simpl; [reflexivity|].
  destruct (number_eq_dec k k0) as [->|Hk]; simpl.
  - destruct (number_eq_dec k' k0); congruence.
  - destruct (Map_delete k m) as [b r]. simpl in *.
    destruct (number_eq_dec k' k0); [reflexivity|exact IH].
Qed.

Lemma Map_delete_fst k m :
  fst (Map_delete k m) = match Map_get k m with Some _ => true | None => false end.
Proof.
  induction m as [|[k0 v0] m IH]; simpl; [reflexivity|].
  destruct (number_eq_dec k k0); simpl; [reflexivity|].
  destruct (Map_delete k m) as [b r]. exact IH.
Qed.
End WellFormedMaps.

Lemma entries_keys l : Map_keys (entries l) = map OrderItem.id l.
Proof. unfold Map_keys, entries. rewrite map_map. reflexivity. Qed.

Lemma entries_keyed l : keyed_by_id OrderItem.id (entries l).
Proof.
  unfold keyed_by_id, entries. apply Forall_map, Forall_forall. reflexivity.
Qed.

Lemma store_wf_empty : store_wf empty_store.
Proof.
  constructor; try (split; constructor); constructor.
Qed.

Lemma exec_wf s c : store_inv s -> store_wf s -> store_wf (exec s c).
Proof.
  intros [Bu Bm Bo Bi Bw] [[Uu Ku] [Um Km] [Uo Ko] [Ui Ki] Hw].
  destruct c as [u|mi|id p|id|now o items|id st]; cbn [exec].
  - constructor; cbn; auto. split.
    + now apply keys_unique_set_fresh.
    + now apply keyed_by_id_set.
  - constructor; cbn; auto. split.
    + now apply keys_unique_set_fresh.
    + now apply keyed_by_id_set.
  - unfold updateMenuItem. destruct (Map_get id (menuItems s)) as [e|] eqn:E;
      [|now constructor].
    constructor; cbn; auto. split.
    + apply keys_unique_update; congruence.
    + apply keyed_by_id_set; [|exact Km]. cbn.
      exact (keyed_by_id_get _ _ _ _ Km E).
  - unfold deleteMenuItem.
    pose proof (keys_unique_delete id _ Um) as H1.
    pose proof (keyed_by_id_delete MenuItem.id id _ Km) as H2.
    destruct (Map_delete id (menuItems s)) as [b r]. cbn in *.
    now constructor.
  - rewrite createOrder_eq. cbv zeta.
    constructor; cbn [snd users menuItems orders orderItems]; auto.
    + split; [now apply keys_unique_set_fresh|now apply keyed_by_id_set].
    + rewrite add_order_items_snd by assumption. split.
      * unfold keys_unique, Map_keys. rewrite map_app.
        apply NoDup_app; [exact Ui| |].
        -- fold (Map_keys (entries (stamped (orderIdCounter s) items
                                      (orderItemIdCounter s)))).
           rewrite entries_keys. apply increasing_NoDup, stamped_ids_sorted.
        -- intros x Hold Hnew.
           fold (Map_keys (entries (stamped (orderIdCounter s) items
                                      (orderItemIdCounter s)))) in Hnew.
           rewrite entries_keys in Hnew. apply in_map_iff in Hnew.
           destruct Hnew as (it & <- & Hit).
           pose proof (stamped_ids_range (orderIdCounter s) items
                         (orderItemIdCounter s) []) as Hr.
           rewrite Forall_forall in Hr. destruct (Hr it Hit) as [Hle _].
           apply in_map_iff in Hold. destruct Hold as ([k v] & Hk & Hin).
           cbn in Hk. unfold keys_below in Bi. rewrite Forall_forall in Bi.
           specialize (Bi (k, v) Hin). cbn in Bi. rewrite Hk in Bi.
           exact (Qcle_not_lt _ _ Hle Bi).
      * unfold keyed_by_id. apply Forall_app. split; [exact Ki|apply entries_keyed].
    + rewrite add_order_items_snd by assumption. apply Forall_app. split.
      * eapply Forall_impl; [|exact Hw]. intros kv Hkv.
        destruct (number_eq_dec (OrderItem.orderId (snd kv)) (orderIdCounter s))
          as [->|Hne].
        -- rewrite Map_get_set_same. discriminate.
        -- now rewrite Map_get_set_other.
      * unfold entries. apply Forall_map.
        eapply Forall_impl; [|apply stamped_owner].
        intros it Hit. cbn [snd]. rewrite Hit, Map_get_set_same. discriminate.
  - unfold updateOrderStatus. destruct (Map_get id (orders s)) as [e|] eqn:E;
      [|now constructor].
    constructor; cbn; auto.
    + split; [apply keys_unique_update; congruence|].
      apply keyed_by_id_set; [|exact Ko]. cbn.
      exact (keyed_by_id_get _ _ _ _ Ko E).
    + eapply Forall_impl; [|exact Hw]. intros kv Hkv.
      destruct (number_eq_dec (OrderItem.orderId (snd kv)) id) as [->|Hne].
      * rewrite Map_get_set_same. discriminate.
      * now rewrite Map_get_set_other.
Qed.

Lemma run_wf cs :
  forall s, store_inv s -> store_wf s -> store_wf (run s cs).
Proof.
  induction cs as [|c cs IH]; intros s Hi Hw; [exact Hw|].
  apply IH; [now apply exec_inv|now apply exec_wf].
Qed.

Lemma reachable_wf s : reachable s -> store_wf s.
Proof.
  induction 1 as [|s c Hr IH].
  - rewrite new_MemStorage_run.
    apply run_wf; [apply store_inv_empty|apply store_wf_empty].
  - apply exec_wf; [now apply reachable_inv|exact IH].
Qed.

(** X1.  In a reachable store, lookups by id return the entity that
    carries that id, and no id is listed twice: [getUser], [getMenuItem]
    and [getOrderWithItems] answer with an entity whose [id] is the one
    asked for, and the users, menu items, orders and order items of the
    store each have pairwise different ids. *)
Theorem X1_lookups_agree_with_ids s :
  reachable s ->
  (forall id user, getUser s id = Some user -> User.id user = id)
  /\ (forall id item, getMenuItem s id = Some item -> MenuItem.id item = id)
  /\ (forall id order items,
         getOrderWithItems s id = Some (order, items) -> Order.id order = id)
  /\ NoDup (map User.id (Map_values (users s)))
  /\ NoDup (map MenuItem.id (getAllMenuItems s))
  /\ NoDup (map Order.id (Map_values (orders s)))
  /\ NoDup (map OrderItem.id (Map_values (orderItems s))).
Proof.
  intros Hr.
  destruct (reachable_wf s Hr) as [[Uu Ku] [Um Km] [Uo Ko] [Ui Ki] _].
  split; [intros id u; apply keyed_by_id_get; exact Ku|].
  split; [intros id m; apply keyed_by_id_get; exact Km|].
  split.
  { intros id o its. unfold getOrderWithItems.
    destruct (Map_get id (orders s)) as [o'|] eqn:E; [|discriminate].
    intros H. injection H as <- _. exact (keyed_by_id_get _ _ _ _ Ko E). }
  unfold getAllMenuItems.
  rewrite !keyed_by_id_values by assumption. auto.
Qed.

Lemma X1_witness :
  reachable one_order_store
  /\ (forall id user, getUser one_order_store id = Some user -> User.id user = id)
  /\ NoDup (map MenuItem.id (getAllMenuItems one_order_store)).
Proof.
  assert (Hr : reachable one_order_store) by (apply reach_call, reach_new).
  split; [exact Hr|].
  destruct (X1_lookups_agree_with_ids one_order_store Hr)
    as (H1 & _ & _ & _ & H2 & _).
  split; assumption.
Defined.

(** X2.  In a reachable store no order item is orphaned: the [orderId] of
    every stored order item names a stored order, [getOrderWithItems] on
    that id lists the item, and on any other id it does not. *)
Theorem X2_every_item_has_its_order s item :
  reachable s ->
  In item (Map_values (orderItems s)) ->
  (exists order items,
      getOrderWithItems s (OrderItem.orderId item) = Some (order, items)
      /\ In item items)
  /\ (forall id order items,
         getOrderWithItems s id = Some (order, items) ->
         In item items -> id = OrderItem.orderId item).
Proof.
  intros Hr Hin. destruct (reachable_wf s Hr) as [_ _ _ _ Hw].
  split.
  - unfold Map_values in Hin. apply in_map_iff in Hin.
    destruct Hin as (kv & <- & Hkv).
    rewrite Forall_forall in Hw. specialize (Hw kv Hkv).
    unfold getOrderWithItems.
    destruct (Map_get (OrderItem.orderId (snd kv)) (orders s)) as [o|];
      [|congruence].
    exists o. eexists. split; [reflexivity|].
    apply filter_In. split; [|apply number_eqb_refl].
    unfold Map_values. now apply in_map.
  - intros id o its. unfold getOrderWithItems.
    destruct (Map_get id (orders s)); [|discriminate].
    intros H. injection H as _ <-. intros Hi.
    apply filter_In in Hi. destruct Hi as [_ Hi].
    apply number_eqb_eq in Hi. now symmetry.
Qed.

Lemma X2_witness :
  exists item,
    reachable one_order_store
    /\ In item (Map_values (orderItems one_order_store))
    /\ exists order items,
         getOrderWithItems one_order_store (OrderItem.orderId item)
         = Some (order, items) /\ In item items.
Proof.
  exists (OrderItem.mk (num 1) (num 1) (num 1) "Tea" (num 1) (num 3)).
  assert (Hr : reachable one_order_store) by (apply reach_call, reach_new).
  assert (Hin : In (OrderItem.mk (num 1) (num 1) (num 1) "Tea" (num 1) (num 3))
                  (Map_values (orderItems one_order_store))).
  { vm_compute. left. reflexivity. }
  split; [exact Hr|]. split; [exact Hin|].
  exact (proj1 (X2_every_item_has_its_order one_order_store _ Hr Hin)).
Defined.

(** ** The menu in the store *)

Section MapFacts.
Context {V : Type}.
Implicit Types (m : JsMap V) (k : number) (v : V).

Lemma Map_set_same k v m : Map_get k m = Some v -> Map_set k v m = m.
Proof.
  induction m as [|[k' v'] m IH]; simpl; [discriminate|].
  destruct (number_eq_dec k k') as [->|Hne].
  - intros H. now injection H as ->.
  - intros H. now rewrite IH.
Qed.

Lemma Map_set_set k v v' m : Map_set k v (Map_set k v' m) = Map_set k v m.
Proof.
  induction m as [|[k0 v0] m IH]; simpl.
  - destruct (number_eq_dec k k); congruence.
  - destruct (number_eq_dec k k0) as [->|Hne]; simpl.
    + destruct (number_eq_dec k0 k0); congruence.
    + destruct (number_eq_dec k k0); [congruence|now rewrite IH].
Qed.

Lemma Map_delete_absent k m : Map_get k m = None -> Map_delete k m = (false, m).
Proof.
  induction m as [|[k' v'] m IH]; simpl; [reflexivity|].
  destruct (number_eq_dec k k'); [discriminate|].
  intros H. now rewrite IH.
Qed.

(** What is left of the listing after [delete]. *)
Lemma Map_delete_values (id : V -> number) k m :
  keys_unique m -> keyed_by_id id m ->
  Map_values (snd (Map_delete k m))
  = filter (fun v => negb (number_eqb (id v) k)) (Map_values m).
Proof.
  unfold keys_unique, keyed_by_id, Map_values.
  induction m as [|[k' v'] m IH]; simpl; [reflexivity|].
  intros Hu Hk. inversion Hu as [|? ? Hnotin Hu']; subst.
  inversion Hk as [|? ? Hid Hk']; subst. simpl in Hid. rewrite Hid.
  destruct (number_eq_dec k k') as [->|Hne]; simpl.
  - rewrite number_eqb_refl. simpl. symmetry.
    rewrite forallb_filter_id; [reflexivity|].
    apply forallb_forall. intros v Hv. apply in_map_iff in Hv.
    destruct Hv as ([k0 v0] & <- & Hin). simpl.
    rewrite Forall_forall in Hk'. specialize (Hk' _ Hin). simpl in Hk'.
    rewrite Hk'. rewrite number_eqb_neq; [reflexivity|].
    intros ->. apply Hnotin. change k' with (fst (k', v0)). now apply in_map.
  - rewrite number_eqb_neq by congruence. simpl.
    specialize (IH Hu' Hk'). destruct (Map_delete k m) as [b r]. simpl in *.
    now rewrite IH.
Qed.

Lemma Map_values_set_fresh c v m :
  keys_below c m -> Map_values (Map_set c v m) = Map_values m ++ [v].
Proof.
  intros Hb. rewrite Map_set_absent by now apply keys_below_get_None.
  unfold Map_values. now rewrite map_app.
Qed.
End MapFacts.

(** X3.  [createMenuItem] in a reachable store: the id it assigns named no
    menu item before; afterwards [getMenuItem] on that id returns the item
    that was returned, which holds the given name, description, price,
    image and category; [getAllMenuItems] lists it last, after the items
    listed before; every other id reads as before. *)
Theorem X3_createMenuItem_then_get s menuItem :
  reachable s ->
  let r := createMenuItem s menuItem in
  let id := MenuItem.id (fst r) in
  getMenuItem s id = None
  /\ getMenuItem (snd r) id = Some (fst r)
  /\ fst r
     = MenuItem.mk id (InsertMenuItem.name menuItem)
         (InsertMenuItem.description menuItem) (InsertMenuItem.price menuItem)
         (InsertMenuItem.imageUrl menuItem) (InsertMenuItem.category menuItem)
  /\ getAllMenuItems (snd r) = getAllMenuItems s ++ [fst r]
  /\ (forall id', id' <> id -> getMenuItem (snd r) id' = getMenuItem s id').
Proof.
  intros Hr r id. pose proof (inv_menuItems s (reachable_inv s Hr)) as Hb.
  subst r id. cbn [createMenuItem fst snd MenuItem.id].
  unfold getMenuItem, getAllMenuItems. cbn [menuItems].
  split; [now apply keys_below_get_None|].
  split; [apply Map_get_set_same|]. split; [reflexivity|].
  split; [now apply Map_values_set_fresh|].
  intros id' Hne. now apply Map_get_set_other.
Qed.

Lemma X3_witness :
  reachable new_MemStorage
  /\ getMenuItem (snd (createMenuItem new_MemStorage tea)) (num 8)
     = Some (MenuItem.mk (num 8) "Tea" "d" (Q2Qc (3 # 2)) "u" "beverage").
Proof.
  split; [apply reach_new|].
  exact (proj1 (proj2 (X3_createMenuItem_then_get new_MemStorage tea reach_new))).
Defined.

Lemma deleteMenuItem_effect s id :
  reachable s ->
  let r := deleteMenuItem s id in
  (fst r = true <-> getMenuItem s id <> None)
  /\ getMenuItem (snd r) id = None
  /\ (forall id', id' <> id -> getMenuItem (snd r) id' = getMenuItem s id')
  /\ getAllMenuItems (snd r)
     = filter (fun item => negb (number_eqb (MenuItem.id item) id))
         (getAllMenuItems s)
  /\ deleteMenuItem (snd r) id = (false, snd r).
Proof.
  intros Hr r. destruct (reachable_wf s Hr) as [_ [Um Km] _ _ _].
  subst r. unfold deleteMenuItem, getMenuItem, getAllMenuItems.
  pose proof (Map_delete_fst id (menuItems s)) as Hfst.
  pose proof (Map_get_delete_same id (menuItems s) Um) as Hsame.
  pose proof (fun id' => Map_get_delete_other id id' (menuItems s)) as Hother.
  pose proof (Map_delete_values MenuItem.id id (menuItems s) Um Km) as Hvals.
  destruct (Map_delete id (menuItems s)) as [b m]. cbn [fst snd menuItems] in *.
  split.
  { rewrite Hfst. destruct (Map_get id (menuItems s)); split; congruence. }
  split; [exact Hsame|]. split; [exact Hother|]. split; [exact Hvals|].
  now rewrite (Map_delete_absent id m Hsame).
Qed.

(** X4.  [deleteMenuItem] in a reachable store answers [true] exactly when
    [getMenuItem] found the id; afterwards [getMenuItem] on the id is
    not-found, every other id reads as before, [getAllMenuItems] lists the
    remaining items in the order they had, and deleting the same id again
    answers [false] and leaves the store as it is. *)
Theorem X4_deleteMenuItem_then_get s id :
  reachable s ->
  let r := deleteMenuItem s id in
  (fst r = true <-> getMenuItem s id <> None)
  /\ getMenuItem (snd r) id = None
  /\ (forall id', id' <> id -> getMenuItem (snd r) id' = getMenuItem s id')
  /\ getAllMenuItems (snd r)
     = filter (fun item => negb (number_eqb (MenuItem.id item) id))
         (getAllMenuItems s)
  /\ deleteMenuItem (snd r) id = (false, snd r).
Proof. exact (deleteMenuItem_effect s id). Qed.

Lemma X4_witness :
  reachable new_MemStorage
  /\ fst (deleteMenuItem new_MemStorage (num 3)) = true
  /\ getMenuItem (snd (deleteMenuItem new_MemStorage (num 3))) (num 3) = None
  /\ fst (deleteMenuItem new_MemStorage (num 30)) = false.
Proof.
  split; [apply reach_new|].
  destruct (X4_deleteMenuItem_then_get new_MemStorage (num 3) reach_new)
    as (H1 & H2 & _).
  split; [apply H1; vm_compute; discriminate|]. split; [exact H2|].
  destruct (X4_deleteMenuItem_then_get new_MemStorage (num 30) reach_new)
    as (H3 & _).
  destruct (fst (deleteMenuItem new_MemStorage (num 30))); [|reflexivity].
  exfalso. apply (proj1 H3 eq_refl). vm_compute. reflexivity.
Defined.

(** [{ ...existing, ...partial }], one field at a time. *)
Lemma merge_menuItem_twice e p :
  merge_menuItem (merge_menuItem e p) p = merge_menuItem e p.
Proof.
  destruct e, p as [[?|] [?|] [?|] [?|] [?|]]; reflexivity.
Qed.

(** X5.  [updateMenuItem(id, partial)].  When [id] names a stored item:
    the call returns the item with the same id in which every field given
    in [partial] has the new value and every other field its old one,
    stores it under [id], leaves every other menu item and the order of
    the listing alone, and leaves users, orders, order items and counters
    alone; a [partial] without fields changes nothing at all; applying the
    same [partial] twice is the same as applying it once.  When [id] names
    no item the call returns not-found and the store is unchanged. *)
Theorem X5_updateMenuItem_merges s id partial :
  (forall existing,
      getMenuItem s id = Some existing ->
      let r := updateMenuItem s id partial in
      let field {A : Type} (given : option A) (old : A) :=
        match given with Some x => x | None => old end in
      exists updated,
        fst r = Some updated
        /\ getMenuItem (snd r) id = Some updated
        /\ MenuItem.id updated = MenuItem.id existing
        /\ MenuItem.name updated
           = field (PartialMenuItem.name partial) (MenuItem.name existing)
        /\ MenuItem.description updated
           = field (PartialMenuItem.description partial)
               (MenuItem.description existing)
        /\ MenuItem.price updated
           = field (PartialMenuItem.price partial) (MenuItem.price existing)
        /\ MenuItem.imageUrl updated
           = field (PartialMenuItem.imageUrl partial)
               (MenuItem.imageUrl existing)
        /\ MenuItem.category updated
           = field (PartialMenuItem.category partial)
               (MenuItem.category existing)
        /\ (forall id', id' <> id ->
                        getMenuItem (snd r) id' = getMenuItem s id')
        /\ Map_keys (menuItems (snd r)) = Map_keys (menuItems s)
        /\ (users (snd r), orders (snd r), orderItems (snd r))
           = (users s, orders s, orderItems s)
        /\ (userIdCounter (snd r), menuItemIdCounter (snd r),
            orderIdCounter (snd r), orderItemIdCounter (snd r))
           = (userIdCounter s, menuItemIdCounter s, orderIdCounter s,
              orderItemIdCounter s)
        /\ (partial = PartialMenuItem.mk None None None None None ->
            r = (Some existing, s))
        /\ updateMenuItem (snd r) id partial = r)
  /\ (getMenuItem s id = None -> updateMenuItem s id partial = (None, s)).
Proof.
  unfold getMenuItem. split.
  - intros existing Hget. cbv zeta. unfold updateMenuItem. rewrite Hget.
    cbn [fst snd menuItems users orders orderItems userIdCounter
           menuItemIdCounter orderIdCounter orderItemIdCounter].
    exists (merge_menuItem existing partial).
    split; [reflexivity|]. split; [apply Map_get_set_same|].
    do 6 (split; [reflexivity|]).
    split; [intros id' Hne; now apply Map_get_set_other|].
    split; [apply Map_keys_set_present; congruence|].
    split; [reflexivity|]. split; [reflexivity|]. split.
    + intros ->.
      assert (E : merge_menuItem existing
                    (PartialMenuItem.mk None None None None None) = existing)
        by now destruct existing.
      rewrite E, (Map_set_same id existing _ Hget). now destruct s.
    + rewrite Map_get_set_same, merge_menuItem_twice, Map_set_set. reflexivity.
  - intros Hget. unfold updateMenuItem. now rewrite Hget.
Qed.

Lemma X5_witness :
  (exists updated,
      fst (updateMenuItem new_MemStorage (num 6) cheaper) = Some updated
      /\ MenuItem.price updated = num 99
      /\ MenuItem.name updated = "Cafe Latte")
  /\ updateMenuItem new_MemStorage (num 60) cheaper = (None, new_MemStorage).
Proof.
  split.
  - destruct (proj1 (X5_updateMenuItem_merges new_MemStorage (num 6) cheaper)
                (MenuItem.mk (num 6) "Cafe Latte"
                   "Espresso with steamed milk and a light layer of foam."
                   (num 179)
                   "https://images.unsplash.com/photo-1541167760496-1628856ab772?ixlib=rb-4.0.3&auto=format&fit=crop&w=800&h=500"
                   "beverage"))
      as (updated & H1 & _ & _ & H2 & _ & H3 & _).
    + vm_compute. reflexivity.
    + exists updated. repeat split; assumption.
  - apply (proj2 (X5_updateMenuItem_merges new_MemStorage (num 60) cheaper)).
    vm_compute. reflexivity.
Defined.

(** ** [parseInt] on the decimal form of an id *)

Lemma digits_stops rest acc : stops rest -> digits 10 rest acc = acc.
Proof.
  destruct rest as [|c r]; simpl; [reflexivity|]. now intros [-> _].
Qed.

Lemma digits_cons c r acc v :
  digit_of 10 c = Some v ->
  digits 10 (String c r) (Some acc) = digits 10 r (Some (10 * acc + v)%Z).
Proof. intros H. cbn [digits]. now rewrite H. Qed.

Lemma digits_first c r v :
  digit_of 10 c = Some v ->
  digits 10 (String c r) None = digits 10 r (Some v).
Proof. intros H. cbn [digits]. rewrite H. do 2 f_equal. Qed.

Lemma digits_string_of_uint d rest :
  stops rest ->
  forall a,
    digits 10 (NilEmpty.string_of_uint d ++ rest) (Some (Z.of_nat a))
    = Some (Z.of_nat (Nat.of_uint_acc d a)).
Proof.
  intros Hrest. induction d; intros a;
    cbn [NilEmpty.string_of_uint String.append Nat.of_uint_acc];
    try (now apply digits_stops);
    erewrite digits_cons by (vm_compute; reflexivity);
    rewrite Nat.tail_mul_spec, <- IHd; do 2 f_equal; lia.
Qed.

Lemma digits_decimal d rest :
  d <> Decimal.Nil -> stops rest ->
  digits 10 (NilEmpty.string_of_uint d ++ rest) None
  = Some (Z.of_nat (Nat.of_uint d)).
Proof.
  intros Hd Hrest. destruct d; [congruence|..];
    cbn [NilEmpty.string_of_uint String.append];
    erewrite digits_first by (vm_compute; reflexivity).
  - exact (digits_string_of_uint d rest Hrest 0).
  - exact (digits_string_of_uint d rest Hrest 1).
  - exact (digits_string_of_uint d rest Hrest 2).
  - exact (digits_string_of_uint d rest Hrest 3).
  - exact (digits_string_of_uint d rest Hrest 4).
  - exact (digits_string_of_uint d rest Hrest 5).
  - exact (digits_string_of_uint d rest Hrest 6).
  - exact (digits_string_of_uint d rest Hrest 7).
  - exact (digits_string_of_uint d rest Hrest 8).
  - exact (digits_string_of_uint d rest Hrest 9).
Qed.

(** After a leading [0], only [x] and [X] change the radix. *)
Lemma parseInt_zero_then c r :
  c <> "x"%char -> c <> "X"%char ->
  parseInt (String "0" (String c r))
  = match digits 10 (String "0" (String c r)) None with
    | Some m => Some (num (1 * m))
    | None => None
    end.
Proof.
  intros Hx HX. destruct c as [b0 b1 b2 b3 b4 b5 b6 b7].
  destruct b0, b1, b2, b3, b4, b5, b6, b7; try reflexivity; congruence.
Qed.

(** A string of decimal digits, followed by something that is neither a
    digit nor [x], is read in radix 10 with sign [+]. *)
Lemma parseInt_radix_10 d rest :
  d <> Decimal.Nil -> stops rest ->
  parseInt (NilEmpty.string_of_uint d ++ rest)
  = match digits 10 (NilEmpty.string_of_uint d ++ rest) None with
    | Some m => Some (num (1 * m))
    | None => None
    end.
Proof.
  intros Hd Hrest. destruct d as [|d|d|d|d|d|d|d|d|d|d]; [congruence|..];
    try reflexivity.
  destruct d; try reflexivity.
  cbn [NilEmpty.string_of_uint String.append].
  destruct rest as [|c r]; [reflexivity|].
  destruct Hrest as (_ & Hx & HX). now apply parseInt_zero_then.
Qed.

Lemma to_uint_not_Nil n : Nat.to_uint n <> Decimal.Nil.
Proof.
  intros E. pose proof (Unsigned.of_to n) as H.
  rewrite E in H. cbn in H. subst n. discriminate E.
Qed.

Lemma parseInt_decimal_rest n rest :
  stops rest -> parseInt (decimal n ++ rest) = Some (num (Z.of_nat n)).
Proof.
  intros Hrest. unfold decimal.
  rewrite parseInt_radix_10, digits_decimal
    by (assumption || apply to_uint_not_Nil).
  now rewrite Z.mul_1_l, Unsigned.of_to.
Qed.

Lemma parseInt_decimal n : parseInt (decimal n) = Some (num (Z.of_nat n)).
Proof.
  rewrite <- (parseInt_decimal_rest n "") by exact I.
  f_equal. generalize (decimal n). induction s; simpl; congruence.
Qed.

(** X6.  A path parameter is read as its decimal prefix.  For a natural
    number [n] up to 2^53 (where every integer is a double), the digits of
    [n] followed by any text that starts with something other than a
    digit, [x] or [X] are read by [parseInt] as [n].  So the five routes
    with an [:id] do not turn such a path down as malformed: for the
    parameter [12abc] each of them answers, and leaves the store, exactly
    as for the parameter [12]. *)
Theorem X6_path_id_is_its_decimal_prefix s req n rest :
  (Z.of_nat n <= 2 ^ 53)%Z ->
  stops rest ->
  let id := decimal n in
  let path := (decimal n ++ rest)%string in
  parseInt path = Some (num (Z.of_nat n))
  /\ get_menu_item s path = get_menu_item s id
  /\ put_menu s (with_id req path) = put_menu s (with_id req id)
  /\ delete_menu s (with_id req path) = delete_menu s (with_id req id)
  /\ get_order s (with_id req path) = get_order s (with_id req id)
  /\ patch_order_status s (with_id req path)
     = patch_order_status s (with_id req id).
Proof.
  intros _ Hrest id path.
  assert (E : parseInt path = parseInt id).
  { subst id path. now rewrite parseInt_decimal, parseInt_decimal_rest. }
  split; [now apply parseInt_decimal_rest|].
  unfold get_menu_item, put_menu, delete_menu, isAdmin_menu, get_order,
    isAuthenticated, patch_order_status, patch_order_status_try, isAdmin.
  cbn [with_id req_user req_params_id req_body]. rewrite E.
  repeat split; reflexivity.
Qed.

Lemma X6_witness :
  (Z.of_nat 12 <= 2 ^ 53)%Z
  /\ stops "abc"
  /\ parseInt "12abc" = Some (num 12)
  /\ get_menu_item new_MemStorage "12abc" = get_menu_item new_MemStorage "12"
  /\ get_order one_order_store (read_order customer "1abc")
     = get_order one_order_store (read_order customer "1").
Proof.
  assert (H : stops "abc").
  { split; [reflexivity|]. split; discriminate. }
  assert (B12 : (Z.of_nat 12 <= 2 ^ 53)%Z) by (vm_compute; discriminate).
  assert (B1 : (Z.of_nat 1 <= 2 ^ 53)%Z) by (vm_compute; discriminate).
  split; [exact B12|]. split; [exact H|].
  split;
    [exact (proj1 (X6_path_id_is_its_decimal_prefix new_MemStorage
                     (read_order customer "") 12 "abc" B12 H))|].
  split;
    [exact (proj1 (proj2 (X6_path_id_is_its_decimal_prefix new_MemStorage
                            (read_order customer "") 12 "abc" B12 H)))|].
  exact (proj1 (proj2 (proj2 (proj2 (proj2
           (X6_path_id_is_its_decimal_prefix one_order_store
              (read_order customer "") 1 "abc" B1 H)))))).
Defined.

(** ** Counters hold natural numbers *)

Lemma incr_num z : incr (num z) = num (z + 1).
Proof.
  unfold incr, num. apply Qc_is_canon. unfold Qcplus, Q2Qc. cbn [this].
  rewrite !Qred_correct, inject_Z_plus. reflexivity.
Qed.

Lemma is_id_incr x : is_id x -> is_id (incr x).
Proof.
  intros [n ->]. exists (S n). rewrite incr_num. f_equal. lia.
Qed.

Lemma add_order_items_is_id id items :
  forall counter m,
    is_id counter -> is_id (fst (add_order_items id items counter m)).
Proof.
  induction items as [|item rest IH]; intros counter m Hc; simpl; [exact Hc|].
  apply IH. now apply is_id_incr.
Qed.

Lemma exec_counters_nat s c : counters_nat s -> counters_nat (exec s c).
Proof.
  intros (Hu & Hm & Ho & Hi). unfold counters_nat.
  destruct (exec_counters s c) as (-> & -> & -> & ->).
  destruct c; repeat split; auto using is_id_incr, add_order_items_is_id.
Qed.

Lemma reachable_counters_nat s : reachable s -> counters_nat s.
Proof.
  induction 1 as [|s c _ IH]; [|now apply exec_counters_nat].
  rewrite new_MemStorage_run.
  assert (H : forall cs st, counters_nat st -> counters_nat (run st cs)).
  { induction cs as [|c cs IHcs]; intros st Hst; [exact Hst|].
    apply IHcs. now apply exec_counters_nat. }
  apply H. repeat split; exists 1%nat; reflexivity.
Qed.

(** ** The order routes *)

Lemma post_orders_rejected s now req :
  res_status (fst (post_orders s now req)) <> 201%Z ->
  snd (post_orders s now req) = s.
Proof.
  unfold post_orders, isAuthenticated.
  destruct (req_user req) as [user|]; [|reflexivity].
  unfold post_orders_try.
  destruct (member (req_body req) "orderDetails") as [orderDetails|e];
    cbn [bind]; [|destruct e; reflexivity].
  destruct (member (req_body req) "cartItems") as [cartItems|e];
    cbn [bind]; [|destruct e; reflexivity].
  destruct (if truthy cartItems then as_array cartItems else None)
    as [cart|]; [|reflexivity].
  destruct (List.length cart =? 0)%nat; [reflexivity|].
  destruct (insertOrderSchema_parse _) as [validated|e];
    cbn [bind]; [|destruct e; reflexivity].
  destruct (mapM _ cart) as [orderItems|e];
    cbn [bind]; [|destruct e; reflexivity].
  destruct (createOrder s now validated orderItems). cbn. congruence.
Qed.

Lemma post_orders_status s now req :
  In (res_status (fst (post_orders s now req))) [201; 400; 401; 500]%Z.
Proof.
  unfold post_orders, isAuthenticated.
  destruct (req_user req) as [user|]; [|cbn; tauto].
  unfold post_orders_try.
  destruct (member (req_body req) "orderDetails") as [orderDetails|e];
    cbn [bind]; [|destruct e; cbn; tauto].
  destruct (member (req_body req) "cartItems") as [cartItems|e];
    cbn [bind]; [|destruct e; cbn; tauto].
  destruct (if truthy cartItems then as_array cartItems else None)
    as [cart|]; [|cbn; tauto].
  destruct (List.length cart =? 0)%nat; [cbn; tauto|].
  destruct (insertOrderSchema_parse _) as [validated|e];
    cbn [bind]; [|destruct e; cbn; tauto].
  destruct (mapM _ cart) as [orderItems|e];
    cbn [bind]; [|destruct e; cbn; tauto].
  destruct (createOrder s now validated orderItems). cbn. tauto.
Qed.

(** X7.  [POST /api/orders] answers [201], [400], [401] or [500], and it
    writes to the store only when it answers [201]: every other answer
    leaves the store as it was.  On [201] the new order is stamped with
    the current time and has no [status] (whatever [orderDetails] said:
    the schema has no such key and [createOrder] sets none), it is listed
    last among the stored orders, and users, menu and their counters are
    untouched. *)
Theorem X7_post_orders_writes_only_on_201 s now req :
  let r := post_orders s now req in
  In (res_status (fst r)) [201; 400; 401; 500]%Z
  /\ (res_status (fst r) <> 201%Z -> snd r = s)
  /\ (res_status (fst r) = 201%Z ->
      exists order,
        fst r = mkRes 201 (JsonOrder order)
        /\ Order.status order = None
        /\ Order.createdAt order = now
        /\ Order.id order = orderIdCounter s
        /\ orders (snd r) = Map_set (Order.id order) order (orders s)
        /\ (users (snd r), menuItems (snd r), userIdCounter (snd r),
            menuItemIdCounter (snd r))
           = (users s, menuItems s, userIdCounter s, menuItemIdCounter s)).
Proof.
  intros r. subst r. split; [apply post_orders_status|].
  split; [apply post_orders_rejected|].
  intros Ha. destruct (accepted_created s now req Ha)
    as (user & validated & orderItems & _ & _ & _ & Hpost).
  rewrite Hpost, createOrder_eq. cbv zeta. cbn [fst snd].
  eexists. split; [reflexivity|]. repeat split.
Qed.

Lemma patch_order_status_frame s req :
  let r := patch_order_status s req in
  (res_status (fst r) <> 200%Z -> snd r = s)
  /\ (users (snd r), menuItems (snd r), orderItems (snd r))
     = (users s, menuItems s, orderItems s)
  /\ (userIdCounter (snd r), menuItemIdCounter (snd r), orderIdCounter (snd r),
      orderItemIdCounter (snd r))
     = (userIdCounter s, menuItemIdCounter s, orderIdCounter s,
        orderItemIdCounter s)
  /\ Map_keys (orders (snd r)) = Map_keys (orders s).
Proof.
  cbv zeta. unfold patch_order_status, isAdmin.
  destruct (req_user req) as [user|]; [|repeat split].
  destruct (User.isAdmin user) as [[|]|]; try (repeat split; fail).
  unfold patch_order_status_try.
  destruct (member (req_body req) "status") as [status|e];
    cbn [bind]; [|repeat split].
  destruct (parseInt (req_params_id req)) as [id|]; [|repeat split].
  destruct (if truthy status then typeof_string status else None) as [st|];
    [|repeat split].
  destruct (negb (includes statuses st)); [repeat split|].
  unfold updateOrderStatus.
  destruct (Map_get id (orders s)) as [order|] eqn:E; [|repeat split].
  cbn. split; [congruence|]. split; [reflexivity|]. split; [reflexivity|].
  apply Map_keys_set_present. congruence.
Qed.

(** X8.  [PATCH /api/orders/:id/status] writes to the store only when it
    answers [200]; whatever the answer, users, menu items, order items and
    all counters are as before and the orders are the same ones in the
    same listing order.  A caller who is not an admin gets [403].  For an
    admin whose body can be read: an id that [parseInt] cannot read gives
    [400 Invalid ID] even with a good status, and a good status for an id
    that names no order gives [404 Order not found]. *)
Theorem X8_patch_writes_only_on_200 s req :
  let r := patch_order_status s req in
  (res_status (fst r) <> 200%Z -> snd r = s)
  /\ (users (snd r), menuItems (snd r), orderItems (snd r))
     = (users s, menuItems s, orderItems s)
  /\ (userIdCounter (snd r), menuItemIdCounter (snd r), orderIdCounter (snd r),
      orderItemIdCounter (snd r))
     = (userIdCounter s, menuItemIdCounter s, orderIdCounter s,
        orderItemIdCounter s)
  /\ Map_keys (orders (snd r)) = Map_keys (orders s)
  /\ ((forall user, req_user req = Some user -> is_admin user = false) ->
      r = (mkRes 403 (Message "Forbidden - Admin access required"), s))
  /\ (forall user status,
         req_user req = Some user -> is_admin user = true ->
         member (req_body req) "status" = Ok status ->
         (parseInt (req_params_id req) = None ->
          r = (mkRes 400 (Message "Invalid ID"), s))
         /\ (forall id st,
                parseInt (req_params_id req) = Some id ->
                status = VStr st -> In st statuses ->
                Map_get id (orders s) = None ->
                r = (mkRes 404 (Message "Order not found"), s))).
Proof.
  intros r. destruct (patch_order_status_frame s req) as (H1 & H2 & H3 & H4).
  fold r in H1, H2, H3, H4.
  do 4 (split; [assumption|]). subst r. split.
  - intros Hna. unfold patch_order_status, isAdmin.
    destruct (req_user req) as [user|]; [|reflexivity].
    specialize (Hna user eq_refl). unfold is_admin in Hna.
    destruct (User.isAdmin user) as [[|]|]; [discriminate|reflexivity..].
  - intros user status Hu Hadm Hst.
    unfold patch_order_status, isAdmin. rewrite Hu.
    unfold is_admin in Hadm.
    destruct (User.isAdmin user) as [[|]|]; try discriminate.
    unfold patch_order_status_try. rewrite Hst. cbn [bind]. split.
    + now intros ->.
    + intros id st -> -> Hin Hget. cbn [truthy typeof_string].
      assert (Hne : String.eqb st "" = false).
      { destruct st; [|reflexivity].
        destruct Hin as [H|[H|[H|[H|[]]]]]; discriminate. }
      rewrite Hne. cbn [negb].
      apply includes_In in Hin. rewrite Hin. cbn [negb].
      unfold updateOrderStatus. now rewrite Hget.
Qed.

Lemma X8_witness :
  patch_order_status one_order_store
    (mkReq (Some customer) "1" (VObj [("status", VStr "ready")]))
  = (mkRes 403 (Message "Forbidden - Admin access required"), one_order_store)
  /\ patch_order_status one_order_store
       (mkReq (Some admin) "one" (VObj [("status", VStr "ready")]))
     = (mkRes 400 (Message "Invalid ID"), one_order_store)
  /\ patch_order_status one_order_store
       (mkReq (Some admin) "7" (VObj [("status", VStr "ready")]))
     = (mkRes 404 (Message "Order not found"), one_order_store).
Proof.
  split; [|split].
  - pose proof (X8_patch_writes_only_on_200 one_order_store
                  (mkReq (Some customer) "1" (VObj [("status", VStr "ready")])))
      as H.
    cbv zeta in H. destruct H as (_ & _ & _ & _ & H & _). apply H.
    intros user E. injection E as <-. reflexivity.
  - pose proof (X8_patch_writes_only_on_200 one_order_store
                  (mkReq (Some admin) "one" (VObj [("status", VStr "ready")])))
      as H.
    cbv zeta in H. destruct H as (_ & _ & _ & _ & _ & H).
    apply (H admin (VStr "ready")); reflexivity.
  - pose proof (X8_patch_writes_only_on_200 one_order_store
                  (mkReq (Some admin) "7" (VObj [("status", VStr "ready")])))
      as H.
    cbv zeta in H. destruct H as (_ & _ & _ & _ & _ & H).
    apply (proj2 (H admin (VStr "ready") eq_refl eq_refl eq_refl)
             (num 7) "ready").
    + reflexivity.
    + reflexivity.
    + cbn. tauto.
    + vm_compute. reflexivity.
Defined.

Lemma getOrdersByUserId_In s userId order :
  In order (getOrdersByUserId s userId)
  <-> In order (Map_values (orders s)) /\ Order.userId order = userId.
Proof.
  unfold getOrdersByUserId. split.
  - intros H. apply (Permutation_in _ (Array_sort_perm newest_first _)) in H.
    apply filter_In in H. now rewrite number_eqb_eq in H.
  - intros H.
    apply (Permutation_in _ (Permutation_sym (Array_sort_perm newest_first _))).
    apply filter_In. now rewrite number_eqb_eq.
Qed.

Lemma getAllOrders_In s order :
  In order (getAllOrders s) <-> In order (Map_values (orders s)).
Proof.
  unfold getAllOrders. split; apply Permutation_in;
    [|symmetry]; apply Array_sort_perm.
Qed.

(** X9.  [GET /api/orders] never writes to the store.  Without a session
    it answers [401].  Otherwise it answers [200] with orders listed
    newest first: for an admin every stored order, for anyone else exactly
    the stored orders whose [userId] is the caller's id, so a customer is
    never shown an order of another user. *)
Theorem X9_get_orders_scoped_by_role s req :
  snd (get_orders s req) = s
  /\ (req_user req = None ->
      fst (get_orders s req) = mkRes 401 (Message "Unauthorized"))
  /\ (forall user,
         req_user req = Some user ->
         exists listed,
           fst (get_orders s req) = mkRes 200 (JsonOrders listed)
           /\ newest_first_sorted listed
           /\ (forall order,
                  In order listed
                  <-> In order (Map_values (orders s))
                      /\ (is_admin user = true
                          \/ Order.userId order = User.id user))
           /\ (is_admin user = false ->
               Forall (fun order => Order.userId order = User.id user) listed)).
Proof.
  unfold get_orders, isAuthenticated.
  destruct (req_user req) as [user|].
  - split; [reflexivity|]. split; [discriminate|].
    intros u H. injection H as <-. cbn [fst].
    destruct (is_admin user) eqn:E.
    + exists (getAllOrders s). split; [reflexivity|].
      split; [apply Array_sort_newest_first|]. split; [|discriminate].
      intros o. rewrite getAllOrders_In. tauto.
    + exists (getOrdersByUserId s (User.id user)). split; [reflexivity|].
      split; [apply Array_sort_newest_first|]. split.
      * intros o. rewrite getOrdersByUserId_In.
        split; [tauto|]. intros [H [H'|H']]; [discriminate|tauto].
      * intros _. apply Forall_forall. intros o Ho.
        now apply getOrdersByUserId_In in Ho.
  - split; [reflexivity|]. split; [reflexivity|]. discriminate.
Qed.

(** X10.  [GET /api/orders/:id] never writes to the store, and for a
    caller with a session: it answers [400] exactly when [parseInt] cannot
    read the id, [404] exactly when the id names no order, [403] exactly
    when the order exists, the caller is not an admin and the order's
    [userId] is not the caller's id, and otherwise [200] with the order
    and its items.  So the order in a [200] answer belongs to the caller
    unless the caller is an admin. *)
Theorem X10_get_order_access_control s req user :
  req_user req = Some user ->
  let r := get_order s req in
  let found := fun id => getOrderWithItems s id in
  let foreign := fun order : Order.t =>
    is_admin user = false /\ Order.userId order <> User.id user in
  snd r = s
  /\ (res_status (fst r) = 400%Z <-> parseInt (req_params_id req) = None)
  /\ (res_status (fst r) = 404%Z
      <-> exists id, parseInt (req_params_id req) = Some id /\ found id = None)
  /\ (res_status (fst r) = 403%Z
      <-> exists id order items,
            parseInt (req_params_id req) = Some id
            /\ found id = Some (order, items) /\ foreign order)
  /\ (forall order items,
         fst r = mkRes 200 (JsonOrderWithItems order items)
         <-> exists id,
               parseInt (req_params_id req) = Some id
               /\ found id = Some (order, items) /\ ~ foreign order).
Proof.
  intros Hu. cbv zeta. unfold get_order, isAuthenticated. rewrite Hu.
  destruct (parseInt (req_params_id req)) as [id|].
  2: { cbn. split; [reflexivity|]. split; [tauto|].
       split; [split; [discriminate|intros (? & ? & _); discriminate]|].
       split; [split; [discriminate|intros (? & ? & ? & ? & _); discriminate]|].
       intros o its. split; [discriminate|intros (? & ? & _); discriminate]. }
  destruct (getOrderWithItems s id) as [[order items]|] eqn:E.
  2: { cbn. split; [reflexivity|]. split; [split; discriminate|].
       split; [split; [eauto|reflexivity]|].
       split; [split; [discriminate|]|].
       - intros (id' & o & its & H & H' & _). injection H as <-. congruence.
       - intros o its. split; [discriminate|].
         intros (id' & H & H' & _). injection H as <-. congruence. }
  assert (Hdec : (negb (is_admin user)
                  && negb (number_eqb (Order.userId order) (User.id user)))
                 = true
                 <-> is_admin user = false
                     /\ Order.userId order <> User.id user).
  { rewrite andb_true_iff, !negb_true_iff. split; intros [H1 H2]; split; auto.
    - intros Heq. apply number_eqb_eq in Heq. congruence.
    - now apply number_eqb_neq. }
  destruct (negb (is_admin user)
            && negb (number_eqb (Order.userId order) (User.id user))) eqn:Ef;
    cbn [fst snd res_status].
  - apply proj1 in Hdec. specialize (Hdec eq_refl).
    split; [reflexivity|]. split; [split; discriminate|].
    split; [split; [discriminate|]|].
    { intros (id' & H & H'). injection H as <-. congruence. }
    split; [split; [eauto 6|reflexivity]|].
    intros o its. split; [discriminate|].
    intros (id' & H & H' & Hn). injection H as <-.
    rewrite E in H'. injection H' as <- <-. contradiction.
  - assert (Hn : ~ (is_admin user = false
                    /\ Order.userId order <> User.id user)).
    { intros H. apply Hdec in H. discriminate. }
    split; [reflexivity|]. split; [split; discriminate|].
    split; [split; [discriminate|]|].
    { intros (id' & H & H'). injection H as <-. congruence. }
    split; [split; [discriminate|]|].
    { intros (id' & o & its & H & H' & Hf). injection H as <-.
      rewrite E in H'. injection H' as <- <-. contradiction. }
    intros o its. split.
    + intros H. injection H as <- <-. eauto.
    + intros (id' & H & H' & _). injection H as <-.
      rewrite E in H'. now injection H' as <- <-.
Qed.

Lemma X10_witness :
  req_user (read_order other_customer "1") = Some other_customer
  /\ res_status (fst (get_order placed_store (read_order other_customer "1")))
     = 403%Z
  /\ res_status (fst (get_order placed_store (read_order customer "1")))
     = 200%Z.
Proof.
  split; [reflexivity|]. split.
  - pose proof (X10_get_order_access_control placed_store
                  (read_order other_customer "1") other_customer eq_refl) as H.
    cbv zeta in H. destruct H as (_ & _ & _ & H & _). apply H.
    eexists. eexists. eexists. split; [reflexivity|].
    split; [vm_compute; reflexivity|]. split; [reflexivity|].
    cbn. intros E. apply (f_equal this) in E. vm_compute in E. discriminate.
  - vm_compute. reflexivity.
Defined.

(** What an accepted request creates, as the read routes find it. *)
Lemma accepted_order s now req user :
  reachable s ->
  req_user req = Some user ->
  accepted s now req ->
  exists order items n,
    post_orders s now req
    = (mkRes 201 (JsonOrder order), snd (post_orders s now req))
    /\ Order.id order = num (Z.of_nat n)
    /\ Order.userId order = User.id user
    /\ items <> []
    /\ getOrderWithItems (snd (post_orders s now req)) (Order.id order)
       = Some (order, items).
Proof.
  intros Hr Hu Ha.
  destruct (accepted_created s now req Ha)
    as (user' & validated & orderItems & Hu' & Hne & Hp & Hpost).
  assert (user' = user) as -> by congruence.
  destruct (createOrder_then_get s now validated orderItems
              (reachable_inv s Hr)) as (_ & its & Hget & Hlen & _).
  destruct (reachable_counters_nat s Hr) as (_ & _ & [n Hn] & _).
  exists (fst (createOrder s now validated orderItems)), its, n.
  rewrite Hpost. cbn [fst snd]. split; [reflexivity|].
  split; [rewrite createOrder_eq; exact Hn|]. split.
  - apply insertOrderSchema_parse_Ok in Hp. destruct Hp as (Hid & _).
    rewrite obj_get_set_same in Hid.
    rewrite createOrder_eq. cbv zeta. cbn [fst Order.userId]. congruence.
  - split; [|exact Hget].
    intros ->. destruct orderItems; [congruence|discriminate].
Qed.

(** X11.  An order placed through [POST /api/orders] in a reachable store
    can be read back through [GET /api/orders/:id] with the decimal form
    of its id: the customer who placed it and every admin get [200] with
    that very order and its items (at least one), and any other customer
    gets [403 Access denied]. *)
Theorem X11_placed_order_can_be_read_back s now req user :
  reachable s ->
  req_user req = Some user ->
  accepted s now req ->
  let s' := snd (post_orders s now req) in
  exists order items n,
    fst (post_orders s now req) = mkRes 201 (JsonOrder order)
    /\ Order.id order = num (Z.of_nat n)
    /\ items <> []
    /\ forall read who,
         req_user read = Some who ->
         req_params_id read = decimal n ->
         get_order s' read
         = if is_admin who || number_eqb (User.id who) (User.id user)
           then (mkRes 200 (JsonOrderWithItems order items), s')
           else (mkRes 403 (Message "Access denied"), s').
Proof.
  intros Hr Hu Ha s'.
  destruct (accepted_order s now req user Hr Hu Ha)
    as (order & items & n & Hpost & Hid & Huid & Hne & Hget).
  exists order, items, n. rewrite Hpost at 1. cbn [fst].
  split; [reflexivity|]. split; [exact Hid|]. split; [exact Hne|].
  intros read who Hwho Hparam. unfold get_order, isAuthenticated.
  rewrite Hwho, Hparam, parseInt_decimal, <- Hid. fold s' in Hget.
  rewrite Hget, Huid.
  destruct (is_admin who); cbn [negb andb orb]; [reflexivity|].
  destruct (number_eqb (User.id who) (User.id user)) eqn:E.
  - apply number_eqb_eq in E. rewrite E, number_eqb_refl. reflexivity.
  - rewrite number_eqb_neq; [reflexivity|].
    intros E'. rewrite E', number_eqb_refl in E. discriminate.
Qed.

Lemma X11_witness :
  reachable new_MemStorage
  /\ req_user forged_request = Some customer
  /\ accepted new_MemStorage 1000 forged_request
  /\ exists order items n,
       fst (post_orders new_MemStorage 1000 forged_request)
       = mkRes 201 (JsonOrder order)
       /\ Order.id order = num (Z.of_nat n)
       /\ items <> []
       /\ forall read who,
            req_user read = Some who ->
            req_params_id read = decimal n ->
            get_order placed_store read
            = if is_admin who || number_eqb (User.id who) (User.id customer)
              then (mkRes 200 (JsonOrderWithItems order items), placed_store)
              else (mkRes 403 (Message "Access denied"), placed_store).
Proof.
  split; [apply reach_new|]. split; [reflexivity|].
  split; [exact forged_request_accepted|].
  exact (X11_placed_order_can_be_read_back new_MemStorage 1000 forged_request
           customer reach_new eq_refl forged_request_accepted).
Defined.

(** ** The menu routes *)

Lemma isAdmin_menu_forbidden req s next :
  (forall user, req_user req = Some user -> is_admin user = false) ->
  isAdmin_menu req s next
  = (mkMenuRes 403 (MenuMessage "Forbidden - Admin access required"), s).
Proof.
  intros Hna. unfold isAdmin_menu.
  destruct (req_user req) as [user|]; [|reflexivity].
  specialize (Hna user eq_refl). unfold is_admin in Hna.
  destruct (User.isAdmin user) as [[|]|]; [discriminate|reflexivity..].
Qed.

Lemma isAdmin_menu_admin req s next user :
  req_user req = Some user -> is_admin user = true ->
  isAdmin_menu req s next = next user.
Proof.
  intros Hu Ha. unfold isAdmin_menu. rewrite Hu. unfold is_admin in Ha.
  destruct (User.isAdmin user) as [[|]|]; [reflexivity|discriminate..].
Qed.

Lemma post_menu_frame s req :
  (menu_status (fst (post_menu s req)) <> 201%Z -> snd (post_menu s req) = s)
  /\ outside_menu (snd (post_menu s req)) = outside_menu s.
Proof.
  unfold post_menu, isAdmin_menu.
  destruct (req_user req) as [user|]; [|split; reflexivity].
  destruct (User.isAdmin user) as [[|]|]; try (split; reflexivity).
  destruct (insertMenuItemSchema_parse (req_body req)) as [v|[e|]];
    cbn; split; try reflexivity; congruence.
Qed.

Lemma put_menu_frame s req :
  (menu_status (fst (put_menu s req)) <> 200%Z -> snd (put_menu s req) = s)
  /\ outside_menu (snd (put_menu s req)) = outside_menu s.
Proof.
  unfold put_menu, isAdmin_menu.
  destruct (req_user req) as [user|]; [|split; reflexivity].
  destruct (User.isAdmin user) as [[|]|]; try (split; reflexivity).
  destruct (parseInt (req_params_id req)) as [id|]; [|split; reflexivity].
  destruct (insertMenuItemSchema_partial_parse (req_body req)) as [v|[e|]];
    [|split; reflexivity..].
  unfold updateMenuItem. destruct (Map_get id (menuItems s));
    cbn; split; try reflexivity; congruence.
Qed.

Lemma delete_menu_frame s req :
  (menu_status (fst (delete_menu s req)) <> 204%Z ->
   snd (delete_menu s req) = s)
  /\ outside_menu (snd (delete_menu s req)) = outside_menu s.
Proof.
  unfold delete_menu, isAdmin_menu.
  destruct (req_user req) as [user|]; [|split; reflexivity].
  destruct (User.isAdmin user) as [[|]|]; try (split; reflexivity).
  destruct (parseInt (req_params_id req)) as [id|]; [|split; reflexivity].
  unfold deleteMenuItem.
  pose proof (Map_delete_fst id (menuItems s)) as Hf.
  destruct (Map_get id (menuItems s)) eqn:E.
  - destruct (Map_delete id (menuItems s)) as [b m]. cbn in Hf. subst b.
    cbn. split; [congruence|reflexivity].
  - rewrite (Map_delete_absent id _ E). cbn. split; [|reflexivity].
    intros _. now destruct s.
Qed.

(** X12.  The menu write routes are for admins only and write nothing
    unless they succeed.  A caller without a session or without the admin
    flag gets [403] from [POST /api/menu], [PUT /api/menu/:id] and
    [DELETE /api/menu/:id].  Whoever calls: the store is left as it was
    unless the answer is [201], [200], [204] respectively, and in every
    case users, orders, order items and their counters are untouched. *)
Theorem X12_menu_writes_are_admin_only s req :
  ((forall user, req_user req = Some user -> is_admin user = false) ->
   let forbidden :=
     (mkMenuRes 403 (MenuMessage "Forbidden - Admin access required"), s) in
   post_menu s req = forbidden /\ put_menu s req = forbidden
   /\ delete_menu s req = forbidden)
  /\ (menu_status (fst (post_menu s req)) <> 201%Z -> snd (post_menu s req) = s)
  /\ (menu_status (fst (put_menu s req)) <> 200%Z -> snd (put_menu s req) = s)
  /\ (menu_status (fst (delete_menu s req)) <> 204%Z ->
      snd (delete_menu s req) = s)
  /\ outside_menu (snd (post_menu s req)) = outside_menu s
  /\ outside_menu (snd (put_menu s req)) = outside_menu s
  /\ outside_menu (snd (delete_menu s req)) = outside_menu s.
Proof.
  destruct (post_menu_frame s req) as [P1 P2].
  destruct (put_menu_frame s req) as [U1 U2].
  destruct (delete_menu_frame s req) as [D1 D2].
  split; [|repeat split; assumption].
  intros Hna. cbv zeta. unfold post_menu, put_menu, delete_menu.
  now rewrite !isAdmin_menu_forbidden.
Qed.

Lemma X12_witness :
  post_menu new_MemStorage (menu_request (Some customer) "" tea_body)
  = (mkMenuRes 403 (MenuMessage "Forbidden - Admin access required"),
     new_MemStorage)
  /\ delete_menu new_MemStorage (menu_request None "1" VUndefined)
     = (mkMenuRes 403 (MenuMessage "Forbidden - Admin access required"),
        new_MemStorage).
Proof.
  split.
  - apply (proj1 (X12_menu_writes_are_admin_only new_MemStorage
                    (menu_request (Some customer) "" tea_body))).
    intros user E. injection E as <-. reflexivity.
  - apply (proj1 (X12_menu_writes_are_admin_only new_MemStorage
                    (menu_request None "1" VUndefined))).
    intros user E. discriminate E.
Defined.

(** X13.  A menu item created by an admin through [POST /api/menu] in a
    reachable store can be fetched at once: the answer is [201] with an
    item that holds the validated fields under a fresh id (an [id] sent in
    the body plays no part), [GET /api/menu/:id] with the decimal form of
    that id answers [200] with the same item, and [GET /api/menu] lists it
    after the items that were there. *)
Theorem X13_created_menu_item_can_be_fetched s req user validated :
  reachable s ->
  req_user req = Some user -> is_admin user = true ->
  insertMenuItemSchema_parse (req_body req) = Ok validated ->
  let s' := snd (post_menu s req) in
  exists item n,
    fst (post_menu s req) = mkMenuRes 201 (JsonMenuItem item)
    /\ item
       = MenuItem.mk (num (Z.of_nat n)) (InsertMenuItem.name validated)
           (InsertMenuItem.description validated)
           (InsertMenuItem.price validated) (InsertMenuItem.imageUrl validated)
           (InsertMenuItem.category validated)
    /\ get_menu_item s (decimal n) = mkMenuRes 404 (MenuMessage "Menu item not found")
    /\ get_menu_item s' (decimal n) = mkMenuRes 200 (JsonMenuItem item)
    /\ get_menu s' QUndefined
       = mkMenuRes 200 (JsonMenuItems (getAllMenuItems s ++ [item])).
Proof.
  intros Hr Hu Ha Hp s'. subst s'. unfold post_menu.
  rewrite (isAdmin_menu_admin _ _ _ user Hu Ha), Hp.
  destruct (reachable_counters_nat s Hr) as (_ & [n Hn] & _).
  pose proof (inv_menuItems s (reachable_inv s Hr)) as Hb.
  cbn [createMenuItem fst snd]. rewrite Hn in *.
  eexists. exists n. split; [reflexivity|]. split; [reflexivity|].
  unfold get_menu_item, get_menu, getMenuItem, getMenuItemsByCategory,
    getAllMenuItems.
  rewrite parseInt_decimal. cbn [menuItems String.eqb Ascii.eqb Bool.eqb].
  rewrite (keys_below_get_None _ _ Hb), Map_get_set_same.
  rewrite (Map_values_set_fresh _ _ _ Hb). repeat split.
Qed.

Lemma X13_witness :
  reachable new_MemStorage
  /\ is_admin admin = true
  /\ insertMenuItemSchema_parse tea_body = Ok tea
  /\ exists item n,
       fst (post_menu new_MemStorage (menu_request (Some admin) "" tea_body))
       = mkMenuRes 201 (JsonMenuItem item)
       /\ item = MenuItem.mk (num (Z.of_nat n)) "Tea" "d" (Q2Qc (3 # 2)) "u"
                   "beverage"
       /\ get_menu_item
            (snd (post_menu new_MemStorage
                    (menu_request (Some admin) "" tea_body)))
            (decimal n)
          = mkMenuRes 200 (JsonMenuItem item).
Proof.
  split; [apply reach_new|]. split; [reflexivity|]. split; [reflexivity|].
  destruct (X13_created_menu_item_can_be_fetched new_MemStorage
              (menu_request (Some admin) "" tea_body) admin tea
              reach_new eq_refl eq_refl eq_refl)
    as (item & n & H1 & H2 & _ & H4 & _).
  exists item, n. auto.
Defined.

(** X14.  [DELETE /api/menu/:id] by an admin in a reachable store, for an
    id that [parseInt] reads: the answer is [204] when the item was there
    and [404] when it was not; after a [204], fetching the item and
    deleting it again both answer [404], and the rest of the menu is as it
    was. *)
Theorem X14_deleted_menu_item_is_gone s req user id :
  reachable s ->
  req_user req = Some user -> is_admin user = true ->
  parseInt (req_params_id req) = Some id ->
  let s' := snd (delete_menu s req) in
  (getMenuItem s id <> None ->
   fst (delete_menu s req) = mkMenuRes 204 NoContent
   /\ get_menu_item s' (req_params_id req)
      = mkMenuRes 404 (MenuMessage "Menu item not found")
   /\ delete_menu s' req
      = (mkMenuRes 404 (MenuMessage "Menu item not found"), s')
   /\ (forall id', id' <> id -> getMenuItem s' id' = getMenuItem s id'))
  /\ (getMenuItem s id = None ->
      delete_menu s req = (mkMenuRes 404 (MenuMessage "Menu item not found"), s)).
Proof.
  intros Hr Hu Ha Hid s'.
  assert (Hdel : forall st,
             delete_menu st req
             = match deleteMenuItem st id with
               | (false, st') =>
                   (mkMenuRes 404 (MenuMessage "Menu item not found"), st')
               | (true, st') => (mkMenuRes 204 NoContent, st')
               end).
  { intros st. unfold delete_menu.
    now rewrite (isAdmin_menu_admin _ _ _ user Hu Ha), Hid. }
  destruct (deleteMenuItem_effect s id Hr)
    as (Hfst & Hgone & Hother & _ & Hagain).
  subst s'. rewrite !Hdel. unfold get_menu_item. rewrite Hid.
  destruct (deleteMenuItem s id) as [b st'] eqn:E. cbn [fst snd] in *.
  split.
  - intros Hfound. apply Hfst in Hfound. subst b. cbn [fst snd].
    rewrite Hgone, Hagain. auto.
  - intros Hnone. destruct b.
    + exfalso. apply (proj1 Hfst eq_refl). exact Hnone.
    + f_equal. unfold deleteMenuItem in E. unfold getMenuItem in Hnone.
      rewrite (Map_delete_absent id _ Hnone) in E.
      injection E as <-. now destruct s.
Qed.

Lemma X14_witness :
  reachable new_MemStorage
  /\ fst (delete_menu new_MemStorage (menu_request (Some admin) "3" VUndefined))
     = mkMenuRes 204 NoContent
  /\ delete_menu new_MemStorage (menu_request (Some admin) "33" VUndefined)
     = (mkMenuRes 404 (MenuMessage "Menu item not found"), new_MemStorage).
Proof.
  split; [apply reach_new|]. split.
  - apply (proj1 (X14_deleted_menu_item_is_gone new_MemStorage
                    (menu_request (Some admin) "3" VUndefined) admin (num 3)
                    reach_new eq_refl eq_refl eq_refl)).
    vm_compute. discriminate.
  - apply (proj2 (X14_deleted_menu_item_is_gone new_MemStorage
                    (menu_request (Some admin) "33" VUndefined) admin (num 33)
                    reach_new eq_refl eq_refl eq_refl)).
    vm_compute. reflexivity.
Defined.

Lemma partial_parse_empty :
  insertMenuItemSchema_partial_parse (VObj [])
  = Ok (PartialMenuItem.mk None None None None None).
Proof. reflexivity. Qed.

(** [.partial()] lets a key be absent; it does not let it be [null]. *)
Lemma partial_parse_null v key :
  In key menu_keys -> get_prop v key = VNull ->
  exists errors, insertMenuItemSchema_partial_parse v = Throw (ZodError errors).
Proof.
  intros Hin Hnull. destruct v; try discriminate Hnull.
  unfold insertMenuItemSchema_partial_parse.
  destruct Hin as [<-|[<-|[<-|[<-|[<-|[]]]]]]; rewrite Hnull;
    unfold z_double; cbn [z_optional z_string z_number z_number_min_max];
    repeat match goal with
      | |- context [match z_optional ?z ?x with _ => _ end] =>
          destruct (z_optional z x)
      end; eauto.
Qed.

(** Validation fails with a [ZodError] only. *)
Lemma partial_parse_not_TypeError v :
  insertMenuItemSchema_partial_parse v <> Throw TypeError.
Proof.
  destruct v; try discriminate. unfold insertMenuItemSchema_partial_parse.
  repeat match goal with
    | |- context [match z_optional ?z ?x with _ => _ end] =>
        destruct (z_optional z x)
    end; discriminate.
Qed.

(** X15.  [PUT /api/menu/:id] by an admin, for an id that [parseInt] reads
    and that names a stored item.  The answer is [200] or [400].  An empty
    object as body answers [200] with the item as it is and leaves the
    store unchanged.  A body in which a schema key is [null] answers
    [400] and leaves the store unchanged.  Whatever the body, the item of
    a [200] answer keeps the id of the stored item (an [id] in the body is
    ignored) and is what [getMenuItem] then returns for that id. *)
Theorem X15_put_menu_keeps_id s req user id existing :
  req_user req = Some user -> is_admin user = true ->
  parseInt (req_params_id req) = Some id ->
  getMenuItem s id = Some existing ->
  let r := put_menu s req in
  In (menu_status (fst r)) [200; 400]%Z
  /\ (req_body req = VObj [] -> r = (mkMenuRes 200 (JsonMenuItem existing), s))
  /\ (forall key,
         In key menu_keys -> get_prop (req_body req) key = VNull ->
         menu_status (fst r) = 400%Z /\ snd r = s)
  /\ (forall item,
         fst r = mkMenuRes 200 (JsonMenuItem item) ->
         MenuItem.id item = MenuItem.id existing
         /\ getMenuItem (snd r) id = Some item).
Proof.
  intros Hu Ha Hid Hget r. subst r. unfold put_menu.
  rewrite (isAdmin_menu_admin _ _ _ user Hu Ha), Hid.
  unfold getMenuItem in *.
  split; [|split; [|split]].
  - pose proof (partial_parse_not_TypeError (req_body req)) as Hnt.
    destruct (insertMenuItemSchema_partial_parse (req_body req)) as [v|[e|]];
      [| |congruence]; unfold updateMenuItem; rewrite ?Hget; cbn; tauto.
  - intros ->. rewrite partial_parse_empty. unfold updateMenuItem.
    rewrite Hget.
    assert (E : merge_menuItem existing
                  (PartialMenuItem.mk None None None None None) = existing)
      by now destruct existing.
    rewrite E, (Map_set_same id existing _ Hget). now destruct s.
  - intros key Hin Hnull.
    destruct (partial_parse_null _ _ Hin Hnull) as [errors ->]. now split.
  - intros item.
    destruct (insertMenuItemSchema_partial_parse (req_body req)) as [v|[e|]];
      [|discriminate..].
    unfold updateMenuItem. rewrite Hget. cbn [fst snd menuItems].
    intros H. injection H as <-. split; [reflexivity|apply Map_get_set_same].
Qed.

Lemma X15_witness :
  put_menu new_MemStorage (menu_request (Some admin) "6" (VObj []))
  = (mkMenuRes 200
       (JsonMenuItem
          (MenuItem.mk (num 6) "Cafe Latte"
             "Espresso with steamed milk and a light layer of foam."
             (num 179)
             "https://images.unsplash.com/photo-1541167760496-1628856ab772?ixlib=rb-4.0.3&auto=format&fit=crop&w=800&h=500"
             "beverage")),
     new_MemStorage)
  /\ menu_status
       (fst (put_menu new_MemStorage
               (menu_request (Some admin) "6" (VObj [("price", VNull)]))))
     = 400%Z.
Proof.
  split.
  - pose proof (X15_put_menu_keeps_id new_MemStorage
                  (menu_request (Some admin) "6" (VObj [])) admin (num 6)
                  (MenuItem.mk (num 6) "Cafe Latte"
                     "Espresso with steamed milk and a light layer of foam."
                     (num 179)
                     "https://images.unsplash.com/photo-1541167760496-1628856ab772?ixlib=rb-4.0.3&auto=format&fit=crop&w=800&h=500"
                     "beverage")
                  eq_refl eq_refl eq_refl) as H.
    cbv zeta in H. apply H; [vm_compute|]; reflexivity.
  - pose proof (X15_put_menu_keeps_id new_MemStorage
                  (menu_request (Some admin) "6" (VObj [("price", VNull)]))
                  admin (num 6)
                  (MenuItem.mk (num 6) "Cafe Latte"
                     "Espresso with steamed milk and a light layer of foam."
                     (num 179)
                     "https://images.unsplash.com/photo-1541167760496-1628856ab772?ixlib=rb-4.0.3&auto=format&fit=crop&w=800&h=500"
                     "beverage")
                  eq_refl eq_refl eq_refl) as H.
    cbv zeta in H. destruct H as (_ & _ & H & _); [vm_compute; reflexivity|].
    apply (H "price"); [cbn; tauto|reflexivity].
Defined.

(** X16.  [GET /api/menu] always answers [200] with stored menu items in
    the order they were created.  Without [category], with an empty one
    and with [all] it lists every item; with any other string it lists
    exactly the items of that category; with a [category] that is not a
    string (a repeated parameter) it lists nothing. *)
Theorem X16_get_menu_by_category s category :
  exists items,
    get_menu s category = mkMenuRes 200 (JsonMenuItems items)
    /\ (exists keep, items = filter keep (getAllMenuItems s))
    /\ (category = QUndefined \/ category = QString ""
        \/ category = QString "all" ->
        items = getAllMenuItems s)
    /\ (forall c,
           category = QString c -> c <> "" -> c <> "all" ->
           forall item,
             In item items
             <-> In item (getAllMenuItems s) /\ MenuItem.category item = c)
    /\ (category = QOther -> items = []).
Proof.
  assert (Hall : forall l : list MenuItem.t, l = filter (fun _ => true) l).
  { intros l. symmetry. apply forallb_filter_id. now apply forallb_forall. }
  destruct category as [|c|]; cbn [get_menu].
  - exists (getAllMenuItems s). split; [reflexivity|].
    split; [exists (fun _ => true); apply Hall|].
    split; [reflexivity|]. split; [discriminate|discriminate].
  - destruct (String.eqb c "") eqn:E0.
    + apply String.eqb_eq in E0. subst c.
      exists (getAllMenuItems s). split; [reflexivity|].
      split; [exists (fun _ => true); apply Hall|].
      split; [reflexivity|]. split; [|discriminate].
      intros c H. injection H as <-. congruence.
    + unfold getMenuItemsByCategory. destruct (String.eqb c "all") eqn:E1.
      * apply String.eqb_eq in E1. subst c.
        exists (getAllMenuItems s). split; [reflexivity|].
        split; [exists (fun _ => true); apply Hall|].
        split; [reflexivity|]. split; [|discriminate].
        intros c H. injection H as <-. congruence.
      * eexists. split; [reflexivity|].
        split; [eexists; reflexivity|]. split.
        { intros [H|[H|H]]; try discriminate; injection H as ->;
            [rewrite String.eqb_refl in E0|rewrite String.eqb_refl in E1];
            discriminate. }
        split; [|discriminate].
        intros c' H _ _ item. injection H as <-.
        rewrite filter_In, String.eqb_eq. reflexivity.
  - exists []. split; [reflexivity|].
    split; [exists (fun _ => false)|].
    { symmetry. induction (getAllMenuItems s); [reflexivity|assumption]. }
    split; [intros [H|[H|H]]; discriminate|].
    split; [discriminate|reflexivity].
Qed.

(** ** Users *)

Lemma find_app {A : Type} (p : A -> bool) l x :
  find p (l ++ [x])
  = match find p l with
    | Some y => Some y
    | None => if p x then Some x else None
    end.
Proof.
  induction l as [|a l IH]; simpl; [reflexivity|].
  destruct (p a); [reflexivity|exact IH].
Qed.

(** X17.  [createUser] in a reachable store: the new user gets an id that
    named no user, and [getUser] on that id then returns the user that was
    returned, with the given name, password, display name and admin flag;
    every other id reads as before.  Looking a user up by name afterwards
    gives what it gave before whenever it gave something: an older user
    with the same name (compared case-insensitively) keeps answering
    [getUserByUsername], and the new user is found by name only if no
    stored user had that name. *)
Theorem X17_createUser_then_lookup s insertUser :
  reachable s ->
  let r := createUser s insertUser in
  let id := User.id (fst r) in
  getUser s id = None
  /\ getUser (snd r) id = Some (fst r)
  /\ fst r
     = User.mk id (InsertUser.username insertUser)
         (InsertUser.password insertUser) (InsertUser.name insertUser)
         (InsertUser.isAdmin insertUser)
  /\ (forall id', id' <> id -> getUser (snd r) id' = getUser s id')
  /\ (forall name,
         getUserByUsername (snd r) name
         = match getUserByUsername s name with
           | Some older => Some older
           | None =>
               if String.eqb (toLowerCase (InsertUser.username insertUser))
                    (toLowerCase name)
               then Some (fst r) else None
           end).
Proof.
  intros Hr r id. pose proof (inv_users s (reachable_inv s Hr)) as Hb.
  subst r id. cbn [createUser fst snd User.id]. unfold getUser, getUserByUsername.
  cbn [users].
  split; [now apply keys_below_get_None|].
  split; [apply Map_get_set_same|]. split; [reflexivity|].
  split; [intros id' Hne; now apply Map_get_set_other|].
  intros name. rewrite (Map_values_set_fresh _ _ _ Hb), find_app. reflexivity.
Qed.

Lemma X17_witness :
  reachable new_MemStorage
  /\ getUserByUsername (snd (createUser new_MemStorage bob)) "BOB@EXAMPLE.COM"
     = Some (User.mk (num 2) "Bob@example.com" "x" "Bob" None)
  /\ getUserByUsername two_bobs_store "bob@Example.com"
     = Some (User.mk (num 2) "Bob@example.com" "x" "Bob" None).
Proof.
  split; [apply reach_new|]. split.
  - destruct (X17_createUser_then_lookup new_MemStorage bob reach_new)
      as (_ & _ & _ & _ & H).
    rewrite H. reflexivity.
  - assert (Hr : reachable (snd (createUser new_MemStorage bob)))
      by exact (reach_call new_MemStorage (CreateUser bob) reach_new).
    destruct (X17_createUser_then_lookup _ bob_again Hr) as (_ & _ & _ & _ & H).
    change two_bobs_store
      with (snd (createUser (snd (createUser new_MemStorage bob)) bob_again)).
    rewrite H. reflexivity.
Defined.

(** ** Order status and listings *)

Section SortFacts.
Context {A B : Type} (cmpA : A -> A -> Z) (cmpB : B -> B -> Z) (f : A -> B).
Hypothesis cmp_f : forall a b, cmpB (f a) (f b) = cmpA a b.

Lemma sort_insert_map a l :
  sort_insert cmpB (f a) (map f l) = map f (sort_insert cmpA a l).
Proof.
  induction l as [|b r IH]; simpl; [reflexivity|].
  rewrite cmp_f. destruct (cmpA a b <=? 0)%Z; simpl; [reflexivity|].
  now rewrite IH.
Qed.

Lemma Array_sort_map l : Array_sort cmpB (map f l) = map f (Array_sort cmpA l).
Proof.
  induction l as [|a r IH]; simpl; [reflexivity|].
  now rewrite IH, sort_insert_map.
Qed.
End SortFacts.

Lemma with_status_twice order a b :
  with_status (with_status order a) b = with_status order b.
Proof. reflexivity. Qed.

Lemma Map_values_set_restatus id status order (m : JsMap Order.t) :
  keys_unique m -> keyed_by_id Order.id m -> Map_get id m = Some order ->
  Map_values (Map_set id (with_status order status) m)
  = map (restatus id status) (Map_values m).
Proof.
  unfold keys_unique, keyed_by_id, Map_values, restatus.
  induction m as [|[k o] m IH]; simpl; [discriminate|].
  intros Hu Hk Hget. inversion Hu as [|? ? Hnotin Hu']; subst.
  inversion Hk as [|? ? Hid Hk']; subst. simpl in Hid. rewrite Hid.
  destruct (number_eq_dec id k) as [->|Hne]; simpl.
  - injection Hget as ->. rewrite number_eqb_refl. f_equal.
    rewrite <- (map_id (map snd m)) at 1. apply map_ext_in.
    intros o' Ho'. apply in_map_iff in Ho'. destruct Ho' as ([k' o''] & <- & Hin).
    rewrite Forall_forall in Hk'. specialize (Hk' _ Hin). simpl in *.
    rewrite Hk'. rewrite number_eqb_neq; [reflexivity|].
    intros ->. apply Hnotin. change k with (fst (k, o'')). now apply in_map.
  - rewrite number_eqb_neq by congruence. f_equal. now apply IH.
Qed.

Lemma filter_map_same {A : Type} (p : A -> bool) (f : A -> A) l :
  (forall a, p (f a) = p a) -> filter p (map f l) = map f (filter p l).
Proof.
  intros H. induction l as [|a r IH]; simpl; [reflexivity|].
  rewrite H. destruct (p a); simpl; now rewrite IH.
Qed.

Lemma restatus_createdAt id status o :
  Order.createdAt (restatus id status o) = Order.createdAt o.
Proof. unfold restatus. now destruct (number_eqb (Order.id o) id). Qed.

Lemma restatus_userId id status o :
  Order.userId (restatus id status o) = Order.userId o.
Proof. unfold restatus. now destruct (number_eqb (Order.id o) id). Qed.

(** X18.  Setting the status of a stored order does not move it: in a
    reachable store, after [updateOrderStatus(id, status)] both
    [getAllOrders] and [getOrdersByUserId] list the orders they listed
    before, in the same positions, the order [id] now with the new status
    and every other order untouched; [getOrderWithItems] returns the
    updated order with the items it had.  Setting the status twice is the
    same as setting the last one. *)
Theorem X18_status_update_keeps_listings s id status order :
  reachable s ->
  Map_get id (orders s) = Some order ->
  let r := updateOrderStatus s id status in
  getAllOrders (snd r) = map (restatus id status) (getAllOrders s)
  /\ (forall userId,
         getOrdersByUserId (snd r) userId
         = map (restatus id status) (getOrdersByUserId s userId))
  /\ (forall items,
         getOrderWithItems s id = Some (order, items) ->
         getOrderWithItems (snd r) id = Some (with_status order status, items))
  /\ (forall earlier,
         updateOrderStatus (snd (updateOrderStatus s id earlier)) id status = r).
Proof.
  intros Hr Hget r. subst r.
  destruct (reachable_wf s Hr) as [_ _ [Uo Ko] _ _].
  rewrite (updateOrderStatus_found s id status order Hget).
  cbn [snd]. unfold getAllOrders, getOrdersByUserId, getOrderWithItems.
  cbn [orders orderItems].
  rewrite (Map_values_set_restatus id status order _ Uo Ko Hget).
  assert (Hcmp : forall a b,
             newest_first (restatus id status a) (restatus id status b)
             = newest_first a b).
  { intros a b. unfold newest_first. now rewrite !restatus_createdAt. }
  split; [apply Array_sort_map, Hcmp|]. split.
  - intros userId. rewrite filter_map_same.
    + apply Array_sort_map, Hcmp.
    + intros a. now rewrite restatus_userId.
  - split.
    + intros items. rewrite Hget, Map_get_set_same. congruence.
    + intros earlier.
      rewrite (updateOrderStatus_found s id earlier order Hget). cbn [snd].
      unfold updateOrderStatus at 1. cbn [orders].
      rewrite Map_get_set_same, Map_set_set. reflexivity.
Qed.

Lemma X18_witness :
  reachable one_order_store
  /\ Map_get (num 1) (orders one_order_store) = Some first_order
  /\ getAllOrders (snd (updateOrderStatus one_order_store (num 1) "ready"))
     = map (restatus (num 1) "ready") (getAllOrders one_order_store).
Proof.
  assert (Hr : reachable one_order_store) by (apply reach_call, reach_new).
  assert (Hg : Map_get (num 1) (orders one_order_store) = Some first_order)
    by (vm_compute; reflexivity).
  split; [exact Hr|]. split; [exact Hg|].
  exact (proj1 (X18_status_update_keeps_listings one_order_store (num 1)
                  "ready" first_order Hr Hg)).
Defined.

(** Where [sort_insert] puts an order that is at least as recent as all
    the others, and one that is older than all of them. *)
Lemma sort_insert_front a l :
  Forall (fun b => (Order.createdAt a >= Order.createdAt b)%Z) l ->
  sort_insert newest_first a l = a :: l.
Proof.
  destruct 1 as [|b r Hb _]; simpl; [reflexivity|].
  unfold newest_first.
  destruct (Order.createdAt b - Order.createdAt a <=? 0)%Z eqn:E;
    [reflexivity|]. apply Z.leb_gt in E. lia.
Qed.

Lemma sort_insert_back a l :
  Forall (fun b => (Order.createdAt a < Order.createdAt b)%Z) l ->
  sort_insert newest_first a l = l ++ [a].
Proof.
  induction 1 as [|b r Hb _ IH]; simpl; [reflexivity|].
  unfold newest_first at 1.
  destruct (Order.createdAt b - Order.createdAt a <=? 0)%Z eqn:E.
  - apply Z.leb_le in E. lia.
  - now rewrite IH.
Qed.

Lemma filter_sort_insert (p : Order.t -> bool) a l :
  newest_first_sorted l ->
  filter p (sort_insert newest_first a l)
  = if p a then sort_insert newest_first a (filter p l) else filter p l.
Proof.
  unfold newest_first_sorted.
  induction 1 as [|b r Hr IH Hb]; simpl.
  - now destruct (p a).
  - unfold newest_first at 1.
    destruct (Order.createdAt b - Order.createdAt a <=? 0)%Z eqn:E; simpl.
    + apply Z.leb_le in E. destruct (p a) eqn:Ea; [|reflexivity].
      destruct (p b) eqn:Eb; simpl.
      * unfold newest_first at 1.
        apply Z.leb_le in E. now rewrite E.
      * symmetry. apply sort_insert_front.
        apply Forall_forall. intros c Hc. apply filter_In in Hc.
        rewrite Forall_forall in Hb. specialize (Hb c (proj1 Hc)).
        cbn in Hb. lia.
    + rewrite IH. destruct (p b) eqn:Eb; destruct (p a) eqn:Ea; simpl;
        try reflexivity.
      unfold newest_first at 2. now rewrite E.
Qed.

Lemma filter_Array_sort (p : Order.t -> bool) l :
  filter p (Array_sort newest_first l) = Array_sort newest_first (filter p l).
Proof.
  induction l as [|a r IH]; simpl; [reflexivity|].
  rewrite filter_sort_insert by apply Array_sort_newest_first.
  rewrite IH. now destruct (p a).
Qed.

(** X19.  The listing of one user is the listing of all orders with the
    orders of other users left out: [getOrdersByUserId(u)] is
    [getAllOrders()] filtered on [userId === u], in the same relative
    order.  A customer and an admin therefore see the customer's orders in
    the same order. *)
Theorem X19_user_listing_is_filtered_full_listing s userId :
  getOrdersByUserId s userId
  = filter (fun order => number_eqb (Order.userId order) userId)
      (getAllOrders s).
Proof.
  unfold getOrdersByUserId, getAllOrders. symmetry. apply filter_Array_sort.
Qed.

Lemma Array_sort_sorted l :
  newest_first_sorted l -> Array_sort newest_first l = l.
Proof.
  unfold newest_first_sorted.
  induction 1 as [|a r Hr IH Ha]; simpl; [reflexivity|].
  rewrite IH. now apply sort_insert_front.
Qed.

Lemma Array_sort_clock_advanced l :
  clock_advanced l -> Array_sort newest_first l = rev l.
Proof.
  unfold clock_advanced.
  induction 1 as [|a r Hr IH Ha]; simpl; [reflexivity|].
  rewrite IH. apply sort_insert_back.
  apply Forall_forall. intros b Hb. apply in_rev in Hb.
  rewrite Forall_forall in Ha. now apply Ha.
Qed.

(** X20.  How the listing relates to the order of creation.  When every
    order was created at a later time than the orders before it,
    [getAllOrders] lists the orders in reverse order of creation.  When
    the stored orders are already newest first (in particular when they
    all carry the same time stamp) [getAllOrders] lists them in the order
    of creation: among orders of the same millisecond the older comes
    first.  Listing is idempotent: sorting the listing again changes
    nothing. *)
Theorem X20_listing_and_creation_order s :
  let created := Map_values (orders s) in
  (clock_advanced created -> getAllOrders s = rev created)
  /\ (newest_first_sorted created -> getAllOrders s = created)
  /\ ((forall a b, In a created -> In b created ->
                   Order.createdAt a = Order.createdAt b) ->
      getAllOrders s = created)
  /\ Array_sort newest_first (getAllOrders s) = getAllOrders s.
Proof.
  intros created. unfold getAllOrders. fold created.
  split; [apply Array_sort_clock_advanced|].
  split; [apply Array_sort_sorted|]. split.
  - intros Hsame. apply Array_sort_sorted. unfold newest_first_sorted.
    clear -Hsame. induction created as [|a r IH]; constructor.
    + apply IH. intros x y Hx Hy. apply Hsame; now right.
    + apply Forall_forall. intros b Hb.
      rewrite (Hsame a b); [lia|now left|now right].
  - apply Array_sort_sorted, Array_sort_newest_first.
Qed.

Lemma X20_witness :
  getAllOrders
    (run new_MemStorage
       [CreateOrder 1000 sample_order [sample_item];
        CreateOrder 2000 sample_order [sample_item]])
  = rev (Map_values
           (orders
              (run new_MemStorage
                 [CreateOrder 1000 sample_order [sample_item];
                  CreateOrder 2000 sample_order [sample_item]])))
  /\ getAllOrders
       (run new_MemStorage
          [CreateOrder 1000 sample_order [sample_item];
           CreateOrder 1000 sample_order [sample_item]])
     = Map_values
         (orders
            (run new_MemStorage
               [CreateOrder 1000 sample_order [sample_item];
                CreateOrder 1000 sample_order [sample_item]])).
Proof.
  split.
  - apply (proj1 (X20_listing_and_creation_order _)).
    vm_compute. repeat constructor.
  - apply (proj1 (proj2 (X20_listing_and_creation_order _))).
    vm_compute. repeat constructor; discriminate.
Defined.

(** ** The cart *)




Lemma findIndex_None {A : Type} (p : A -> bool) l :
  findIndex p l = None <-> forall a, In a l -> p a = false.
Proof.
  induction l as [|a r IH]; simpl; [split; [intros _ ? []|reflexivity]|].
  destruct (p a) eqn:E.
  - split; [discriminate|]. intros H. specialize (H a (or_introl eq_refl)).
    congruence.
  - destruct (findIndex p r); simpl.
    + split; [discriminate|]. intros H.
      assert (Hn : Some n = None); [|discriminate Hn].
      apply IH. intros b Hb. apply H. now right.
    + split; [|reflexivity]. intros _ b [<-|Hb]; [exact E|].
      now apply (proj1 IH eq_refl).
Qed.







Lemma number_leb_le x y : number_leb x y = true <-> (x <= y)%Qc.
Proof. unfold number_leb, Qcle. apply Qle_bool_iff. Qed.

Lemma removeFromCart_filter itemId cart :
  Cart.removeFromCart itemId cart = filter (other_line itemId) cart.
Proof.
  unfold Cart.removeFromCart, other_line.
  destruct (find _ cart) eqn:E; [reflexivity|].
  symmetry. apply forallb_filter_id. apply forallb_forall. intros line Hin.
  pose proof (find_none _ _ E line Hin) as H. cbn in H. now rewrite H.
Qed.

Lemma filter_twice {A : Type} (p : A -> bool) l :
  filter p (filter p l) = filter p l.
Proof.
  induction l as [|a r IH]; simpl; [reflexivity|].
  destruct (p a) eqn:E; simpl; [rewrite E|]; now rewrite IH.
Qed.

Lemma NoDup_map_filter {A B : Type} (f : A -> B) (p : A -> bool) l :
  NoDup (map f l) -> NoDup (map f (filter p l)).
Proof.
  induction l as [|a r IH]; simpl; [auto|].
  intros H. inversion H as [|? ? Hnotin Hnd]; subst.
  destruct (p a); simpl; [|now apply IH].
  constructor; [|now apply IH].
  intros Hin. apply Hnotin. apply in_map_iff in Hin.
  destruct Hin as (x & Hx & Hxin). apply filter_In in Hxin.
  rewrite <- Hx. now apply in_map.
Qed.

Lemma Forall2_map_graph {A B : Type} (f : A -> B) l :
  Forall2 (fun a b => b = f a) l (map f l).
Proof. induction l; simpl; constructor; auto. Qed.

(** X22.  [removeFromCart(itemId)] keeps exactly the lines for other menu
    items, in their order; when no line is for [itemId] the cart is
    returned as it is, so removing twice is removing once; lines stay for
    different items.  [updateQuantity(itemId, quantity)] with a quantity
    of zero or less is [removeFromCart(itemId)]; with a positive quantity
    it keeps every line in place, gives the lines for [itemId] that
    quantity and leaves the other lines alone.  Adding an item that was not
    in the cart and removing it again gives the cart back. *)
Theorem X22_remove_and_updateQuantity itemId quantity cart :
  let removed := Cart.removeFromCart itemId cart in
  let updated := Cart.updateQuantity itemId quantity cart in
  removed = filter (other_line itemId) cart
  /\ ((forall line, In line cart -> CartItem.id line <> itemId) ->
      removed = cart)
  /\ Cart.removeFromCart itemId removed = removed
  /\ (lines_distinct cart -> lines_distinct removed)
  /\ ((quantity <= num 0)%Qc -> updated = removed)
  /\ ((num 0 < quantity)%Qc ->
      map CartItem.id updated = map CartItem.id cart
      /\ Forall2 (fun before after =>
                    after = if number_eqb (CartItem.id before) itemId
                            then Cart.with_quantity before quantity
                            else before)
           cart updated)
  /\ (forall item,
         itemId = MenuItem.id item ->
         (forall line, In line cart -> CartItem.id line <> itemId) ->
         Cart.removeFromCart itemId (Cart.addToCart item cart) = cart).
Proof.
  intros removed updated. subst removed updated.
  assert (Hkeep : (forall line, In line cart -> CartItem.id line <> itemId) ->
                  filter (other_line itemId) cart = cart).
  { intros Habs. apply forallb_filter_id, forallb_forall. intros line Hin.
    unfold other_line. now rewrite number_eqb_neq by now apply Habs. }
  rewrite !removeFromCart_filter.
  split; [reflexivity|]. split; [exact Hkeep|].
  split; [apply filter_twice|].
  split; [apply NoDup_map_filter|]. split; [|split].
  - intros Hle. unfold Cart.updateQuantity.
    rewrite (proj2 (number_leb_le _ _) Hle). apply removeFromCart_filter.
  - intros Hpos. unfold Cart.updateQuantity.
    assert (Hb : number_leb quantity (num 0) = false).
    { destruct (number_leb quantity (num 0)) eqn:E; [|reflexivity].
      apply number_leb_le in E. exfalso. exact (Qcle_not_lt _ _ E Hpos). }
    rewrite Hb. split.
    + rewrite map_map. apply map_ext. intros line.
      now destruct (number_eqb (CartItem.id line) itemId).
    + apply Forall2_map_graph.
  - intros item -> Habs. unfold Cart.addToCart.
    assert (Hn : findIndex (fun c => number_eqb (CartItem.id c)
                                       (MenuItem.id item)) cart = None).
    { apply findIndex_None. intros c Hc. apply number_eqb_neq. now apply Habs. }
    rewrite Hn, removeFromCart_filter, filter_app, (Hkeep Habs).
    cbn. unfold other_line. cbn. rewrite number_eqb_refl. cbn.
    apply app_nil_r.
Qed.

Lemma X22_witness :
  Cart.updateQuantity (num 8) (num 0) [latte_line; tea_line] = [latte_line]
  /\ Cart.updateQuantity (num 8) (num 5) [latte_line; tea_line]
     = [latte_line; Cart.with_quantity tea_line (num 5)]
  /\ Cart.removeFromCart (num 8) (Cart.addToCart tea_item [latte_line])
     = [latte_line].
Proof.
  pose proof (X22_remove_and_updateQuantity (num 8) (num 0)
                [latte_line; tea_line]) as H0.
  pose proof (X22_remove_and_updateQuantity (num 8) (num 5)
                [latte_line; tea_line]) as H5.
  pose proof (X22_remove_and_updateQuantity (num 8) (num 5) [latte_line])
    as H1.
  cbv zeta in H0, H5, H1.
  destruct H0 as (Hr & _ & _ & _ & Hz & _).
  destruct H1 as (_ & _ & _ & _ & _ & _ & Hrt).
  split; [|split].
  - rewrite Hz, Hr; [vm_compute; reflexivity|].
    unfold Qcle. vm_compute. discriminate.
  - vm_compute. reflexivity.
  - apply (Hrt tea_item eq_refl). intros line [<-|[]] E.
    apply (f_equal this) in E. vm_compute in E. discriminate.
Defined.

(** ** What the schemas take *)

Lemma z_number_min_max_iff lo hi int v n :
  z_number_min_max lo hi int v = Some n
  <-> v = VNum n /\ (num lo <= n)%Qc /\ (n <= num hi)%Qc
      /\ (int = true -> Number_isInteger n = true).
Proof.
  unfold z_number_min_max.
  destruct v as [| |b|m|str|l|fields]; cbn [z_number];
    try (split; [discriminate|intros (H & _); discriminate]).
  rewrite <- !number_leb_le. split.
  - destruct (number_leb (num lo) m) eqn:E1; [|discriminate].
    destruct (number_leb m (num hi)) eqn:E2; [|discriminate].
    cbn [andb].
    destruct (negb int || Number_isInteger m) eqn:E3; [|discriminate].
    intros H. injection H as <-. repeat split; auto.
    intros ->. exact E3.
  - intros (H0 & H1 & H2 & H3). injection H0 as ->.
    rewrite H1, H2. cbn [andb].
    destruct int; cbn [negb orb]; [rewrite H3 by reflexivity|]; reflexivity.
Qed.

Lemma z_integer_int32 n : int32 n -> z_integer (VNum n) = Some n.
Proof.
  intros (H1 & H2 & H3). apply z_number_min_max_iff. auto.
Qed.

Lemma z_double_double48 n : double48 n -> z_double (VNum n) = Some n.
Proof.
  intros (H1 & H2). apply z_number_min_max_iff.
  repeat split; auto. discriminate.
Qed.




Lemma int32_zero : int32 (num 0).
Proof. repeat split; vm_compute; discriminate. Qed.



(** ** From the order page to the store *)

Lemma cart_line_parsed line :
  line_ok line ->
  (o <- cart_item_object (cart_item_json line) ;; insertOrderItemSchema_parse o)
  = Ok (line_of line).
Proof.
  intros (Hid & Hprice & Hquantity).
  destruct line as [id name price quantity url].
  cbn [CartItem.id CartItem.price CartItem.quantity] in *.
  assert (E : cart_item_object
                (cart_item_json (CartItem.mk id name price quantity url))
              = Ok (VObj [("menuItemId", VNum id); ("name", VStr name);
                          ("price", VNum price); ("quantity", VNum quantity);
                          ("orderId", VNum (num 0))])).
  { destruct url; reflexivity. }
  rewrite E. cbn [bind]. unfold insertOrderItemSchema_parse.
  cbn [get_prop obj_get String.eqb Ascii.eqb Bool.eqb].
  rewrite (z_integer_int32 _ int32_zero), (z_integer_int32 _ Hid),
    (z_double_double48 _ Hprice), (z_integer_int32 _ Hquantity).
  reflexivity.
Qed.

Lemma mapM_cart cart :
  Forall line_ok cart ->
  mapM (fun item => o <- cart_item_object item ;; insertOrderItemSchema_parse o)
    (map cart_item_json cart)
  = Ok (map line_of cart).
Proof.
  induction 1 as [|line r Hline _ IH]; [reflexivity|].
  cbn [map mapM]. rewrite (cart_line_parsed line Hline). cbn [bind].
  now rewrite IH.
Qed.

Lemma orderDetails_parsed data cart user :
  int32 (User.id user) -> cart_ok cart ->
  insertOrderSchema_parse
    (VObj (obj_set "userId" (VNum (User.id user))
             (spread (get_prop (orderData data cart) "orderDetails"))))
  = Ok (InsertOrder.mk (User.id user) (form_customerName data)
          (form_customerPhone data) (form_orderType data) (instructions data)
          (Cart.cartSubtotal cart) (Cart.cartTax cart) (Cart.cartTotal cart)).
Proof.
  intros Hu (_ & Hsub & Htax & Htot).
  unfold insertOrderSchema_parse, instructions. cbn [get_prop].
  rewrite obj_get_set_same.
  rewrite !get_prop_spread by (reflexivity || not_index).
  destruct data as [name phone [text|] type];
    cbn [orderData get_prop obj_get app optional_key String.eqb Ascii.eqb
           Bool.eqb form_customerName form_customerPhone
           form_specialInstructions form_orderType z_string z_opt_text];
    rewrite (z_integer_int32 _ Hu), (z_double_double48 _ Hsub),
      (z_double_double48 _ Htax), (z_double_double48 _ Htot);
    reflexivity.
Qed.

Lemma Forall2_map_right {A B C : Type} (P : A -> C -> Prop) (f : B -> C) l1 l2 :
  Forall2 P l1 (map f l2) -> Forall2 (fun a b => P a (f b)) l1 l2.
Proof.
  revert l1. induction l2 as [|b r IH]; intros l1 H; inversion H; subst;
    constructor; auto.
Qed.

Lemma cartSubtotal_lines items cart :
  Forall2 is_line items cart -> cartSubtotal items = Cart.cartSubtotal cart.
Proof.
  intros H. unfold cartSubtotal, Cart.cartSubtotal. generalize (num 0).
  induction H as [|it line its r (_ & _ & Hp & Hq) _ IH]; intros acc;
    [reflexivity|].
  cbn [fold_left]. rewrite Hp, Hq. apply IH.
Qed.

(** X23.  What the order page sends is what the store keeps.  With an
    empty cart the page sends nothing.  Take a non-empty cart that the
    schemas accept (the id and the quantity of every line are 32-bit
    integers, the prices and the three totals lie in the range of a
    [doublePrecision] column) and a customer with a 32-bit id.  Then the
    body the page sends is accepted in every reachable store: the answer
    is [201] with an order that has the next order id, the customer's id,
    the name, phone, order type and instructions of the form, no status,
    and the subtotal, tax and total the cart shows; [getOrderWithItems]
    then returns this order with one item per cart line, in the order of
    the cart, each with the id of the line's menu item, its name, price
    and quantity.  So for an order placed from the page the stored
    subtotal is what the reduce of the cart gives on the stored items,
    the stored tax is that subtotal times [0.07] and the stored total is
    subtotal plus tax, each as doubles compute them. *)
Theorem X23_order_page_to_store s now user data cart body :
  reachable s ->
  place_order data cart = Some body ->
  int32 (User.id user) ->
  cart_ok cart ->
  let r := post_orders s now (mkReq (Some user) "" body) in
  place_order data [] = None
  /\ exists order items,
       fst r = mkRes 201 (JsonOrder order)
       /\ order
          = Order.mk (orderIdCounter s) (User.id user) (form_customerName data)
              (form_customerPhone data) (form_orderType data)
              (instructions data) None (Cart.cartSubtotal cart)
              (Cart.cartTax cart) (Cart.cartTotal cart) now
       /\ getOrderWithItems (snd r) (Order.id order) = Some (order, items)
       /\ Forall2 is_line items cart
       /\ Order.subtotal order = cartSubtotal items
       /\ Order.tax order = js_mul (Order.subtotal order) Cart.TAX_RATE
       /\ Order.total order = js_add (Order.subtotal order) (Order.tax order).
Proof.
  intros Hr Hbody Hu Hcart r. split; [reflexivity|].
  unfold place_order in Hbody.
  destruct (List.length cart =? 0)%nat eqn:Elen; [discriminate|].
  injection Hbody as <-.
  assert (Hpost :
            post_orders s now (mkReq (Some user) "" (orderData data cart))
            = (let c := createOrder s now
                          (InsertOrder.mk (User.id user) (form_customerName data)
                             (form_customerPhone data) (form_orderType data)
                             (instructions data) (Cart.cartSubtotal cart)
                             (Cart.cartTax cart) (Cart.cartTotal cart))
                          (map line_of cart) in
               (mkRes 201 (JsonOrder (fst c)), snd c))).
  { unfold post_orders, isAuthenticated, post_orders_try.
    cbn [req_user req_body member orderData bind].
    change (get_prop (orderData data cart) "cartItems")
      with (VArr (map cart_item_json cart)).
    cbn [truthy as_array]. rewrite length_map, Elen.
    rewrite (orderDetails_parsed data cart user Hu Hcart). cbn [bind].
    rewrite (mapM_cart cart (proj1 Hcart)). cbn [bind].
    destruct (createOrder s now _ (map line_of cart)). reflexivity. }
  subst r. rewrite Hpost. cbv zeta. cbn [fst snd].
  destruct (createOrder_then_get s now
              (InsertOrder.mk (User.id user) (form_customerName data)
                 (form_customerPhone data) (form_orderType data)
                 (instructions data) (Cart.cartSubtotal cart)
                 (Cart.cartTax cart) (Cart.cartTotal cart))
              (map line_of cart) (reachable_inv s Hr))
    as (_ & items & Hget & _ & _ & Hcarry).
  assert (Hlines : Forall2 is_line items cart).
  { apply Forall2_map_right in Hcarry. exact Hcarry. }
  eexists. exists items. split; [reflexivity|].
  split; [rewrite createOrder_eq; reflexivity|].
  split; [exact Hget|]. split; [exact Hlines|].
  rewrite createOrder_eq. cbv zeta. cbn [fst Order.subtotal Order.total Order.tax].
  split; [symmetry; now apply cartSubtotal_lines|].
  split; reflexivity.
Qed.

Lemma X23_witness :
  reachable new_MemStorage
  /\ place_order sample_form [latte_line; tea_line]
     = Some (orderData sample_form [latte_line; tea_line])
  /\ int32 (User.id customer)
  /\ cart_ok [latte_line; tea_line]
  /\ exists order items,
       fst (post_orders new_MemStorage 1000
              (mkReq (Some customer) ""
                 (orderData sample_form [latte_line; tea_line])))
       = mkRes 201 (JsonOrder order)
       /\ Forall2 is_line items [latte_line; tea_line]
       /\ Order.subtotal order = cartSubtotal items
       /\ Order.subtotal order = num 182
       /\ Order.tax order = Q2Qc (1792995601646879 # 140737488355328)
       /\ Order.tax order <> Q2Qc (1274 # 100).
Proof.
  assert (Hu : int32 (User.id customer))
    by (repeat split; vm_compute; discriminate).
  assert (Hcart : cart_ok [latte_line; tea_line]).
  { split; [|repeat split; vm_compute; discriminate].
    repeat constructor; vm_compute; discriminate. }
  split; [apply reach_new|]. split; [reflexivity|].
  split; [exact Hu|]. split; [exact Hcart|].
  destruct (X23_order_page_to_store new_MemStorage 1000 customer sample_form
              [latte_line; tea_line]
              (orderData sample_form [latte_line; tea_line])
              reach_new eq_refl Hu Hcart)
    as (_ & order & items & H1 & H2 & _ & H4 & H5 & _).
  exists order, items. split; [exact H1|]. split; [exact H4|].
  split; [exact H5|]. rewrite H2. cbn [Order.subtotal Order.tax].
  split; [apply Qc_is_canon; vm_compute; reflexivity|].
  split; [apply Qc_is_canon; vm_compute; reflexivity|].
  intros E. apply (f_equal this) in E. vm_compute in E. discriminate.
Defined.

(** ** What [POST /api/orders] accepts *)






(** ** More on [createOrder] *)

(** X25.  The store itself takes an order without items: in a reachable
    store [createOrder(order, [])] stores the order, hands out no order
    item id and leaves the order items alone, and [getOrderWithItems] then
    returns the order with an empty item list.  That an order has at least
    one item is enforced by the route only. *)
Theorem X25_createOrder_without_items s now order :
  reachable s ->
  let r := createOrder s now order [] in
  getOrderWithItems (snd r) (Order.id (fst r)) = Some (fst r, [])
  /\ orderItems (snd r) = orderItems s
  /\ orderItemIdCounter (snd r) = orderItemIdCounter s
  /\ orderIdCounter (snd r) = incr (orderIdCounter s).
Proof.
  intros Hr r.
  pose proof (getOrderWithItems_createOrder s now order []
                (reachable_inv s Hr)) as H.
  cbv zeta in H. fold r in H. split; [exact H|].
  subst r. rewrite createOrder_eq. cbn. repeat split.
Qed.

Lemma X25_witness :
  reachable new_MemStorage
  /\ getOrderWithItems (snd (createOrder new_MemStorage 1000 sample_order []))
       (num 1)
     = Some (fst (createOrder new_MemStorage 1000 sample_order []), []).
Proof.
  split; [apply reach_new|].
  exact (proj1 (X25_createOrder_without_items new_MemStorage 1000 sample_order
                  reach_new)).
Defined.

Lemma Array_sort_newest_last l x :
  Forall (fun o => (Order.createdAt o < Order.createdAt x)%Z) l ->
  Array_sort newest_first (l ++ [x]) = x :: Array_sort newest_first l.
Proof.
  induction 1 as [|a r Ha _ IH]; [reflexivity|].
  cbn [app Array_sort]. rewrite IH. cbn [sort_insert].
  unfold newest_first at 1.
  destruct (Order.createdAt x - Order.createdAt a <=? 0)%Z eqn:E;
    [|reflexivity].
  apply Z.leb_le in E. lia.
Qed.

(** X26.  A new order goes to the top of the listings when the clock has
    moved on: in a reachable store whose orders all carry earlier time
    stamps, after [createOrder] at time [now] [getAllOrders] is the new
    order followed by the previous listing, and [getOrdersByUserId] is the
    same for the owner of the new order and unchanged for everyone
    else. *)
Theorem X26_new_order_listed_first s now order items :
  reachable s ->
  Forall (fun o => (Order.createdAt o < now)%Z) (Map_values (orders s)) ->
  let r := createOrder s now order items in
  getAllOrders (snd r) = fst r :: getAllOrders s
  /\ (forall userId,
         getOrdersByUserId (snd r) userId
         = if number_eqb (InsertOrder.userId order) userId
           then fst r :: getOrdersByUserId s userId
           else getOrdersByUserId s userId).
Proof.
  intros Hr Hold r.
  pose proof (inv_orders s (reachable_inv s Hr)) as Hb.
  assert (Hall : getAllOrders (snd r) = fst r :: getAllOrders s).
  { subst r. rewrite createOrder_eq. cbv zeta. cbn [fst snd].
    unfold getAllOrders. cbn [orders].
    rewrite (Map_values_set_fresh _ _ _ Hb).
    apply Array_sort_newest_last. exact Hold. }
  split; [exact Hall|].
  intros userId.
  unfold getOrdersByUserId at 1.
  rewrite <- filter_Array_sort. fold (getAllOrders (snd r)). rewrite Hall.
  cbn [filter].
  assert (Hu : Order.userId (fst r) = InsertOrder.userId order).
  { subst r. now rewrite createOrder_eq. }
  rewrite Hu. unfold getOrdersByUserId. rewrite <- filter_Array_sort.
  reflexivity.
Qed.

Lemma X26_witness :
  reachable one_order_store
  /\ Forall (fun o => (Order.createdAt o < 2000)%Z)
       (Map_values (orders one_order_store))
  /\ map Order.id
       (getAllOrders
          (snd (createOrder one_order_store 2000 sample_order [sample_item])))
     = [num 2; num 1].
Proof.
  assert (Hr : reachable one_order_store) by (apply reach_call, reach_new).
  assert (Hf : Forall (fun o => (Order.createdAt o < 2000)%Z)
                 (Map_values (orders one_order_store))).
  { vm_compute. repeat constructor. }
  split; [exact Hr|]. split; [exact Hf|].
  rewrite (proj1 (X26_new_order_listed_first one_order_store 2000 sample_order
                    [sample_item] Hr Hf)).
  vm_compute. reflexivity.
Defined.
